(** * Property-record analysis: a shallow embedding of the Python sources

    Definitions come first, file by file of the repository:
    - [Py]: the built-in [str] methods and the values decoded from JSON;
    - [Re], [Datetime], [Num]: what the sources use of the modules [re]
      and [datetime], of floats and of sorting;
    - [Utils]: [utils.py] ([stream_jsonl], [parse_date]);
    - [PatternAnalyzer]: [pattern_analyzer.py];
    - [LlmClassifier]: [llm_classifier.py];
    - [SeminoleScraper]: the records of the API in [seminole_scraper.py];
    - [Examples] and [Spec]: the inputs of the worked examples and the
      notions the statements are written with.
    The facts follow, one module for each group of functions.

    Strings are Stdlib strings whose characters denote the code points
    U+0000 to U+00FF; every [str] method below is CPython's restricted to
    that range.  What the sources obtain from outside (the JSON decoder,
    [dateutil], the clock, the random sample, the classification service)
    is a variable of the function that uses it. *)

From Stdlib Require Import ZArith NArith List String Ascii Bool Lia.
From Stdlib Require Import DecimalString DecimalNat Sorted.
From Stdlib Require Import PrimFloat FloatOps Uint63 SpecFloat.
From stdpp Require Import gmap strings.

Local Open Scope string_scope.
Local Open Scope list_scope.

(* ===================================================================== *)
(** ** Python built-ins *)
(* ===================================================================== *)

Module Py.

(** Code point of a character, and the character of a code point. *)
Definition ord (c : ascii) : N := N_of_ascii c.
Definition chr (n : N) : ascii := ascii_of_N n.

Definition in_range (lo hi : N) (c : ascii) : bool :=
  (lo <=? ord c)%N && (ord c <=? hi)%N.

Definition is_code (n : N) (c : ascii) : bool := (ord c =? n)%N.

(** [c.isdigit()]: the decimal digits and the superscripts 1, 2, 3. *)
Definition char_isdigit (c : ascii) : bool :=
  in_range 48 57 c || is_code 178 c || is_code 179 c || is_code 185 c.

(** [c.isalpha()]: the ASCII letters and the Latin-1 letters. *)
Definition char_isalpha (c : ascii) : bool :=
  in_range 65 90 c || in_range 97 122 c
  || is_code 170 c || is_code 181 c || is_code 186 c
  || in_range 192 214 c || in_range 216 246 c || in_range 248 255 c.

(** [c.isspace()]. *)
Definition char_isspace (c : ascii) : bool :=
  in_range 9 13 c || in_range 28 32 c || is_code 133 c || is_code 160 c.

(** [c.isprintable()], used by [repr]. *)
Definition char_isprintable (c : ascii) : bool :=
  in_range 32 126 c || (in_range 161 255 c && negb (is_code 173 c)).

(** [c.lower()]. *)
Definition char_lower (c : ascii) : ascii :=
  if in_range 65 90 c || in_range 192 214 c || in_range 216 222 c
  then chr (ord c + 32) else c.

(** [c.upper()]: a string, because the sharp s becomes two letters.  The
    capitals of the micro sign and of y with diaeresis lie above U+00FF and
    cannot be written here; both characters are kept, which like their true
    images are not ASCII. *)
Definition char_upper (c : ascii) : string :=
  if in_range 97 122 c || in_range 224 246 c || in_range 248 254 c
  then String (chr (ord c - 32)) EmptyString
  else if is_code 223 c then "SS"
  else String c EmptyString.

(** [len(s)]. *)
Definition len (s : string) : nat := String.length s.

(** [s[i:i+n]]: the slice is cut at the end of the string. *)
Definition slice (i n : nat) (s : string) : string := substring i n s.

(** [s[i]] for an index within the string. *)
Definition char_at (i : nat) (s : string) : string := substring i 1 s.

Fixpoint str_all (p : ascii -> bool) (s : string) : bool :=
  match s with
  | EmptyString => true
  | String c s' => p c && str_all p s'
  end.

Fixpoint str_map (f : ascii -> ascii) (s : string) : string :=
  match s with
  | EmptyString => EmptyString
  | String c s' => String (f c) (str_map f s')
  end.

(** [s.isdigit()]: false on the empty string. *)
Definition isdigit (s : string) : bool :=
  negb (String.eqb s "") && str_all char_isdigit s.

Definition lower (s : string) : string := str_map char_lower s.

Fixpoint upper (s : string) : string :=
  match s with
  | EmptyString => EmptyString
  | String c s' => char_upper c +:+ upper s'
  end.

(** [s.startswith(p)]. *)
Fixpoint startswith (p s : string) : bool :=
  match p, s with
  | EmptyString, _ => true
  | String a p', String b s' => Ascii.eqb a b && startswith p' s'
  | String _ _, EmptyString => false
  end.

(** [sub in s]. *)
Fixpoint contains (sub s : string) : bool :=
  startswith sub s ||
  match s with
  | EmptyString => false
  | String _ s' => contains sub s'
  end.

Fixpoint lstrip (s : string) : string :=
  match s with
  | EmptyString => EmptyString
  | String c s' => if char_isspace c then lstrip s' else s
  end.

Fixpoint rstrip (s : string) : string :=
  match s with
  | EmptyString => EmptyString
  | String c s' =>
      match rstrip s' with
      | EmptyString => if char_isspace c then EmptyString else String c EmptyString
      | r => String c r
      end
  end.

(** [s.strip()]. *)
Definition strip (s : string) : string := rstrip (lstrip s).

(** [s.split(sep)] for a one-character separator. *)
Fixpoint split (sep : ascii) (s : string) : list string :=
  match s with
  | EmptyString => [EmptyString]
  | String c s' =>
      if Ascii.eqb c sep then EmptyString :: split sep s'
      else match split sep s' with
           | [] => [String c EmptyString]
           | p :: ps => String c p :: ps
           end
  end.

(** [sep.join(parts)]. *)
Fixpoint join (sep : string) (parts : list string) : string :=
  match parts with
  | [] => EmptyString
  | [p] => p
  | p :: ps => p +:+ sep +:+ join sep ps
  end.

(** [s.replace(old, new)]: the occurrences of [old] are found from the left
    and do not overlap.  [skip] counts the characters of a matched [old]
    still to be passed over. *)
Fixpoint replace_from (skip : nat) (old new s : string) : string :=
  match s with
  | EmptyString => EmptyString
  | String c s' =>
      match skip with
      | S k => replace_from k old new s'
      | O =>
          if startswith old s
          then new +:+ replace_from (len old - 1) old new s'
          else String c (replace_from 0 old new s')
      end
  end.

Fixpoint intersperse (new s : string) : string :=
  match s with
  | EmptyString => new
  | String c s' => new +:+ String c (intersperse new s')
  end.

Definition replace (old new s : string) : string :=
  match old with
  | EmptyString => intersperse new s
  | _ => replace_from 0 old new s
  end.

(** [a < b] on strings: lexicographic on code points. *)
Fixpoint str_ltb (a b : string) : bool :=
  match a, b with
  | _, EmptyString => false
  | EmptyString, String _ _ => true
  | String x a', String y b' =>
      (ord x <? ord y)%N || ((ord x =? ord y)%N && str_ltb a' b')
  end.

(** [str(n)] for integers. *)
Definition str_of_Z (z : Z) : string := NilZero.string_of_int (Z.to_int z).
Definition str_of_nat (n : nat) : string := NilZero.string_of_uint (Nat.to_uint n).

(** The characters that no string literal of this file can hold. *)
Definition dquote : ascii := chr 34.
Definition newline : ascii := chr 10.
Definition backslash : ascii := chr 92.

(** *** Values decoded from JSON

    [None], booleans, integers, strings, lists and objects with string
    keys.  JSON numbers with a fraction or an exponent (Python floats) are
    not part of the model. *)
#[warnings="-register-all"]
Inductive pyval : Type :=
  | PNone
  | PBool (b : bool)
  | PInt (z : Z)
  | PStr (s : string)
  | PList (l : list pyval)
  | PDict (d : list (string * pyval)).

(** A record is a JSON object: the bindings in their order. *)
Definition record : Type := list (string * pyval).

(** [d.get(key)]: [None] when the key is missing. *)
Fixpoint get (key : string) (d : record) : pyval :=
  match d with
  | [] => PNone
  | (k, v) :: d' => if String.eqb k key then v else get key d'
  end.

(** [key in d]. *)
Definition has_key (key : string) (d : record) : bool :=
  existsb (fun kv => String.eqb (fst kv) key) d.

(** Truth value of [if v:]. *)
Definition truthy (v : pyval) : bool :=
  match v with
  | PNone => false
  | PBool b => b
  | PInt z => negb (z =? 0)%Z
  | PStr s => negb (String.eqb s "")
  | PList l => match l with [] => false | _ => true end
  | PDict d => match d with [] => false | _ => true end
  end.

(** [isinstance(v, dict)]. *)
Definition is_dict (v : pyval) : bool :=
  match v with PDict _ => true | _ => false end.

(** *** Dictionary keys

    The hashable values, compared as Python compares keys: [True] and [1]
    are the same key, and so are [False] and [0].  Lists and dictionaries
    are not hashable. *)
Inductive hkey : Type :=
  | KNone
  | KInt (z : Z)
  | KStr (s : string).

Definition to_key (v : pyval) : option hkey :=
  match v with
  | PNone => Some KNone
  | PBool b => Some (KInt (Z.b2z b))
  | PInt z => Some (KInt z)
  | PStr s => Some (KStr s)
  | PList _ | PDict _ => None
  end.

Definition hkey_eqb (a b : hkey) : bool :=
  match a, b with
  | KNone, KNone => true
  | KInt x, KInt y => (x =? y)%Z
  | KStr s, KStr t => String.eqb s t
  | _, _ => false
  end.

(** Whether two values are the same key. *)
Definition same_key (a b : pyval) : bool :=
  match to_key a, to_key b with
  | Some x, Some y => hkey_eqb x y
  | _, _ => false
  end.

(** A dictionary with any hashable keys: the items in order of first
    insertion, each with the key object first inserted. *)
Definition pydict (V : Type) : Type := list (pyval * V).

(** [d.get(key)]. *)
Fixpoint dict_get {V : Type} (key : pyval) (d : pydict V) : option V :=
  match d with
  | [] => None
  | (k, v) :: d' => if same_key k key then Some v else dict_get key d'
  end.

(** [d[key] = f(d.get(key))]: the item is changed in place, or added at
    the end. *)
Fixpoint dict_update {V : Type} (key : pyval) (f : option V -> V) (d : pydict V)
  : pydict V :=
  match d with
  | [] => [(key, f None)]
  | (k, v) :: d' =>
      if same_key k key then (k, f (Some v)) :: d'
      else (k, v) :: dict_update key f d'
  end.

Definition hex_digit (n : N) : ascii :=
  if (n <? 10)%N then chr (48 + n) else chr (87 + n).

(** One character inside [repr(s)], [q] being the chosen quote. *)
Definition repr_char (q c : ascii) : string :=
  if Ascii.eqb c backslash then String backslash (String backslash EmptyString)
  else if Ascii.eqb c q then String backslash (String q EmptyString)
  else if is_code 9 c then String backslash "t"
  else if is_code 10 c then String backslash "n"
  else if is_code 13 c then String backslash "r"
  else if char_isprintable c then String c EmptyString
  else String backslash
         (String "x" (String (hex_digit (ord c / 16))
                        (String (hex_digit (ord c mod 16)) EmptyString))).

Fixpoint str_concat_map (f : ascii -> string) (s : string) : string :=
  match s with
  | EmptyString => EmptyString
  | String c s' => f c +:+ str_concat_map f s'
  end.

(** [repr(s)]: single quotes, unless the string has a single quote and no
    double quote. *)
Definition repr_str (s : string) : string :=
  let q := if contains "'" s && negb (contains (String dquote EmptyString) s)
           then dquote else "'"%char in
  String q (str_concat_map (repr_char q) s +:+ String q EmptyString).

(** [repr(v)]. *)
Fixpoint repr (v : pyval) : string :=
  match v with
  | PNone => "None"
  | PBool true => "True"
  | PBool false => "False"
  | PInt z => str_of_Z z
  | PStr s => repr_str s
  | PList l => "[" +:+ join ", " (map repr l) +:+ "]"
  | PDict d =>
      "{" +:+ join ", " (map (fun kv => repr_str (fst kv) +:+ ": " +:+ repr (snd kv)) d)
          +:+ "}"
  end.

(** [str(v)]. *)
Definition str (v : pyval) : string :=
  match v with
  | PStr s => s
  | _ => repr v
  end.

End Py.

(* ===================================================================== *)
(** ** Exceptions *)
(* ===================================================================== *)

(** The exception classes the sources raise or catch, with their message. *)
Inductive exn : Type :=
  | ValueError (msg : string)
  | JSONDecodeError (msg : string)
  | TypeError (msg : string)
  | AttributeError (msg : string)
  | ImportError (msg : string)
  | KeyError (msg : string)
  | OtherError (msg : string).

(** A call returns a value or raises. *)
Inductive result (A : Type) : Type :=
  | Ok (a : A)
  | Raise (e : exn).

Arguments Ok {A} a.
Arguments Raise {A} e.

Definition bind {A B : Type} (r : result A) (k : A -> result B) : result B :=
  match r with
  | Ok a => k a
  | Raise e => Raise e
  end.

#[global] Instance result_ret : MRet result := fun _ a => Ok a.
#[global] Instance result_bind : MBind result := fun _ _ k r => bind r k.

(** [str(e)]. *)
Definition exn_message (e : exn) : string :=
  match e with
  | ValueError m | JSONDecodeError m | TypeError m | AttributeError m
  | ImportError m | KeyError m | OtherError m => m
  end.

(** [isinstance(e, ValueError)]: [JSONDecodeError] is a subclass. *)
Definition is_ValueError (e : exn) : bool :=
  match e with
  | ValueError _ | JSONDecodeError _ => true
  | _ => false
  end.

(** What a list or a dictionary used as a key raises, and what calling
    [get] on a value that is no dictionary raises. *)
Definition unhashable : exn := TypeError "unhashable type".
Definition no_get : exn := AttributeError "object has no attribute 'get'".

(* ===================================================================== *)
(** ** Regular expressions: the fragment of [re] that is needed *)
(* ===================================================================== *)

Module Re.
Import Py.

(** Matching is by backtracking, alternatives tried from the left, as in
    CPython's engine.  [REnd] is the dollar sign: the end of the string, or
    the position before a newline that ends the string. *)
Inductive rx : Type :=
  | REps
  | RChar (p : ascii -> bool)
  | RPlus (p : ascii -> bool)
  | RSeq (a b : rx)
  | RAlt (a b : rx)
  | RGroup (name : ascii) (r : rx)
  | REnd.

(** The text captured by each named group. *)
Definition captures : Type := list (ascii * string).

Fixpoint group (name : ascii) (caps : captures) : option string :=
  match caps with
  | [] => None
  | (n, t) :: caps' => if Ascii.eqb n name then Some t else group name caps'
  end.

(** The ways [p+] can match at the start of [s], longest first. *)
Fixpoint plus_rests (p : ascii -> bool) (s : string) : list string :=
  match s with
  | EmptyString => []
  | String c s' => if p c then plus_rests p s' ++ [s'] else []
  end.

Definition at_end (s : string) : bool :=
  String.eqb s "" || String.eqb s (String newline EmptyString).

(** All the ways [r] matches a prefix of [s], in the order the engine
    tries them: the captures so far and the text left. *)
Fixpoint matches (r : rx) (caps : captures) (s : string)
  : list (captures * string) :=
  match r with
  | REps => [(caps, s)]
  | RChar p =>
      match s with
      | String c s' => if p c then [(caps, s')] else []
      | EmptyString => []
      end
  | RPlus p => map (fun rest => (caps, rest)) (plus_rests p s)
  | RSeq a b =>
      flat_map (fun cs => matches b (fst cs) (snd cs)) (matches a caps s)
  | RAlt a b => matches a caps s ++ matches b caps s
  | RGroup name a =>
      map (fun cs => ((name, slice 0 (len s - len (snd cs)) s) :: fst cs, snd cs))
          (matches a caps s)
  | REnd => if at_end s then [(caps, s)] else []
  end.

(** [re.match(r, s)]: the first way found, with what it leaves. *)
Definition rmatch (r : rx) (s : string) : option (captures * string) :=
  match matches r [] s with
  | [] => None
  | m :: _ => Some m
  end.

Definition ROpt (r : rx) : rx := RAlt r REps.

Fixpoint RSeqs (rs : list rx) : rx :=
  match rs with
  | [] => REps
  | r :: rs' => RSeq r (RSeqs rs')
  end.

Fixpoint RAlts (rs : list rx) : rx :=
  match rs with
  | [] => RChar (fun _ => false)
  | [r] => r
  | r :: rs' => RAlt r (RAlts rs')
  end.

(** [r{n}]. *)
Fixpoint RRepeat (n : nat) (r : rx) : rx :=
  match n with
  | O => REps
  | S k => RSeq r (RRepeat k r)
  end.

(** [r{1,n}], greedy. *)
Fixpoint RUpTo (n : nat) (r : rx) : rx :=
  match n with
  | O => REps
  | S O => r
  | S k => RSeq r (ROpt (RUpTo k r))
  end.

Definition lit (c : ascii) : rx := RChar (Ascii.eqb c).
Definition lit_nocase (c : ascii) : rx :=
  RChar (fun x => Ascii.eqb (char_lower x) (char_lower c)).
Definition range (lo hi : ascii) : rx := RChar (in_range (ord lo) (ord hi)).

(** [\d] and [\s] on the code points below U+0100. *)
Definition digit : rx := range "0" "9".
Definition ascii_letter (c : ascii) : bool := in_range 65 90 c || in_range 97 122 c.

(** *** Reading a pattern

    The syntax read: a leading circumflex, the dollar sign, [\d], a
    backslash before a character that is no ASCII letter or digit, the
    class [[A-Za-z]], a plain character, each optionally followed by
    [{n}].  Any other use of a metacharacter is outside the fragment
    ([None]). *)

Definition is_meta (c : ascii) : bool :=
  existsb (Ascii.eqb c)
    ["."; "^"; "$"; "*"; "+"; "?"; "{"; "}"; "["; "]"; "|"; "("; ")"; backslash]%char.

Definition ascii_alnum (c : ascii) : bool := ascii_letter c || in_range 48 57 c.

Fixpoint digits_value (acc : nat) (s : string) : option (nat * string) :=
  match s with
  | String c s' =>
      if in_range 48 57 c
      then digits_value (10 * acc + N.to_nat (ord c - 48)) s'
      else if Ascii.eqb c "}" then Some (acc, s') else None
  | EmptyString => None
  end.

(** [{n}] at the start of [s], if any: the count and the text after it. *)
Definition quantifier (s : string) : option (option (nat * string)) :=
  match s with
  | String "{" (String c s') =>
      if in_range 48 57 c
      then match digits_value 0 (String c s') with
           | Some q => Some (Some q)
           | None => None
           end
      else None
  | String "{" EmptyString => None
  | _ => Some None
  end.

(** One item at the start of [s]: its expression and the text after it. *)
Definition atom (s : string) : option (rx * string) :=
  match s with
  | EmptyString => None
  | String c s' =>
      if Ascii.eqb c backslash then
        match s' with
        | String "d" s'' => Some (digit, s'')
        | String e s'' => if ascii_alnum e then None else Some (lit e, s'')
        | EmptyString => None
        end
      else if Ascii.eqb c "[" then
        if startswith "[A-Za-z]" s
        then Some (RChar ascii_letter, slice 8 (len s) s)
        else None
      else if Ascii.eqb c "$" then Some (REnd, s')
      else if is_meta c then None
      else Some (lit c, s')
  end.

Fixpoint compile_from (fuel : nat) (s : string) : option rx :=
  match fuel with
  | O => None
  | S f =>
      match s with
      | EmptyString => Some REps
      | _ =>
          match atom s with
          | None => None
          | Some (a, s1) =>
              match quantifier s1 with
              | None => None
              | Some None => option_map (RSeq a) (compile_from f s1)
              | Some (Some (n, s2)) =>
                  option_map (RSeq (RRepeat n a)) (compile_from f s2)
              end
          end
      end
  end.

(** [re.compile(pattern)] on the fragment. *)
Definition compile (pattern : string) : option rx :=
  match pattern with
  | String "^" body => compile_from (S (len body)) body
  | _ => compile_from (S (len pattern)) pattern
  end.

(** [re.match(pattern, s) is not None]; [None] when the pattern is outside
    the fragment. *)
Definition accepts (pattern s : string) : option bool :=
  match compile pattern with
  | None => None
  | Some r => Some (match rmatch r s with Some _ => true | None => false end)
  end.

End Re.

(* ===================================================================== *)
(** ** The [datetime] class *)
(* ===================================================================== *)

Module Datetime.
Import Py.

Local Open Scope Z_scope.

(** [tzinfo] is the UTC offset in microseconds of an aware value, [None]
    for a naive one. *)
Record datetime : Type := mk_datetime {
  year : Z; month : Z; day : Z;
  hour : Z; minute : Z; second : Z; microsecond : Z;
  tzinfo : option Z
}.

Definition is_leap (y : Z) : bool :=
  ((y mod 4 =? 0) && negb (y mod 100 =? 0)) || (y mod 400 =? 0).

Definition days_in_month (y m : Z) : Z :=
  if m =? 2 then (if is_leap y then 29 else 28)
  else if (m =? 4) || (m =? 6) || (m =? 9) || (m =? 11) then 30
  else 31.

Definition days_before_year (y : Z) : Z :=
  let p := y - 1 in p * 365 + p / 4 - p / 100 + p / 400.

Fixpoint days_before_month_from (y : Z) (n : nat) : Z :=
  match n with
  | O => 0
  | S k => days_before_month_from y k + days_in_month y (Z.of_nat k + 1)
  end.

Definition days_before_month (y m : Z) : Z :=
  days_before_month_from y (Z.to_nat (m - 1)).

(** [date(y, m, d).toordinal()]: 1 for the first of January of year 1. *)
Definition ymd2ord (y m d : Z) : Z :=
  days_before_year y + days_before_month y m + d.

Definition day_us : Z := 86400 * 1000000.

(** What the constructor checks; a failure is a [ValueError]. *)
Definition valid (dt : datetime) : bool :=
  (1 <=? year dt) && (year dt <=? 9999)
  && (1 <=? month dt) && (month dt <=? 12)
  && (1 <=? day dt) && (day dt <=? days_in_month (year dt) (month dt))
  && (0 <=? hour dt) && (hour dt <=? 23)
  && (0 <=? minute dt) && (minute dt <=? 59)
  && (0 <=? second dt) && (second dt <=? 59)
  && (0 <=? microsecond dt) && (microsecond dt <=? 999999)
  && match tzinfo dt with
     | None => true
     | Some off => (- day_us <? off) && (off <? day_us)
     end.

Definition construct (dt : datetime) : result datetime :=
  if valid dt then Ok dt else Raise (ValueError "value out of range").

(** Microseconds from the start of year 1 to the wall-clock reading. *)
Definition wall_us (dt : datetime) : Z :=
  (((ymd2ord (year dt) (month dt) (day dt) * 24 + hour dt) * 60 + minute dt) * 60
   + second dt) * 1000000 + microsecond dt.

(** The instants two values are compared by: both naive, or both aware
    and then moved to UTC.  Mixing the two kinds is a [TypeError]. *)
Definition comparable (a b : datetime) : result (Z * Z) :=
  match tzinfo a, tzinfo b with
  | None, None => Ok (wall_us a, wall_us b)
  | Some oa, Some ob => Ok (wall_us a - oa, wall_us b - ob)
  | _, _ => Raise (TypeError "can't compare offset-naive and offset-aware datetimes")
  end.

(** [a > b]. *)
Definition gt (a b : datetime) : result bool :=
  p ← comparable a b; mret (snd p <? fst p).

(** [a < b]. *)
Definition lt (a b : datetime) : result bool :=
  p ← comparable a b; mret (fst p <? snd p).

(** [(a - b)] as a count of microseconds. *)
Definition sub (a b : datetime) : result Z :=
  match tzinfo a, tzinfo b with
  | None, None => Ok (wall_us a - wall_us b)
  | Some oa, Some ob => Ok ((wall_us a - oa) - (wall_us b - ob))
  | _, _ => Raise (TypeError "can't subtract offset-naive and offset-aware datetimes")
  end.

(** [delta.days]: whole days, rounded towards minus infinity. *)
Definition timedelta_days (delta_us : Z) : Z := delta_us / day_us.

(** Decimal digits of [z], padded with zeros to [width]. *)
Definition zpad (width : nat) (z : Z) : string :=
  let s := str_of_Z z in
  nat_rect (fun _ => string) s (fun _ acc => "0" +:+ acc) (width - len s)%nat.

(** The UTC offset as [+HH:MM], with [:SS] and [.ffffff] when not zero. *)
Definition format_offset (off : Z) : string :=
  let sign := if off <? 0 then "-" else "+" in
  let a := Z.abs off in
  let us := a mod 1000000 in
  let s := (a / 1000000) mod 60 in
  let m := (a / 60000000) mod 60 in
  let h := a / 3600000000 in
  sign +:+ zpad 2 h +:+ ":" +:+ zpad 2 m
  +:+ (if (s =? 0) && (us =? 0) then "" else ":" +:+ zpad 2 s)
  +:+ (if us =? 0 then "" else "." +:+ zpad 6 us).

(** [dt.isoformat()]. *)
Definition isoformat (dt : datetime) : string :=
  zpad 4 (year dt) +:+ "-" +:+ zpad 2 (month dt) +:+ "-" +:+ zpad 2 (day dt)
  +:+ "T" +:+ zpad 2 (hour dt) +:+ ":" +:+ zpad 2 (minute dt)
  +:+ ":" +:+ zpad 2 (second dt)
  +:+ (if microsecond dt =? 0 then "" else "." +:+ zpad 6 (microsecond dt))
  +:+ match tzinfo dt with
      | None => ""
      | Some off => format_offset off
      end.

(** [int(s)] for the digit strings the patterns below capture; blanks
    around the digits are dropped as [int] does. *)
Fixpoint digits_to_Z (acc : Z) (s : string) : Z :=
  match s with
  | EmptyString => acc
  | String c s' => digits_to_Z (10 * acc + Z.of_N (ord c - 48)) s'
  end.

Definition int (s : string) : Z := digits_to_Z 0 (strip s).

(** The digits of a fraction, padded on the right to six. *)
Definition fraction_us (s : string) : Z :=
  int (s +:+ nat_rect (fun _ => string) "" (fun _ acc => "0" +:+ acc) (6 - len s)%nat).

End Datetime.

(* ===================================================================== *)
(** ** utils.py *)
(* ===================================================================== *)

Module Utils.
Import Py Re Datetime.

(** *** [stream_jsonl]

    The file is the list of its lines.  [json.loads] belongs to the
    standard library and is a variable of the model: it returns the decoded
    value or raises.  The generator is run to its end: the values yielded,
    the warnings logged, and the exception that stopped it, if one did. *)

Record stream : Type := mk_stream {
  yielded : list pyval;
  warnings : list string;
  stopped : option exn
}.

Section StreamJsonl.

Variable json_loads : string -> result pyval.

Fixpoint stream_from (line_num : nat) (lines : list string) : stream :=
  match lines with
  | [] => mk_stream [] [] None
  | raw :: rest =>
      let line := strip raw in
      if String.eqb line "" then stream_from (S line_num) rest
      else
        match json_loads line with
        | Ok v =>
            let s := stream_from (S line_num) rest in
            mk_stream (v :: yielded s) (warnings s) (stopped s)
        | Raise (JSONDecodeError msg) =>
            let s := stream_from (S line_num) rest in
            mk_stream (yielded s)
              (("Error parsing line " +:+ str_of_nat line_num +:+ ": " +:+ msg)
                 :: warnings s)
              (stopped s)
        | Raise e => mk_stream [] [] (Some e)
        end
  end.

(** [enumerate(f, 1)]: lines are numbered from 1. *)
Definition stream_jsonl (lines : list string) : stream := stream_from 1 lines.

End StreamJsonl.

(** *** [datetime.strptime], for the directives of [parse_date]'s formats

    The library turns the format into a regular expression, matched
    ignoring case at the start of the data; text left over is an error. *)

Definition d2 : rx := RSeq digit digit.

(** The expression of each directive; AM and PM are those of the C
    locale. *)
Definition directive (c : ascii) : option rx :=
  let g := RGroup c in
  if Ascii.eqb c "Y" then Some (g (RSeq d2 d2))
  else if Ascii.eqb c "m" || Ascii.eqb c "I" then
    Some (g (RAlts [RSeq (lit "1") (range "0" "2");
                    RSeq (lit "0") (range "1" "9");
                    range "1" "9"]))
  else if Ascii.eqb c "d" then
    Some (g (RAlts [RSeq (lit "3") (range "0" "1");
                    RSeq (range "1" "2") digit;
                    RSeq (lit "0") (range "1" "9");
                    range "1" "9";
                    RSeq (lit " ") (range "1" "9")]))
  else if Ascii.eqb c "H" then
    Some (g (RAlts [RSeq (lit "2") (range "0" "3");
                    RSeq (range "0" "1") digit;
                    digit]))
  else if Ascii.eqb c "M" then
    Some (g (RAlts [RSeq (range "0" "5") digit; digit]))
  else if Ascii.eqb c "S" then
    Some (g (RAlts [RSeq (lit "6") (range "0" "1");
                    RSeq (range "0" "5") digit;
                    digit]))
  else if Ascii.eqb c "f" then Some (g (RUpTo 6 digit))
  else if Ascii.eqb c "p" then
    Some (g (RAlt (RSeq (lit_nocase "a") (lit_nocase "m"))
                  (RSeq (lit_nocase "p") (lit_nocase "m"))))
  else if Ascii.eqb c "z" then
    Some (g (RAlt
      (RSeqs [RAlt (lit "+") (lit "-"); digit; digit; ROpt (lit ":");
              range "0" "5"; digit;
              ROpt (RSeqs [ROpt (lit ":"); range "0" "5"; digit;
                           ROpt (RSeq (lit ".") (RUpTo 6 digit))])])
      (lit "Z")))
  else None.

(** [TimeRE.pattern]: a run of blanks in the format stands for one or more
    blanks, a percent sign starts a directive, any other character stands
    for itself. *)
Fixpoint pattern_from (after_blank : bool) (format : string) : option rx :=
  match format with
  | EmptyString => Some REps
  | String "%" (String c rest) =>
      match directive c, pattern_from false rest with
      | Some r, Some k => Some (RSeq r k)
      | _, _ => None
      end
  | String "%" EmptyString => None
  | String c rest =>
      if char_isspace c then
        if after_blank then pattern_from true rest
        else option_map (RSeq (RPlus char_isspace)) (pattern_from true rest)
      else option_map (RSeq (lit_nocase c)) (pattern_from false rest)
  end.

Definition pattern (format : string) : option rx := pattern_from false format.

(** [int(s)], a [ValueError] unless [s] is decimal digits between blanks. *)
Definition checked_int (s : string) : result Z :=
  let t := strip s in
  if negb (String.eqb t "") && str_all (in_range 48 57) t
  then Ok (int t) else Raise (ValueError "invalid literal for int()").

(** The UTC offset in microseconds that [%z] captured. *)
Definition parse_offset (z0 : string) : result Z :=
  if String.eqb z0 "Z" then Ok 0%Z
  else
    let colon := String.eqb (char_at 3 z0) ":" in
    let z1 := if colon then slice 0 3 z0 +:+ slice 4 (len z0) z0 else z0 in
    let long := colon && (5 <? len z1)%nat in
    if long && negb (String.eqb (char_at 5 z1) ":")
    then Raise (ValueError "Inconsistent use of : in offset")
    else
      let z := if long then slice 0 5 z1 +:+ slice 6 (len z1) z1 else z1 in
      hours ← checked_int (slice 1 2 z);
      minutes ← checked_int (slice 3 2 z);
      seconds ← (if String.eqb (slice 5 2 z) "" then Ok 0%Z
                 else checked_int (slice 5 2 z));
      let rem := slice 8 (len z) z in
      fraction ← checked_int
        (rem +:+ nat_rect (fun _ => string) "" (fun _ acc => "0" +:+ acc)
                   (6 - len rem)%nat);
      let gmtoff := (hours * 3600 + minutes * 60 + seconds)%Z in
      let total := (gmtoff * 1000000 + fraction)%Z in
      Ok (if startswith "-" z then (- total)%Z else total).

Definition group_int (name : ascii) (default : Z) (caps : captures) : Z :=
  match group name caps with
  | Some t => int t
  | None => default
  end.

(** The hour: [%H] as it stands, [%I] corrected by the AM or PM mark. *)
Definition hour_of (caps : captures) : Z :=
  match group "I" caps with
  | Some t =>
      let h := int t in
      let ampm := match group "p" caps with Some p => lower p | None => "" end in
      if String.eqb ampm "" || String.eqb ampm "am"
      then (if (h =? 12)%Z then 0%Z else h)
      else if String.eqb ampm "pm"
      then (if (h =? 12)%Z then h else (h + 12)%Z)
      else h
  | None => group_int "H" 0 caps
  end.

Definition fields_to_datetime (caps : captures) : result datetime :=
  tz ← match group "z" caps with
       | Some z => off ← parse_offset z; mret (Some off)
       | None => Ok None
       end;
  construct
    (mk_datetime (group_int "Y" 1900 caps) (group_int "m" 1 caps)
       (group_int "d" 1 caps) (hour_of caps) (group_int "M" 0 caps)
       (group_int "S" 0 caps)
       (match group "f" caps with Some f => fraction_us f | None => 0%Z end)
       tz).

Definition strptime (data_string format : string) : result datetime :=
  match pattern format with
  | None => Raise (ValueError "bad directive in format")
  | Some r =>
      match rmatch r data_string with
      | None => Raise (ValueError "time data does not match format")
      | Some (caps, rest) =>
          if String.eqb rest "" then fields_to_datetime caps
          else Raise (ValueError "unconverted data remains")
      end
  end.

(** *** [datetime.fromisoformat]

    Read here on the spellings that [isoformat] writes, the only ones that
    reach it; later CPython versions also read other ISO 8601 spellings. *)
Definition iso_rx : rx :=
  let offset :=
    RSeqs [RAlt (lit "+") (lit "-"); d2; lit ":"; d2;
           ROpt (RSeqs [lit ":"; d2; ROpt (RSeq (lit ".") (RRepeat 6 digit))])] in
  RSeqs [RGroup "Y" (RSeq d2 d2); lit "-"; RGroup "m" d2; lit "-"; RGroup "d" d2;
         ROpt (RSeqs [lit "T"; RGroup "H" d2; lit ":"; RGroup "M" d2; lit ":";
                      RGroup "S" d2;
                      ROpt (RSeq (lit ".") (RGroup "f" (RRepeat 6 digit)));
                      ROpt (RGroup "z" offset)])].

Definition fromisoformat (date_string : string) : result datetime :=
  let invalid :=
    Raise (ValueError ("Invalid isoformat string: " +:+ repr_str date_string)) in
  match rmatch iso_rx date_string with
  | Some (caps, EmptyString) =>
      match fields_to_datetime caps with
      | Ok dt => Ok dt
      | Raise _ => invalid
      end
  | _ => invalid
  end.

(** *** [parse_date]

    [dateutil] is a third-party package and a variable of the model:
    [parser.parse] returns a [datetime] or raises, an [ImportError] when the
    package is not installed.  The warning logged on failure is left out. *)

Definition formats : list string :=
  [ "%Y-%m-%dT%H:%M:%S";
    "%Y-%m-%dT%H:%M:%S%z";
    "%Y-%m-%dT%H:%M:%SZ";
    "%Y-%m-%dT%H:%M:%S.%f";
    "%Y-%m-%dT%H:%M:%S.%f%z";
    "%Y-%m-%d";
    "%Y/%m/%d";
    "%m/%d/%Y";
    "%m/%d/%Y %I:%M:%S %p";
    "%m/%d/%Y %I:%M:%S %p";
    "%m/%d/%Y %H:%M:%S";
    "%m/%d/%Y %I:%M %p";
    "%m/%d/%Y %H:%M" ].

Definition is_ImportError (e : exn) : bool :=
  match e with ImportError _ => true | _ => false end.

Section ParseDate.

Variable dateutil_parse : string -> result datetime.

(** The loop over the formats: the first that parses wins, a [ValueError]
    moves on to the next, any other exception leaves the function. *)
Fixpoint try_formats (date_str : string) (fmts : list string)
  : result (option string) :=
  match fmts with
  | [] => Ok None
  | fmt :: rest =>
      match strptime date_str fmt with
      | Ok dt => Ok (Some (isoformat dt))
      | Raise e => if is_ValueError e then try_formats date_str rest else Raise e
      end
  end.

Definition parse_date (date_str : string) : result (option string) :=
  if String.eqb date_str "" then Ok None
  else
    r ← try_formats date_str formats;
    match r with
    | Some iso => Ok (Some iso)
    | None =>
        match dateutil_parse date_str with
        | Ok dt => Ok (Some (isoformat dt))
        | Raise e =>
            if is_ImportError e || is_ValueError e then Ok None else Raise e
        end
    end.

End ParseDate.

(** *** [normalize_name] and [validate_record] *)

(** [name] is a string at every call. *)
Definition normalize_name (name : string) : string :=
  if String.eqb name "" then "" else upper (strip name).

Definition validate_record (v : pyval) : bool :=
  match v with
  | PDict d => has_key "county" d
  | _ => false
  end.

End Utils.

(* ===================================================================== *)
(** ** Floats, sorting, [min] and [max] *)
(* ===================================================================== *)

Module Num.

(** [float(n)] for a count; exact below 2^53. *)
Definition float_of_nat (n : nat) : float :=
  PrimFloat.of_uint63 (Uint63.of_Z (Z.of_nat n)).

(** [a / b] on integers: the quotient rounded once to binary64. *)
Definition truediv (a b : nat) : float :=
  (float_of_nat a / float_of_nat b)%float.

(** The integer nearest to [num / den], ties to the even one. *)
Definition round_half_even (num den : Z) : Z :=
  let q := (num / den)%Z in
  let r := (num mod den)%Z in
  if (2 * r <? den)%Z then q
  else if (den <? 2 * r)%Z then (q + 1)%Z
  else if Z.even q then q else (q + 1)%Z.

(** [round(x, 2)]: the exact value of [x] is rounded to hundredths, ties
    to even, and the result is the binary64 number nearest to that decimal. *)
Definition round2 (x : float) : float :=
  match Prim2SF x with
  | S754_finite s m e =>
      let h := if (0 <=? e)%Z then (Z.pos m * 2 ^ e * 100)%Z
               else round_half_even (Z.pos m * 100) (2 ^ (- e)) in
      let r := (PrimFloat.of_uint63 (Uint63.of_Z h) / 100)%float in
      if s then (- r)%float else r
  | _ => x
  end.

(** [sum(xs)] on floats, added from the left. *)
Definition fsum (xs : list float) : float :=
  fold_left PrimFloat.add xs 0%float.

(** The exact value of a finite float, as a fraction. *)
Definition exact (x : float) : Z * Z :=
  match Prim2SF x with
  | S754_finite s m e =>
      let n := if s then Z.neg m else Z.pos m in
      if (0 <=? e)%Z then (n * 2 ^ e, 1)%Z else (n, 2 ^ (- e))%Z
  | _ => (0, 1)%Z
  end.

(** Sum of fractions over a common power-of-two denominator: the
    numerator and the denominator of the exact sum of the floats. *)
Definition exact_sum (xs : list float) : Z * Z :=
  fold_left
    (fun acc x =>
       let '(n, d) := acc in
       let '(n', d') := exact x in
       (n * d' + n' * d, d * d')%Z)
    xs (0, 1)%Z.

(** [xs.sort(key=key, reverse=True)]: descending, and elements with equal
    keys keep their order. *)
Fixpoint insert_desc {A : Type} (key : A -> nat) (x : A) (l : list A) : list A :=
  match l with
  | [] => [x]
  | y :: l' =>
      if (key y <=? key x)%nat then x :: y :: l'
      else y :: insert_desc key x l'
  end.

Definition sort_desc {A : Type} (key : A -> nat) (l : list A) : list A :=
  fold_right (insert_desc key) [] l.

End Num.

(* ===================================================================== *)
(** ** pattern_analyzer.py *)
(* ===================================================================== *)

Module PatternAnalyzer.
Import Py Datetime Utils.

(** *** [analyze_instrument_patterns] *)

(** One entry of the returned list. *)
Record pattern_info : Type := mk_pattern_info {
  pattern : string;
  regex : string;
  example : string;
  count : nat;
  percentage : float
}.

(** The first loop: the truthy string values of [instrument_number]. *)
Definition instrument_numbers (records : list record) : list string :=
  flat_map
    (fun r =>
       match get "instrument_number" r with
       | PStr s => if truthy (PStr s) then [s] else []
       | _ => []
       end)
    records.

Definition escaped_chars : list ascii :=
  ["-"; "."; "/"; "_"; "("; ")"; "{"; "}"; "["; "]"; "*"; "+"; "?"; "^"; "$";
   "|"; backslash]%char.

(** What one character appends to [pattern_parts]. *)
Definition pattern_part (c : ascii) : string :=
  if char_isdigit c then "\d"
  else if char_isalpha c then "[A-Za-z]"
  else if existsb (Ascii.eqb c) escaped_chars
  then String backslash (String c EmptyString)
  else String c EmptyString.

(** [''.join(pattern_parts)]: the key of the group of [instr_num]. *)
Definition shape (instr_num : string) : string :=
  str_concat_map pattern_part instr_num.

(** [pattern_groups[pattern].append(instr_num)] on a dictionary that keeps
    its keys in order of first insertion. *)
Fixpoint group_append (key v : string) (groups : list (string * list string))
  : list (string * list string) :=
  match groups with
  | [] => [(key, [v])]
  | (k, vs) :: rest =>
      if String.eqb k key then (k, vs ++ [v]) :: rest
      else (k, vs) :: group_append key v rest
  end.

Definition is_bp (instr_num : string) : bool := startswith "bp" instr_num.

(** The second loop. *)
Definition pattern_groups (numbers : list string) : list (string * list string) :=
  fold_left
    (fun groups instr_num =>
       if is_bp instr_num then groups
       else group_append (shape instr_num) instr_num groups)
    numbers [].

(** The inner [while] loops: the number of times [tok] is read when the
    text is cut into slices of [width] characters, [j] advancing by [width].
    [skip] counts the characters between the position reached here and
    [j]. *)
Fixpoint count_run (skip : nat) (tok : string) (width : nat) (s : string) : nat :=
  match s with
  | EmptyString => 0
  | String _ s' =>
      match skip with
      | S k => count_run k tok width s'
      | O =>
          if String.eqb (slice 0 width s) tok
          then S (count_run (width - 1) tok width s')
          else 0
      end
  end.

(** The outer [while] loop over [pattern], from position [i] on: [s] is
    [pattern[i:]], and after a run the characters up to the new [i] are
    passed over. *)
Fixpoint regex_parts (skip : nat) (s : string) : list string :=
  match s with
  | EmptyString => []
  | String c s' =>
      match skip with
      | S k => regex_parts k s'
      | O =>
          if String.eqb (slice 0 2 s) "\d" then
            let digit_count := count_run 0 "\d" 2 s in
            ("\d{" +:+ str_of_nat digit_count +:+ "}")
              :: regex_parts (2 * digit_count - 1) s'
          else if String.eqb (slice 0 9 s) "[A-Za-z]" then
            let letter_count := count_run 0 "[A-Za-z]" 9 s in
            ("[A-Za-z]{" +:+ str_of_nat letter_count +:+ "}")
              :: regex_parts (9 * letter_count - 1) s'
          else String c EmptyString :: regex_parts 0 s'
      end
  end.

Definition regex_pattern (pattern : string) : string :=
  "^" +:+ join "" (regex_parts 0 pattern) +:+ "$".

Definition readable_pattern (pattern : string) : string :=
  replace "[A-Za-z]" "L" (replace "\d" "D" pattern).

(** [total_count]:
    [len([instr for instr in instrument_numbers if not instr.startswith('bp')])] *)
Definition qualifying_total (numbers : list string) : nat :=
  length (List.filter (fun s => negb (is_bp s)) numbers).

(** The body of the third loop, for one group.  Where the total is zero
    the source takes the integer 0, a case that no group reaches. *)
Definition group_info (total : nat) (g : string * list string) : pattern_info :=
  let '(pat, examples) := g in
  let cnt := length examples in
  let pct := if (0 <? total)%nat
             then (Num.truediv cnt total * 100)%float else 0%float in
  mk_pattern_info (readable_pattern pat) (regex_pattern pat)
    (match examples with e :: _ => e | [] => "" end)
    cnt (Num.round2 pct).

Definition analyze_instrument_patterns (records : list record) : list pattern_info :=
  let numbers := instrument_numbers records in
  match numbers with
  | [] => []
  | _ =>
      Num.sort_desc count
        (map (group_info (qualifying_total numbers)) (pattern_groups numbers))
  end.

(** *** [analyze_book_page_patterns] *)

Record field_patterns : Type := mk_field_patterns {
  field : string;
  is_numeric : bool;
  has_letters : bool;
  min_value : option string;
  max_value : option string;
  unique_count : nat;
  total_count : nat
}.

(** [(len(a), a) < (len(b), b)]. *)
Definition key_ltb (a b : string) : bool :=
  (len a <? len b)%nat || ((len a =? len b)%nat && str_ltb a b).

(** [min(values, key=lambda x: (len(x), x))]: the first of the smallest. *)
Definition min_by_key (values : list string) : option string :=
  match values with
  | [] => None
  | v :: rest =>
      Some (fold_left (fun best x => if key_ltb x best then x else best) rest v)
  end.

(** [max(values, key=lambda x: (len(x), x))]: the first of the largest. *)
Definition max_by_key (values : list string) : option string :=
  match values with
  | [] => None
  | v :: rest =>
      Some (fold_left (fun best x => if key_ltb best x then x else best) rest v)
  end.

(** The values of one field: [str(v)] for every truthy value. *)
Definition field_values (name : string) (records : list record) : list string :=
  flat_map
    (fun r => let v := get name r in if truthy v then [str v] else [])
    records.

Definition characterize (name : string) (values : list string) : field_patterns :=
  mk_field_patterns name
    (forallb isdigit values)
    (existsb (fun v => negb (isdigit v)) values)
    (min_by_key values)
    (max_by_key values)
    (size (list_to_set values : gset string))
    (length values).

Definition analyze_book_page_patterns (records : list record) : list field_patterns :=
  let books := field_values "book" records in
  let pages := field_values "page" records in
  (match books with [] => [] | _ => [characterize "book" books] end)
  ++ (match pages with [] => [] | _ => [characterize "page" pages] end).

(** *** [analyze_date_ranges] *)

(** An entry of [anomalies]; the constructor is its ["type"]. *)
Inductive anomaly : Type :=
  | future_date (date : string) (days_ahead : Z)
  | very_old_date (date : string) (year : Z)
  | parse_error (date : string) (error : string).

Record date_range : Type := mk_date_range {
  earliest : option string;
  latest : option string;
  anomalies : list anomaly
}.

Definition is_AttributeError (e : exn) : bool :=
  match e with AttributeError _ => true | _ => false end.

Section DateRanges.

Variable dateutil_parse : string -> result datetime.

(** [today = datetime.now()]: a naive value. *)
Variable today : datetime.

(** The statements of the [try] block, on [dates] and [anomalies]. *)
Definition try_block (parsed_date : string)
    (st : list datetime * list anomaly) : result (list datetime * list anomaly) :=
  let '(dates, anoms) := st in
  dt ← (if contains "T" parsed_date
        then fromisoformat (replace "Z" "+00:00" parsed_date)
        else fromisoformat parsed_date);
  let dates := dates ++ [dt] in
  later ← gt dt today;
  anoms ← (if later : bool then
             delta ← sub dt today;
             let days_ahead := timedelta_days delta in
             mret (if (1 <? days_ahead)%Z
                   then anoms ++ [future_date parsed_date days_ahead]
                   else anoms)
           else mret anoms);
  mret (dates,
        if (Datetime.year dt <? 1800)%Z
        then anoms ++ [very_old_date parsed_date (Datetime.year dt)]
        else anoms).

(** The body of the loop for one record.  Only the first statement of the
    [try] block can raise an exception of a caught class, so the handler
    finds [dates] and [anomalies] as they were. *)
Definition date_step (st : list datetime * list anomaly) (r : record)
  : result (list datetime * list anomaly) :=
  let date_str := get "date" r in
  if negb (truthy date_str) then Ok st
  else
    parsed ← match date_str with
              | PStr s => parse_date dateutil_parse s
              | _ => Raise (TypeError "strptime() argument 1 must be str")
              end;
    match parsed with
    | None => Ok st
    | Some parsed_date =>
        match try_block parsed_date st with
        | Ok st' => Ok st'
        | Raise e =>
            if is_ValueError e || is_AttributeError e
            then Ok (fst st, snd st ++ [parse_error parsed_date (exn_message e)])
            else Raise e
        end
    end.

Fixpoint date_loop (st : list datetime * list anomaly) (records : list record)
  : result (list datetime * list anomaly) :=
  match records with
  | [] => Ok st
  | r :: rest => st' ← date_step st r; date_loop st' rest
  end.

(** [min(dates)] and [max(dates)]: the first extreme value; comparing a
    naive with an aware value raises. *)
Fixpoint extreme (better : datetime -> datetime -> result bool)
    (best : datetime) (rest : list datetime) : result datetime :=
  match rest with
  | [] => Ok best
  | x :: rest' =>
      b ← better x best;
      extreme better (if b : bool then x else best) rest'
  end.

Definition analyze_date_ranges (records : list record) : result date_range :=
  st ← date_loop ([], []) records;
  let '(dates, anoms) := st in
  match dates with
  | [] => Ok (mk_date_range None None anoms)
  | d :: rest =>
      lo ← extreme lt d rest;
      hi ← extreme gt d rest;
      Ok (mk_date_range (Some (isoformat lo)) (Some (isoformat hi)) anoms)
  end.

End DateRanges.

(** *** [analyze_doc_type_distribution] *)

Record doc_type_summary : Type := mk_doc_type_summary {
  doc_type_distribution : pydict nat;
  unique_doc_types : nat;
  unique_doc_categories : nat;
  total_records : nat;
  type_category_relationship : pydict (pydict nat)
}.

(** The state of the first loop: [doc_types], [doc_categories] and
    [doc_type_to_category]. *)
Definition doc_state : Type := list pyval * list pyval * pydict pyval.

Definition doc_step (st : doc_state) (r : record) : result doc_state :=
  let '(doc_types, doc_categories, doc_type_to_category) := st in
  let doc_type := get "doc_type" r in
  let doc_category := get "doc_category" r in
  if truthy doc_type then
    let doc_types := doc_types ++ [doc_type] in
    if truthy doc_category then
      match to_key doc_type with
      | Some _ =>
          Ok (doc_types, doc_categories ++ [doc_category],
              dict_update doc_type (fun _ => doc_category) doc_type_to_category)
      | None => Raise unhashable
      end
    else Ok (doc_types, doc_categories, doc_type_to_category)
  else Ok st.

Fixpoint doc_loop (st : doc_state) (records : list record) : result doc_state :=
  match records with
  | [] => Ok st
  | r :: rest => st' ← doc_step st r; doc_loop st' rest
  end.

(** [Counter(values)]. *)
Fixpoint Counter (c : pydict nat) (values : list pyval) : result (pydict nat) :=
  match values with
  | [] => Ok c
  | v :: rest =>
      match to_key v with
      | Some _ =>
          Counter
            (dict_update v (fun n => match n with Some n => S n | None => 1 end) c)
            rest
      | None => Raise unhashable
      end
  end.

(** [counter.most_common(n)]: the [n] largest counts, equal counts in the
    order of the counter. *)
Definition most_common (n : nat) (c : pydict nat) : pydict nat :=
  firstn n (Num.sort_desc snd c).

(** The body of the last loop. *)
Definition relate (doc_type_to_category : pydict pyval)
    (rel : pydict (pydict nat)) (item : pyval * nat)
  : result (pydict (pydict nat)) :=
  let '(doc_type, count) := item in
  match dict_get doc_type doc_type_to_category with
  | Some category =>
      if truthy category then
        match to_key category with
        | Some _ =>
            Ok (dict_update category
                  (fun types =>
                     dict_update doc_type (fun _ => count)
                       (match types with Some types => types | None => [] end))
                  rel)
        | None => Raise unhashable
        end
      else Ok rel
  | None => Ok rel
  end.

Fixpoint relate_loop (doc_type_to_category : pydict pyval)
    (rel : pydict (pydict nat)) (items : pydict nat)
  : result (pydict (pydict nat)) :=
  match items with
  | [] => Ok rel
  | item :: rest =>
      rel' ← relate doc_type_to_category rel item;
      relate_loop doc_type_to_category rel' rest
  end.

Definition analyze_doc_type_distribution (records : list record)
  : result doc_type_summary :=
  st ← doc_loop ([], [], []) records;
  let '(doc_types, doc_categories, doc_type_to_category) := st in
  doc_type_counter ← Counter [] doc_types;
  doc_category_counter ← Counter [] doc_categories;
  let top_10_doc_types := most_common 10 doc_type_counter in
  rel ← relate_loop doc_type_to_category [] doc_type_counter;
  Ok (mk_doc_type_summary top_10_doc_types (length doc_type_counter)
        (length doc_category_counter) (length records) rel).

(** *** [analyze_county_patterns]

    The input file is the stream of values that [stream_jsonl] yields;
    the value returned is the dictionary written to the output file. *)

Record county_result : Type := mk_county_result {
  record_count : nat;
  instrument_patterns : list pattern_info;
  book_patterns : list field_patterns;
  page_patterns : list field_patterns;
  county_date_range : date_range;
  county_doc_type_distribution : pydict nat;
  county_unique_doc_types : nat
}.

(** The first loop: the records are gathered county by county. *)
Fixpoint county_loop (county_records : pydict (list record)) (values : list pyval)
  : result (pydict (list record)) :=
  match values with
  | [] => Ok county_records
  | PDict record :: rest =>
      let county := get "county" record in
      if truthy county then
        match to_key county with
        | Some _ =>
            county_loop
              (dict_update county
                 (fun records =>
                    match records with
                    | Some records => records ++ [record]
                    | None => [record]
                    end)
                 county_records)
              rest
        | None => Raise unhashable
        end
      else county_loop county_records rest
  | _ :: _ => Raise no_get
  end.

Section CountyPatterns.

Variable dateutil_parse : string -> result datetime.

(** [datetime.now()] at the analysis of the dates of the county with the
    given number, counted from 0. *)
Variable now : nat -> datetime.

Definition analyze_county (number : nat) (records : list record)
  : result county_result :=
  let instrument_patterns := analyze_instrument_patterns records in
  let book_page_patterns := analyze_book_page_patterns records in
  date_range ← analyze_date_ranges dateutil_parse (now number) records;
  doc_type_dist ← analyze_doc_type_distribution records;
  Ok (mk_county_result (length records) instrument_patterns
        (List.filter (fun bp => String.eqb (field bp) "book") book_page_patterns)
        (List.filter (fun bp => String.eqb (field bp) "page") book_page_patterns)
        date_range
        (doc_type_distribution doc_type_dist)
        (unique_doc_types doc_type_dist)).

Fixpoint county_results (number : nat) (county_records : pydict (list record))
  : result (pydict county_result) :=
  match county_records with
  | [] => Ok []
  | (county, records) :: rest =>
      r ← analyze_county number records;
      results ← county_results (S number) rest;
      Ok ((county, r) :: results)
  end.

Definition analyze_county_patterns (input : stream) : result (pydict county_result) :=
  county_records ← county_loop [] (yielded input);
  match stopped input with
  | Some e => Raise e
  | None => county_results 0 county_records
  end.

End CountyPatterns.

End PatternAnalyzer.

(* ===================================================================== *)
(** ** llm_classifier.py *)
(* ===================================================================== *)

Module LlmClassifier.
Import Py Utils.

Definition STANDARD_CATEGORIES : list string :=
  [ "SALE_DEED"; "MORTGAGE"; "DEED_OF_TRUST"; "RELEASE"; "LIEN"; "PLAT";
    "EASEMENT"; "LEASE"; "MISC" ].

(** [s in [...]] on a list of strings. *)
Definition str_in (s : string) (l : list string) : bool :=
  existsb (String.eqb s) l.

(** [any(keyword in s for keyword in keywords)]. *)
Definition any_in (keywords : list string) (s : string) : bool :=
  existsb (fun keyword => contains keyword s) keywords.

(** The tests of the cascade, in the order of the [if]/[elif] chain. *)
Definition trust_codes : list string :=
  ["dt"; "d/t"; "d-t"; "d-tr"; "d-trust"; "sub tr"; "subst tr";
   "substitution trustee"].
Definition is_trust_code (dt_lower : string) : bool := str_in dt_lower trust_codes.
Definition is_trust_deed (dt_lower : string) : bool :=
  contains "trust" dt_lower
  && (contains "deed" dt_lower || startswith "trust" dt_lower).
Definition mortgage_keywords : list string := ["mortgage"; "mtge"; "mtg"; "morg"].
Definition satisfaction_keywords : list string :=
  ["satisfaction"; "sat"; "certificate of satisfaction"].
Definition cancellation_keywords : list string := ["cancellation"; "can"; "cancel"].
Definition release_keywords : list string :=
  ["release"; "rel"; "partial release"; "rel deed"].
Definition plat_keywords : list string :=
  ["plat"; "map plat"; "map/r"; "map"; "subdivision plat"].
Definition trustee_keywords : list string :=
  ["substitute trustee"; "substitution trustee"; "sub tr"; "subst tr"].
Definition deed_keywords : list string :=
  ["deed"; "warranty"; "quitclaim"; "grant"; "conveyance"].
Definition assignment_keywords : list string := ["assignment"; "asign"; "assign"].
Definition attorney_keywords : list string := ["power of attorney"; "poa"].
Definition notice_keywords : list string :=
  ["notice"; "request notice"; "see instrument"].

(** The body of the loop of [fallback_classification]: the category that
    [mapping[doc_type]] receives. *)
Definition fallback_category (doc_type : string) : string :=
  let dt_lower := strip (lower doc_type) in
  if is_trust_code dt_lower then "DEED_OF_TRUST"
  else if is_trust_deed dt_lower then "DEED_OF_TRUST"
  else if any_in mortgage_keywords dt_lower then "MORTGAGE"
  else if any_in satisfaction_keywords dt_lower then "RELEASE"
  else if any_in cancellation_keywords dt_lower then "RELEASE"
  else if any_in release_keywords dt_lower then "RELEASE"
  else if contains "lien" dt_lower || str_in dt_lower ["judgment"; "judgement"]
  then "LIEN"
  else if any_in plat_keywords dt_lower then "PLAT"
  else if contains "lease" dt_lower then "LEASE"
  else if any_in trustee_keywords dt_lower then "DEED_OF_TRUST"
  else if contains "easement" dt_lower || contains "right of way" dt_lower
  then "EASEMENT"
  else if any_in deed_keywords dt_lower then
    if contains "trust" dt_lower || contains "trustee" dt_lower then "DEED_OF_TRUST"
    else if contains "easement" dt_lower then "EASEMENT"
    else "SALE_DEED"
  else if any_in assignment_keywords dt_lower then
    if contains "mortgage" dt_lower || contains "mtg" dt_lower then "MORTGAGE"
    else if contains "trust" dt_lower || contains "trustee" dt_lower
    then "DEED_OF_TRUST"
    else "MISC"
  else if any_in attorney_keywords dt_lower then "MISC"
  else if any_in notice_keywords dt_lower then "MISC"
  else "MISC".

Definition fallback_classification (doc_types : list string) : gmap string string :=
  fold_left
    (fun mapping doc_type => <[doc_type := fallback_category doc_type]> mapping)
    doc_types ∅.

(** *** The functions on the values of a dataset

    [fallback_classification] above is the function on the strings that
    its signature names.  Its callers pass the keys of a [Counter] of the
    [doc_type] values of the dataset, which are the truthy hashable values
    found there, strings or not; the dictionaries below have such keys.
    [doc_type.lower()] raises on a value that is no string. *)

Definition no_lower : exn := AttributeError "object has no attribute 'lower'".

(** The loop of [fallback_classification] on any values. *)
Fixpoint fallback_loop (mapping : pydict string) (doc_types : list pyval)
  : result (pydict string) :=
  match doc_types with
  | [] => Ok mapping
  | PStr doc_type :: rest =>
      fallback_loop
        (dict_update (PStr doc_type) (fun _ => fallback_category doc_type) mapping)
        rest
  | _ :: _ => Raise no_lower
  end.

Definition fallback_classification_values (doc_types : list pyval)
  : result (pydict string) :=
  fallback_loop [] doc_types.

(** [mapping[doc_type] = fallback_classification([doc_type])[doc_type]]. *)
Definition assign_fallback (mapping : pydict string) (doc_type : pyval)
  : result (pydict string) :=
  single ← fallback_classification_values [doc_type];
  match dict_get doc_type single with
  | Some category => Ok (dict_update doc_type (fun _ => category) mapping)
  | None => Raise (KeyError "doc_type")
  end.

(** [for doc_type in batch: mapping[doc_type] = ...], in the handler of a
    failed request. *)
Fixpoint fallback_each (mapping : pydict string) (batch : list pyval)
  : result (pydict string) :=
  match batch with
  | [] => Ok mapping
  | doc_type :: rest =>
      mapping ← assign_fallback mapping doc_type;
      fallback_each mapping rest
  end.

(** The loop over the file that fills the [Counter]:
    [record.get('doc_type')] raises on a value that is no dictionary, and
    [doc_type_counter[doc_type] += 1] on a doc type that is not
    hashable. *)
Fixpoint count_loop (doc_type_counter : pydict nat) (values : list pyval)
  : result (pydict nat) :=
  match values with
  | [] => Ok doc_type_counter
  | PDict record :: rest =>
      let doc_type := get "doc_type" record in
      if truthy doc_type then
        match to_key doc_type with
        | Some _ =>
            count_loop
              (dict_update doc_type
                 (fun n => match n with Some n => S n | None => 1 end)
                 doc_type_counter)
              rest
        | None => Raise unhashable
        end
      else count_loop doc_type_counter rest
  | _ :: _ => Raise no_get
  end.

(** The [Counter] at the end of the file; an exception that stops the
    stream leaves the loop. *)
Definition doc_type_counter (input : stream) : result (pydict nat) :=
  counter ← count_loop [] (yielded input);
  match stopped input with
  | Some e => Raise e
  | None => Ok counter
  end.

(** [range(0, n, step)]. *)
Definition range_step (n step : nat) : list nat :=
  map (fun k => k * step) (seq 0 ((n + step - 1) / step)).

(** [enumerate(l)]. *)
Definition enumerate {A : Type} (l : list A) : list (nat * A) :=
  combine (seq 0 (length l)) l.

(** [x in l] on a list of hashable values. *)
Definition value_in (x : pyval) (l : list pyval) : bool :=
  existsb (same_key x) l.

Definition hashable (v : pyval) : bool :=
  match to_key v with Some _ => true | None => false end.

Section Environment.

(** [random.sample(population, k)]. *)
Variable random_sample : list pyval -> nat -> list pyval.

(** Whether [import openai] succeeds, [os.getenv('OPENAI_API_KEY')], and
    whether [openai.OpenAI(api_key=api_key)] returns a client. *)
Variable openai_installed : bool.
Variable env_api_key : option string.
Variable client_created : bool.

(** The request for the batch with the given number: the text of the
    reply, or [None] when a statement of the [try] block raises, the
    request itself or the reading of the reply or of the token count. *)
Variable chat_completion : nat -> list pyval -> option string.

Definition sample_doc_types_strategically (input : stream) (sample_size : nat)
  : result (list pyval) :=
  counter ← doc_type_counter input;
  let unique_doc_types := map fst counter in
  if (length unique_doc_types <=? sample_size)%nat then Ok unique_doc_types
  else
    let sorted_types := Num.sort_desc snd counter in
    let top_n := Nat.min 50 (length sorted_types) in
    let sampled := map fst (firstn top_n sorted_types) in
    let remaining :=
      List.filter (fun dt => negb (value_in dt sampled)) unique_doc_types in
    if (length sampled <? sample_size)%nat then
      let additional_needed := sample_size - length sampled in
      Ok (sampled
            ++ random_sample remaining
                 (Nat.min additional_needed (length remaining)))
    else Ok sampled.

(** The category written for the [j]-th type of a batch. *)
Definition reply_category (lines : list string) (j : nat) : string :=
  match nth_error lines j with
  | Some line =>
      let category := upper (strip line) in
      if str_in category STANDARD_CATEGORIES then category else "MISC"
  | None => "MISC"
  end.

(** One turn of the loop over the batches.  With a reply, every doc type
    of the batch is a key of the mapping; a doc type that is not hashable
    raises inside the [try] block, and the handler then raises on it, or
    on a value before it, as it does after a failed request. *)
Definition classify_batch (mapping : pydict string) (i : nat)
    (doc_types : list pyval) : result (pydict string) :=
  let batch_size := 50 in
  let batch := firstn batch_size (skipn i doc_types) in
  match chat_completion (i / batch_size) batch with
  | Some content =>
      let lines := split newline (strip content) in
      if forallb hashable batch then
        Ok (fold_left
              (fun m jd =>
                 dict_update (snd jd) (fun _ => reply_category lines (fst jd)) m)
              (enumerate batch) mapping)
      else Raise no_lower
  | None => fallback_each mapping batch
  end.

Fixpoint classify_batches (mapping : pydict string) (starts : list nat)
    (doc_types : list pyval) : result (pydict string) :=
  match starts with
  | [] => Ok mapping
  | i :: rest =>
      mapping ← classify_batch mapping i doc_types;
      classify_batches mapping rest doc_types
  end.

(** A falsy [api_key] is [None] or the empty string. *)
Definition key_given (api_key : option string) : bool :=
  match api_key with
  | Some k => negb (String.eqb k "")
  | None => false
  end.

Definition classify_with_llm (doc_types : list pyval) (api_key : option string)
  : result (pydict string) :=
  if negb openai_installed
  then Raise (ImportError "No module named 'openai'")
  else
    let api_key := if key_given api_key then api_key else env_api_key in
    if negb (key_given api_key) then fallback_classification_values doc_types
    else if negb client_created
    then Raise (OtherError "openai.OpenAI raised")
    else classify_batches [] (range_step (length doc_types) 50) doc_types.

(** The loop that completes the mapping over the keys of the counter. *)
Fixpoint complete_loop (mapping complete_mapping : pydict string)
    (doc_types : list pyval) : result (pydict string) :=
  match doc_types with
  | [] => Ok complete_mapping
  | doc_type :: rest =>
      complete_mapping ←
        match dict_get doc_type mapping with
        | Some category =>
            Ok (dict_update doc_type (fun _ => category) complete_mapping)
        | None => assign_fallback complete_mapping doc_type
        end;
      complete_loop mapping complete_mapping rest
  end.

(** The [if use_llm:] statement of [create_mapping], whose handler catches
    every exception of [classify_with_llm]. *)
Definition classification (sampled_doc_types : list pyval) (use_llm : bool)
    (api_key : option string) : result (pydict string) :=
  if use_llm then
    match classify_with_llm sampled_doc_types api_key with
    | Ok mapping => Ok mapping
    | Raise _ => fallback_classification_values sampled_doc_types
    end
  else fallback_classification_values sampled_doc_types.

(** [create_mapping]: the dictionary [complete_mapping] that is handed to
    [json.dump], which the writing of the file does not change.  The
    input file is read twice and gives the same stream both times. *)
Definition create_mapping (input : stream) (use_llm : bool)
    (api_key : option string) : result (pydict string) :=
  sampled_doc_types ← sample_doc_types_strategically input 200;
  mapping ← classification sampled_doc_types use_llm api_key;
  counter ← doc_type_counter input;
  complete_loop mapping [] (map fst counter).

End Environment.

End LlmClassifier.

(* ===================================================================== *)
(** ** seminole_scraper.py: the records of the API *)
(* ===================================================================== *)

Module SeminoleScraper.
Import Py Datetime Utils.

(** The dictionary that [_parse_api_record] builds has the same fourteen
    keys at every call; it is a record here.  The four values copied from
    the item keep the type that the item gave them. *)
Record api_record : Type := mk_api_record {
  instrument_number : pyval;
  parcel_number : pyval;
  county : string;
  state : string;
  book : pyval;
  page : pyval;
  doc_type : option string;
  doc_category : option string;
  original_doc_type : pyval;
  book_type : pyval;
  grantors : list string;
  grantees : list string;
  date : option string;
  consideration : pyval
}.

(** [a or b]. *)
Definition py_or (a b : pyval) : pyval := if truthy a then a else b.

(** [item.get(key, default)]. *)
Definition get_default (key : string) (default : pyval) (d : record) : pyval :=
  if has_key key d then get key d else default.

(** Truth value of a value that is [None] or a string. *)
Definition truthy_str (s : option string) : bool :=
  match s with
  | Some s => negb (String.eqb s "")
  | None => false
  end.

Definition no_upper : exn := AttributeError "object has no attribute 'upper'".
Definition not_iterable : exn := TypeError "object is not iterable".

(** The cascade on the doc type in lower case. *)
Definition category_of (doc_lower : string) : string :=
  if contains "deed" doc_lower then "deed"
  else if contains "mortgage" doc_lower then "mortgage"
  else if contains "trust" doc_lower then "trust"
  else if contains "judgment" doc_lower then "judgment"
  else if contains "order" doc_lower then "order"
  else if contains "notice" doc_lower then "notice"
  else "misc".

(** The block on the named party; the lists are the grantors and the
    grantees. *)
Definition add_party (party : pyval) (direction : string)
    (lists : list string * list string) : list string * list string :=
  if truthy party then
    let name := normalize_name (str party) in
    if negb (String.eqb name "") then
      if String.eqb direction "FROM" then (fst lists ++ [name], snd lists)
      else (fst lists, snd lists ++ [name])
    else lists
  else lists.

(** The block on the other party: the lists change places. *)
Definition add_cross_party (party : pyval) (direction : string)
    (lists : list string * list string) : list string * list string :=
  if truthy party then
    let name := normalize_name (str party) in
    if negb (String.eqb name "") then
      if String.eqb direction "FROM" then (fst lists, snd lists ++ [name])
      else (fst lists ++ [name], snd lists)
    else lists
  else lists.

Section Api.

Variable dateutil_parse : string -> result datetime.

Definition _parse_api_record (item : record) : result (option api_record) :=
  let instrument_number := py_or (get "inst_num" item) (get "instrument_number" item) in
  let parcel_number := py_or (get "parcel_id" item) (get "real_estate_id" item) in
  let book := py_or (get "book_reel" item) (get "book" item) in
  let page := get "page" item in
  let original_doc_type :=
    py_or (get "instrument_type" item) (get "instrument_description" item) in
  let book_type := py_or (get "book_name" item) (get "book_description" item) in
  types ←
    (if truthy original_doc_type then
       match original_doc_type with
       | PStr s => Ok (Some (upper s), Some (category_of (lower s)))
       | _ => Raise no_upper
       end
     else Ok (None, None));
  let date_str := get "file_date" item in
  date ←
    (if truthy date_str then parse_date dateutil_parse (str date_str)
     else Ok None);
  direction ←
    match get_default "direction" (PStr "") item with
    | PStr s => Ok (upper s)
    | _ => Raise no_upper
    end;
  let party_name := get "party_name" item in
  let cross_party := get "cross_party_name" item in
  let lists := add_party party_name direction ([], []) in
  let lists := add_cross_party cross_party direction lists in
  let record :=
    mk_api_record instrument_number parcel_number "seminole" "FL" book page
      (fst types) (snd types) original_doc_type book_type
      (fst lists) (snd lists) date PNone in
  if truthy instrument_number || (truthy_str (fst types) && truthy_str date)
  then Ok (Some record)
  else Ok None.

(** [for item in items] on a decoded JSON value: the elements of a list,
    the keys of a dictionary, the characters of a string. *)
Definition iterate (items : pyval) : result (list pyval) :=
  match items with
  | PList l => Ok l
  | PDict d => Ok (map (fun kv => PStr (fst kv)) d)
  | PStr s => Ok (map (fun c => PStr (String c EmptyString)) (list_ascii_of_string s))
  | _ => Raise not_iterable
  end.

Definition is_list (v : pyval) : bool :=
  match v with PList _ => true | _ => false end.

(** The items of the response; [None] when the response is neither a list
    nor a dictionary. *)
Definition response_items (data : pyval) : option pyval :=
  match data with
  | PList _ => Some data
  | PDict d =>
      if has_key "data" d then Some (get "data" d)
      else if has_key "results" d then Some (get "results" d)
      else if has_key "records" d then Some (get "records" d)
      else
        match List.filter is_list (map snd d) with
        | first :: _ => Some first
        | [] => Some (PList [])
        end
  | _ => None
  end.

Fixpoint parse_items (items : list pyval) : result (list api_record) :=
  match items with
  | [] => Ok []
  | PDict item :: rest =>
      record ← _parse_api_record item;
      records ← parse_items rest;
      Ok (match record with
          | Some record => record :: records
          | None => records
          end)
  | _ :: rest => parse_items rest
  end.

Definition _parse_api_response (data : pyval) : result (list api_record) :=
  match response_items data with
  | Some items =>
      items ← iterate items;
      parse_items items
  | None => Ok []
  end.

End Api.

End SeminoleScraper.

(* ===================================================================== *)
(** ** Inputs of the worked examples *)
(* ===================================================================== *)

Module Examples.
Import Py Datetime.

(** The three records of the specification's end-to-end example. *)
Definition wake_records : list record :=
  map (fun d => [("county", PStr "wake"); ("doc_type", PStr d)])
    ["WARRANTY DEED"; "DEED OF TRUST"; "MTG ASSIGNMENT"].

(** The file of these records, and a file with a record whose doc type is
    empty, one whose doc type no rule recognizes, and a deed. *)
Definition wake_stream : Utils.stream :=
  Utils.mk_stream (map PDict wake_records) [] None.


(** A file with a record whose doc type is a number. *)
Definition numbered_stream : Utils.stream :=
  Utils.mk_stream
    (map PDict
       [[("county", PStr "wake"); ("doc_type", PStr "DEED")];
        [("county", PStr "wake"); ("doc_type", PInt 5)]])
    [] None.

(** An environment without the accelerant: the sample is the head of the
    population and every request fails. *)
Definition no_sample (population : list pyval) (k : nat) : list pyval :=
  firstn k population.
Definition no_reply (batch_number : nat) (batch : list pyval) : option string :=
  None.

(** A service that answers every batch with the same three lines: a
    category in lower case, one between blanks, and a word that is no
    category. *)
Definition canned_reply (batch_number : nat) (batch : list pyval)
  : option string :=
  Some ("sale_deed" +:+ String newline (" DEED_OF_TRUST "
          +:+ String newline "Assignment")).

(** Records that carry only an instrument number. *)
Definition instruments (numbers : list string) : list record :=
  map (fun n => [("county", PStr "wake"); ("instrument_number", PStr n)]) numbers.

(** The instrument numbers of the specification's end-to-end example. *)
Definition three_instruments : list record :=
  instruments ["2020001234"; "2020001235"; "AB-0012"].

(** Six instrument numbers of six different shapes. *)
Definition six_instruments : list record :=
  instruments ["1"; "12"; "123"; "1234"; "12345"; "123456"].

(** An instrument number that starts with the letter e with acute accent
    (U+00E9), and one that ends with the superscript two (U+00B2). *)
Definition accented_number : string := String (chr 233) "1".
Definition superscript_number : string := String "1" (String (chr 178) "").

(** An installation without [dateutil]. *)
Definition no_dateutil (date_str : string) : result datetime :=
  Raise (ImportError "No module named 'dateutil'").

(** The current instant of the examples: midnight, 1 January 2024. *)
Definition new_year : datetime := mk_datetime 2024 1 1 0 0 0 0 None.

Definition dated (date : string) : record :=
  [("county", PStr "wake"); ("date", PStr date)].

(** Four dated records: a date before 1800, an empty date, a date two
    days after [new_year] and a text that is no date; and their summary. *)
Definition four_dates : list record :=
  [dated "1799-12-31"; dated ""; dated "2024-01-03"; dated "junk"].

Definition four_dates_summary : PatternAnalyzer.date_range :=
  PatternAnalyzer.mk_date_range
    (Some "1799-12-31T00:00:00") (Some "2024-01-03T00:00:00")
    [PatternAnalyzer.very_old_date "1799-12-31T00:00:00" 1799;
     PatternAnalyzer.future_date "2024-01-03T00:00:00" 2].

(** Five records with a doc type and a category: a deed, a record without
    category, a deed filed under another category, a record without doc
    type and a third deed; and the summary of their doc types. *)
Definition typed (doc_type : string) (category : pyval) : record :=
  [("county", PStr "wake"); ("doc_type", PStr doc_type);
   ("doc_category", category)].

Definition five_typed : list record :=
  [typed "DEED" (PStr "deed"); typed "MTG" PNone; typed "DEED" (PStr "misc");
   typed "" (PStr "deed"); typed "DEED" PNone].

Definition five_typed_summary : PatternAnalyzer.doc_type_summary :=
  PatternAnalyzer.mk_doc_type_summary
    [(PStr "DEED", 3); (PStr "MTG", 1)] 2 2 5
    [(PStr "misc", [(PStr "DEED", 3)])].

(** An item of the API, the record made of it, and an item whose
    direction is the JSON null. *)
Definition api_item : record :=
  [("inst_num", PStr "2007012345"); ("instrument_type", PStr "Warranty Deed");
   ("file_date", PStr "6/1/2007 2:58:08 PM"); ("direction", PStr "From");
   ("party_name", PStr " Smith John "); ("cross_party_name", PStr "doe jane")].

Definition api_item_record : SeminoleScraper.api_record :=
  SeminoleScraper.mk_api_record (PStr "2007012345") PNone "seminole" "FL"
    PNone PNone (Some "WARRANTY DEED") (Some "deed") (PStr "Warranty Deed")
    PNone ["SMITH JOHN"] ["DOE JANE"] (Some "2007-06-01T14:58:08") PNone.

Definition null_direction_item : record :=
  [("inst_num", PStr "7"); ("direction", PNone)].






(** Four values of a stream, two of them of one county and one without
    a county, and the analysis of the stream county by county. *)
Definition county_values : list pyval :=
  [PDict [("county", PStr "Wake"); ("instrument_number", PStr "A1");
          ("book", PStr "12")];
   PDict [("county", PStr "Orange"); ("doc_type", PStr "DEED")];
   PDict [("instrument_number", PStr "B7")];
   PDict [("county", PStr "Wake"); ("page", PStr "7")]].

Definition county_stream : Utils.stream := Utils.mk_stream county_values [] None.

Definition wake_result : PatternAnalyzer.county_result :=
  PatternAnalyzer.mk_county_result 2
    [PatternAnalyzer.mk_pattern_info "LD" "^[A-Za-z]\d{1}$" "A1" 1 100%float]
    [PatternAnalyzer.mk_field_patterns "book" true false (Some "12") (Some "12") 1 1]
    [PatternAnalyzer.mk_field_patterns "page" true false (Some "7") (Some "7") 1 1]
    (PatternAnalyzer.mk_date_range None None []) [] 0.

Definition orange_result : PatternAnalyzer.county_result :=
  PatternAnalyzer.mk_county_result 1 [] [] []
    (PatternAnalyzer.mk_date_range None None []) [(PStr "DEED", 1)] 1.

Definition county_summary : pydict PatternAnalyzer.county_result :=
  [(PStr "Wake", wake_result); (PStr "Orange", orange_result)].

(** *** A decoder for a fragment of JSON

    It stands for [json.loads] where the model of [stream_jsonl] is run:
    [null], [true], [false], integers, strings without escapes, arrays and
    objects.  A text of that fragment is decoded as [json.loads] decodes
    it and a text that is no JSON at all raises [JSONDecodeError]; a
    fraction, an exponent or an escape is reported as outside the
    fragment, with another exception.  The messages are the decoder's,
    without the position that follows them. *)

Definition json_space (c : ascii) : bool :=
  is_code 32 c || is_code 9 c || is_code 10 c || is_code 13 c.

Fixpoint skip_spaces (s : string) : string :=
  match s with
  | String c s' => if json_space c then skip_spaces s' else s
  | EmptyString => EmptyString
  end.

Definition outside_fragment {A : Type} : result A :=
  Raise (OtherError "outside the decoded fragment").

(** The digits at the start of [s]. *)
Fixpoint take_digits (s : string) : string * string :=
  match s with
  | String c s' =>
      if in_range 48 57 c
      then let '(ds, rest) := take_digits s' in (String c ds, rest)
      else (EmptyString, s)
  | EmptyString => (EmptyString, EmptyString)
  end.

Definition json_number (negative : bool) (s : string) : result (pyval * string) :=
  let '(ds, rest) := take_digits s in
  if String.eqb ds "" then Raise (JSONDecodeError "Expecting value")
  else if startswith "." rest || startswith "e" rest || startswith "E" rest
  then outside_fragment
  else
    (* a leading zero ends the number: what follows is extra data *)
    let '(ds, rest) := if startswith "0" ds
                       then ("0", slice 1 (len ds) ds +:+ rest) else (ds, rest) in
    let n := Datetime.digits_to_Z 0 ds in
    Ok (PInt (if negative then (- n)%Z else n), rest).

(** The characters of a string up to its closing quote. *)
Fixpoint json_string (s : string) : result (string * string) :=
  match s with
  | EmptyString => Raise (JSONDecodeError "Unterminated string")
  | String c s' =>
      if Ascii.eqb c dquote then Ok (EmptyString, s')
      else if Ascii.eqb c backslash then outside_fragment
      else if in_range 0 31 c
      then Raise (JSONDecodeError "Invalid control character")
      else
        match json_string s' with
        | Ok (t, rest) => Ok (String c t, rest)
        | Raise e => Raise e
        end
  end.

(** [d[key] = v] on a dictionary that keeps its keys in insertion order. *)
Fixpoint dict_set (key : string) (v : pyval) (d : list (string * pyval))
  : list (string * pyval) :=
  match d with
  | [] => [(key, v)]
  | (k, v') :: d' =>
      if String.eqb k key then (k, v) :: d' else (k, v') :: dict_set key v d'
  end.

Fixpoint json_value (fuel : nat) (s : string) : result (pyval * string) :=
  match fuel with
  | O => outside_fragment
  | S f =>
      match skip_spaces s with
      | EmptyString => Raise (JSONDecodeError "Expecting value")
      | String c rest as t =>
          if startswith "null" t then Ok (PNone, slice 4 (len t) t)
          else if startswith "true" t then Ok (PBool true, slice 4 (len t) t)
          else if startswith "false" t then Ok (PBool false, slice 5 (len t) t)
          else if startswith "NaN" t || startswith "Infinity" t
                  || startswith "-Infinity" t then outside_fragment
          else if Ascii.eqb c dquote then
            match json_string rest with
            | Ok (str, rest') => Ok (PStr str, rest')
            | Raise e => Raise e
            end
          else if Ascii.eqb c "-" then json_number true rest
          else if in_range 48 57 c then json_number false t
          else if Ascii.eqb c "[" then
            match skip_spaces rest with
            | String "]" rest' => Ok (PList [], rest')
            | _ => json_items f rest []
            end
          else if Ascii.eqb c "{" then
            match skip_spaces rest with
            | String "}" rest' => Ok (PDict [], rest')
            | _ => json_members f rest []
            end
          else Raise (JSONDecodeError "Expecting value")
      end
  end

with json_items (fuel : nat) (s : string) (acc : list pyval)
  : result (pyval * string) :=
  match fuel with
  | O => outside_fragment
  | S f =>
      match json_value f s with
      | Raise e => Raise e
      | Ok (v, rest) =>
          match skip_spaces rest with
          | String "," rest' => json_items f rest' (acc ++ [v])
          | String "]" rest' => Ok (PList (acc ++ [v]), rest')
          | _ => Raise (JSONDecodeError "Expecting ',' delimiter")
          end
      end
  end

with json_members (fuel : nat) (s : string) (acc : list (string * pyval))
  : result (pyval * string) :=
  match fuel with
  | O => outside_fragment
  | S f =>
      match skip_spaces s with
      | String c rest =>
          if Ascii.eqb c dquote then
            match json_string rest with
            | Raise e => Raise e
            | Ok (key, rest1) =>
                match skip_spaces rest1 with
                | String ":" rest2 =>
                    match json_value f rest2 with
                    | Raise e => Raise e
                    | Ok (v, rest3) =>
                        match skip_spaces rest3 with
                        | String "," rest4 => json_members f rest4 (dict_set key v acc)
                        | String "}" rest4 => Ok (PDict (dict_set key v acc), rest4)
                        | _ => Raise (JSONDecodeError "Expecting ',' delimiter")
                        end
                    end
                | _ => Raise (JSONDecodeError "Expecting ':' delimiter")
                end
            end
          else Raise (JSONDecodeError
                        "Expecting property name enclosed in double quotes")
      | EmptyString =>
          Raise (JSONDecodeError "Expecting property name enclosed in double quotes")
      end
  end.

Definition json_loads_fragment (s : string) : result pyval :=
  match json_value (S (len s)) s with
  | Raise e => Raise e
  | Ok (v, rest) =>
      if String.eqb (skip_spaces rest) "" then Ok v
      else Raise (JSONDecodeError "Extra data")
  end.

(** The lines of a small file: an object, a blank line, an array, a line
    that is no JSON, and a number. *)
Definition object_line : string :=
  "{" +:+ String dquote ("county" +:+ String dquote (": "
      +:+ String dquote ("wake" +:+ String dquote (", "
      +:+ String dquote ("book" +:+ String dquote ": 12}"))))).

Definition mixed_lines : list string :=
  map (fun l => l +:+ String newline "")
    [object_line; "   "; "[1, 2]"; "{oops"; "42"].

End Examples.

(* ===================================================================== *)
(** ** Notions of the statements *)
(* ===================================================================== *)

Module Spec.
Import Py Datetime Utils PatternAnalyzer LlmClassifier.

(** *** Instrument numbers *)

(** What a character contributes to the readable pattern: one [D] for a
    digit, one [L] for a letter, the character itself otherwise, after a
    backslash when it is one of the escaped characters. *)
Definition readable_part (c : ascii) : string :=
  if char_isdigit c then "D"
  else if char_isalpha c then "L"
  else if existsb (Ascii.eqb c) escaped_chars
  then String backslash (String c EmptyString)
  else String c EmptyString.

(** The pattern after the first of the two replacements. *)
Definition half_part (c : ascii) : string :=
  if char_isdigit c then "D"
  else if char_isalpha c then "[A-Za-z]"
  else if existsb (Ascii.eqb c) escaped_chars
  then String backslash (String c EmptyString)
  else String c EmptyString.

(** A readable pattern with each run of [D] and each run of [L] collapsed
    to one token: what the specification describes. *)
Fixpoint collapse_runs (s : string) : string :=
  match s with
  | EmptyString => EmptyString
  | String c s' =>
      match s' with
      | String c' _ =>
          if (Ascii.eqb c "D" || Ascii.eqb c "L") && Ascii.eqb c c'
          then collapse_runs s'
          else String c (collapse_runs s')
      | EmptyString => String c EmptyString
      end
  end.

(** [pattern_groups.get(key)]. *)
Fixpoint assoc (key : string) (groups : list (string * list string))
  : option (list string) :=
  match groups with
  | [] => None
  | (k, vs) :: rest => if String.eqb k key then Some vs else assoc key rest
  end.

(** The qualifying numbers of a given shape, in input order. *)
Definition group_of (numbers : list string) (key : string) : list string :=
  List.filter (fun s => negb (is_bp s) && String.eqb (shape s) key) numbers.

(** The text between the anchors of the generated expression. *)
Definition regex_body (pattern : string) : string :=
  join "" (regex_parts 0 pattern).

(** A character is plain when [isdigit] holds of it only if it is a
    decimal digit and [isalpha] only if it is an ASCII letter; a string is
    plain when all its characters are. *)
Definition plain_char (c : ascii) : bool :=
  implb (char_isdigit c) (in_range 48 57 c)
  && implb (char_isalpha c) (Re.ascii_letter c).

Definition plain (s : string) : bool := str_all plain_char s.

(** The number of digits a string starts with, and the string without its
    first [n] characters. *)
Fixpoint run_len (s : string) : nat :=
  match s with
  | String c s' => if char_isdigit c then S (run_len s') else 0
  | EmptyString => 0
  end.

Fixpoint str_drop (n : nat) (s : string) : string :=
  match n, s with
  | S k, String _ s' => str_drop k s'
  | _, _ => s
  end.

(** What the item of the expression generated for the character [c] of a
    number reads: a decimal digit for a digit, an ASCII letter for a
    letter, the character itself otherwise. *)
Definition reads (c x : ascii) : bool :=
  if char_isdigit c then in_range 48 57 x
  else if char_isalpha c then Re.ascii_letter x
  else Ascii.eqb c x.

(** [t] read item by item along [s]: the text of [t] left over. *)
Fixpoint fits (s t : string) : option string :=
  match s with
  | EmptyString => Some t
  | String c s' =>
      match t with
      | String x t' => if reads c x then fits s' t' else None
      | EmptyString => None
      end
  end.

(** The matches of an expression that reads [left] and then the dollar
    sign. *)
Definition ends (caps : Re.captures) (left : option string)
  : list (Re.captures * string) :=
  match left with
  | Some rest => if Re.at_end rest then [(caps, rest)] else []
  | None => []
  end.

(** Two characters are of the same kind when both are digits, both are
    letters, or they are the same character; two strings, when they are
    character by character. *)
Definition same_kind (c x : ascii) : bool :=
  if char_isdigit c then char_isdigit x
  else if char_isalpha c then negb (char_isdigit x) && char_isalpha x
  else negb (char_isdigit x) && negb (char_isalpha x) && Ascii.eqb c x.

Fixpoint same_kinds (s t : string) : bool :=
  match s, t with
  | EmptyString, EmptyString => true
  | String c s', String x t' => same_kind c x && same_kinds s' t'
  | _, _ => false
  end.

(** A record qualifies when its instrument number is a non-empty string
    that does not start with [bp]. *)
Definition qualifies (r : record) : bool :=
  match get "instrument_number" r with
  | PStr s => negb (String.eqb s "") && negb (is_bp s)
  | _ => false
  end.

(** The distinct elements of a list, each at its first occurrence. *)
Definition first_occurrences (l : list string) : list string :=
  fold_left (fun seen x => if existsb (String.eqb x) seen then seen else seen ++ [x])
    l [].

(** *** Book and page values *)

(** [record[name] = v]: the binding that [get] reads is replaced, or a
    binding is added when there is none. *)
Fixpoint set_field (name : string) (v : pyval) (r : record) : record :=
  match r with
  | [] => [(name, v)]
  | (k, v') :: r' =>
      if String.eqb k name then (k, v) :: r'
      else (k, v') :: set_field name v r'
  end.

(** The record with the value of one field replaced by its string form. *)
Definition stringify (name : string) (r : record) : record :=
  set_field name (PStr (str (get name r))) r.

(** *** Dates *)

(** The date that the [try] block reads from the text that [parse_date]
    returned. *)
Definition from_iso (parsed_date : string) : result datetime :=
  if contains "T" parsed_date
  then fromisoformat (replace "Z" "+00:00" parsed_date)
  else fromisoformat parsed_date.

(** What a record contributes: nothing when its date is missing or falsy
    or when [parse_date] finds no date in it; else the text returned by
    [parse_date] and what the [try] block reads from it. *)
Definition date_entry (dateutil_parse : string -> result datetime) (r : record)
  : option (string * result datetime) :=
  match get "date" r with
  | PStr s =>
      match parse_date dateutil_parse s with
      | Ok (Some parsed_date) => Some (parsed_date, from_iso parsed_date)
      | _ => None
      end
  | _ => None
  end.

(** The anomalies of a date without offset, in the order they are added. *)
Definition flags (today : datetime) (parsed_date : string) (dt : datetime)
  : list anomaly :=
  (if (wall_us today <? wall_us dt)%Z
      && (1 <? timedelta_days (wall_us dt - wall_us today))%Z
   then [future_date parsed_date (timedelta_days (wall_us dt - wall_us today))]
   else [])
  ++ (if (Datetime.year dt <? 1800)%Z
      then [very_old_date parsed_date (Datetime.year dt)] else []).

Definition entry_dates (e : option (string * result datetime)) : list datetime :=
  match e with
  | Some (_, Ok dt) => [dt]
  | _ => []
  end.

Definition entry_anomalies (today : datetime)
    (e : option (string * result datetime)) : list anomaly :=
  match e with
  | Some (parsed_date, Ok dt) => flags today parsed_date dt
  | Some (parsed_date, Raise e) => [parse_error parsed_date (exn_message e)]
  | None => []
  end.

(** A record that the loop gets past: its date is falsy, or it is a string
    from which [parse_date] returns and which does not give a date with a
    UTC offset. *)
Definition date_passes (dateutil_parse : string -> result datetime) (r : record)
  : bool :=
  let v := get "date" r in
  if truthy v then
    match v with
    | PStr s =>
        match parse_date dateutil_parse s with
        | Ok (Some parsed_date) =>
            match from_iso parsed_date with
            | Ok dt => match tzinfo dt with None => true | Some _ => false end
            | Raise _ => true
            end
        | Ok None => true
        | Raise _ => false
        end
    | _ => false
    end
  else true.

(** *** Document types of a county *)

(** The number of records whose doc type is truthy and is the key [k]. *)
Definition count_type (records : list record) (k : pyval) : nat :=
  length
    (List.filter
       (fun r => truthy (get "doc_type" r) && same_key (get "doc_type" r) k)
       records).

(** The category of the last record that has the doc type [k] and a truthy
    category. *)
Definition last_category (records : list record) (k : pyval) : option pyval :=
  fold_left
    (fun last r =>
       if truthy (get "doc_type" r) && same_key (get "doc_type" r) k
          && truthy (get "doc_category" r)
       then Some (get "doc_category" r) else last)
    records None.

(** The truthy doc types of the records, and the truthy categories of the
    records with a truthy doc type, in input order. *)
Definition truthy_types (records : list record) : list pyval :=
  flat_map (fun r => if truthy (get "doc_type" r) then [get "doc_type" r] else [])
    records.

Definition truthy_categories (records : list record) : list pyval :=
  flat_map
    (fun r => if truthy (get "doc_type" r) && truthy (get "doc_category" r)
              then [get "doc_category" r] else [])
    records.

(** The dictionaries that the loops build when no key is unhashable. *)
Definition counted (values : list pyval) (c : pydict nat) : pydict nat :=
  fold_left
    (fun c v => dict_update v (fun n => match n with Some n => S n | None => 1 end) c)
    values c.

Definition category_dict (records : list record) (d : pydict pyval)
  : pydict pyval :=
  fold_left
    (fun d r =>
       if truthy (get "doc_type" r) && truthy (get "doc_category" r)
       then dict_update (get "doc_type" r) (fun _ => get "doc_category" r) d
       else d)
    records d.

Definition related (doc_type_to_category : pydict pyval) (items : pydict nat)
    (rel : pydict (pydict nat)) : pydict (pydict nat) :=
  fold_left
    (fun rel item =>
       match dict_get (fst item) doc_type_to_category with
       | Some category =>
           if truthy category then
             dict_update category
               (fun types =>
                  dict_update (fst item) (fun _ => snd item)
                    (match types with Some types => types | None => [] end))
               rel
           else rel
       | None => rel
       end)
    items rel.

(** The count that a counter holds for a key, 0 when it holds none. *)
Definition count_of (c : pydict nat) (k : pyval) : nat :=
  match dict_get k c with
  | Some n => n
  | None => 0
  end.

(** [rel[category][doc_type]], [None] when either key is missing. *)
Definition rel_get (rel : pydict (pydict nat)) (category doc_type : pyval)
  : option nat :=
  match dict_get category rel with
  | Some types => dict_get doc_type types
  | None => None
  end.

(** A record whose doc type and category can be keys: the doc type is
    falsy or hashable, and with a truthy doc type the category is falsy or
    hashable. *)
Definition hashable_types (r : record) : bool :=
  let doc_type := get "doc_type" r in
  let doc_category := get "doc_category" r in
  if truthy doc_type then
    match to_key doc_type with
    | Some _ =>
        if truthy doc_category
        then match to_key doc_category with Some _ => true | None => false end
        else true
    | None => false
    end
  else true.

(** The keys of a dictionary are hashable and pairwise different. *)
Fixpoint distinct_keys {V : Type} (d : pydict V) : Prop :=
  match d with
  | [] => True
  | (k, _) :: d' => to_key k <> None /\ dict_get k d' = None /\ distinct_keys d'
  end.

(** *** The records of the API *)

(** The names that a party of an item contributes: its normal form, unless
    the party is falsy or its normal form is empty. *)
Definition party_names (party : pyval) : list string :=
  if truthy party then
    let name := normalize_name (str party) in
    if String.eqb name "" then [] else [name]
  else [].

(** The direction of an item reads FROM, in whatever case. *)
Definition is_from (item : record) : bool :=
  match get "direction" item with
  | PStr s => String.eqb (lower s) "from"
  | _ => false
  end.

(** The item cannot be parsed: its original doc type is truthy and no
    string, or it has a direction that is no string. *)
Definition ill_typed (item : record) : bool :=
  (let original :=
     SeminoleScraper.py_or (get "instrument_type" item)
       (get "instrument_description" item) in
   truthy original && match original with PStr _ => false | _ => true end)
  || (has_key "direction" item
      && match get "direction" item with PStr _ => false | _ => true end).

(** *** The stream *)

(** The values and the warnings of a file none of whose lines stops the
    generator: a line that is not blank gives its value or a warning with
    its number, the blank lines being numbered too. *)
Definition stream_values (json_loads : string -> result pyval)
    (lines : list string) : list pyval :=
  flat_map
    (fun raw =>
       if String.eqb (strip raw) "" then []
       else match json_loads (strip raw) with
            | Ok v => [v]
            | Raise _ => []
            end)
    lines.

Definition stream_warnings (json_loads : string -> result pyval)
    (first : nat) (lines : list string) : list string :=
  flat_map
    (fun numbered =>
       if String.eqb (strip (snd numbered)) "" then []
       else match json_loads (strip (snd numbered)) with
            | Raise (JSONDecodeError msg) =>
                ["Error parsing line " +:+ str_of_nat (fst numbered) +:+ ": " +:+ msg]
            | _ => []
            end)
    (combine (seq first (length lines)) lines).

(** *** Counties *)

(** A value that the first loop gets past: a dictionary whose county is
    falsy or hashable. *)
Definition county_passes (v : pyval) : bool :=
  match v with
  | PDict r =>
      negb (truthy (get "county" r))
      || match to_key (get "county" r) with Some _ => true | None => false end
  | _ => false
  end.

(** The dictionaries among the values whose county is truthy and is the
    key [k], in input order; and all those with a truthy county. *)
Definition county_members (values : list pyval) (k : pyval) : list record :=
  flat_map
    (fun v =>
       match v with
       | PDict r =>
           if truthy (get "county" r) && same_key (get "county" r) k
           then [r] else []
       | _ => []
       end)
    values.

Definition with_county (values : list pyval) : list record :=
  flat_map
    (fun v =>
       match v with
       | PDict r => if truthy (get "county" r) then [r] else []
       | _ => []
       end)
    values.

(** The dictionary that the first loop builds when it gets past every
    value. *)
Definition grouped (values : list pyval) (county_records : pydict (list record))
  : pydict (list record) :=
  fold_left
    (fun county_records v =>
       match v with
       | PDict r =>
           if truthy (get "county" r) then
             dict_update (get "county" r)
               (fun records =>
                  match records with
                  | Some records => records ++ [r]
                  | None => [r]
                  end)
               county_records
           else county_records
       | _ => county_records
       end)
    values county_records.

(** The records gathered for a key, none when the key is missing. *)
Definition members_of (county_records : pydict (list record)) (k : pyval)
  : list record :=
  match dict_get k county_records with
  | Some records => records
  | None => []
  end.

(** *** Document types *)

(** *** The order of book and page values *)



(** *** The mapping of the doc types *)

Definition is_str (v : pyval) : bool :=
  match v with PStr _ => true | _ => false end.

(** The truthy doc types of the dictionaries of a file, in order. *)
Definition present_doc_types (values : list pyval) : list pyval :=
  flat_map
    (fun v =>
       match v with
       | PDict r => if truthy (get "doc_type" r) then [get "doc_type" r] else []
       | _ => []
       end)
    values.


(** The category of the rules for a value: none for a value that is no
    string. *)
Definition rule_category (v : pyval) : option string :=
  match v with
  | PStr s => Some (fallback_category s)
  | _ => None
  end.

(** The category of the rules, MISC for a value that is no string. *)
Definition rule_or_misc (v : pyval) : string :=
  match rule_category v with
  | Some category => category
  | None => "MISC"
  end.


(** Assignments [m[key] = category] made in order. *)
Definition assigned (items : list (pyval * string)) (m : pydict string)
  : pydict string :=
  fold_left (fun m item => dict_update (fst item) (fun _ => snd item) m) items m.

(** A value that the counting loop gets past: a dictionary whose doc type
    is falsy or hashable. *)
Definition countable (v : pyval) : bool :=
  match v with
  | PDict r => negb (truthy (get "doc_type" r)) || hashable (get "doc_type" r)
  | _ => false
  end.




(** The category that a line of a reply names: the standard category
    that the line reads once the blanks around it are dropped and its
    letters are made capitals, MISC when there is none. *)
Definition named_category (line : string) : string :=
  match List.find (String.eqb (upper (strip line))) STANDARD_CATEGORIES with
  | Some category => category
  | None => "MISC"
  end.

(** The category of the line at a position of a reply, MISC when the
    reply has no such line. *)
Definition line_category (content : string) (position : nat) : string :=
  match nth_error (split newline (strip content)) position with
  | Some line => named_category line
  | None => "MISC"
  end.

(** What one turn of the loop over the batches assigns, in order: to each
    doc type of the batch the category of the line of the reply at its
    position, or the category of the rules when the request failed; and
    whether the turn ends without an exception. *)
Definition batch_assignments (chat_completion : nat -> list pyval -> option string)
    (doc_types : list pyval) (i : nat) : list (pyval * string) :=
  let batch := firstn 50 (skipn i doc_types) in
  match chat_completion (i / 50) batch with
  | Some content =>
      map (fun jd => (snd jd, line_category content (fst jd))) (enumerate batch)
  | None => map (fun k => (k, rule_or_misc k)) batch
  end.

Definition batch_passes (chat_completion : nat -> list pyval -> option string)
    (doc_types : list pyval) (i : nat) : bool :=
  let batch := firstn 50 (skipn i doc_types) in
  match chat_completion (i / 50) batch with
  | Some _ => forallb hashable batch
  | None => forallb is_str batch
  end.

(** Values that are different keys, pairwise. *)
Fixpoint distinct_values (l : list pyval) : Prop :=
  match l with
  | [] => True
  | v :: rest =>
      to_key v <> None /\ value_in v rest = false /\ distinct_values rest
  end.


(** The tests that decide the category, on the lowered and stripped text:
    of each keyword list the keywords that hold no other keyword of the
    list, and of the nested tests those that can still hold where they
    stand. *)
Definition cascade (t : string) : string :=
  if is_trust_code t || is_trust_deed t then "DEED_OF_TRUST"
  else if contains "mortgage" t || contains "mtg" t || contains "morg" t
  then "MORTGAGE"
  else if contains "sat" t || contains "can" t || contains "rel" t then "RELEASE"
  else if contains "lien" t || str_in t ["judgment"; "judgement"] then "LIEN"
  else if contains "plat" t || contains "map" t then "PLAT"
  else if contains "lease" t then "LEASE"
  else if any_in trustee_keywords t then "DEED_OF_TRUST"
  else if contains "easement" t || contains "right of way" t then "EASEMENT"
  else if any_in deed_keywords t
  then (if contains "trust" t then "DEED_OF_TRUST" else "SALE_DEED")
  else if contains "asign" t || contains "assign" t
  then (if contains "trust" t then "DEED_OF_TRUST" else "MISC")
  else "MISC".

End Spec.

(* ===================================================================== *)
(** ** Facts about the string methods *)
(* ===================================================================== *)

Module StringFacts.
Import Py.

#[local] Arguments Ascii.eqb : simpl nomatch.

(** *** Concatenation *)

Lemma append_cons (x : ascii) (a b : string) :
  String x a +:+ b = String x (a +:+ b).
Proof. reflexivity. Qed.

Lemma append_nil_l (s : string) : "" +:+ s = s.
Proof. reflexivity. Qed.

Lemma append_assoc (a b c : string) : (a +:+ b) +:+ c = a +:+ (b +:+ c).
Proof.
  induction a as [|x a IH]; [reflexivity|]. now rewrite !append_cons, IH.
Qed.

Lemma append_nil_r (a : string) : a +:+ "" = a.
Proof.
  induction a as [|x a IH]; [reflexivity|]. now rewrite append_cons, IH.
Qed.

Lemma len_cons (c : ascii) (s : string) : len (String c s) = S (len s).
Proof. reflexivity. Qed.

Lemma len_append (a b : string) : len (a +:+ b) = len a + len b.
Proof.
  induction a as [|x a IH]; [reflexivity|].
  rewrite append_cons, !len_cons. now rewrite IH.
Qed.

(** *** [startswith] and [in] *)

Lemma startswith_iff (p s : string) :
  startswith p s = true <-> exists v, s = p +:+ v.
Proof.
  revert s. induction p as [|a p IH]; intros s.
  - split; [intros _; now exists s | reflexivity].
  - destruct s as [|b s]; cbn [startswith].
    + split; [discriminate | intros [v Hv]; discriminate Hv].
    + rewrite andb_true_iff, Ascii.eqb_eq, IH. split.
      * intros [-> [v ->]]. now exists v.
      * intros [v Hv]. rewrite append_cons in Hv. injection Hv as -> ->.
        split; [reflexivity | now exists v].
Qed.

Lemma contains_cons (sub : string) (c : ascii) (s : string) :
  contains sub (String c s) = startswith sub (String c s) || contains sub s.
Proof. reflexivity. Qed.

Lemma contains_iff (sub s : string) :
  contains sub s = true <-> exists u v, s = u +:+ sub +:+ v.
Proof.
  induction s as [|c s IH].
  - cbn [contains]. rewrite orb_false_r, startswith_iff. split.
    + intros [v Hv]. now exists "", v.
    + intros [u [v Huv]]. destruct u as [|x u]; [|discriminate Huv].
      now exists v.
  - rewrite contains_cons, orb_true_iff, startswith_iff, IH. split.
    + intros [[v Hv] | [u [v Huv]]].
      * now exists "", v.
      * exists (String c u), v. now rewrite Huv.
    + intros [u [v Huv]]. destruct u as [|x u].
      * left. now exists v.
      * right. rewrite append_cons in Huv. injection Huv as -> ->.
        now exists u, v.
Qed.

(** A text that contains a keyword contains every part of the keyword. *)
Lemma contains_trans (a b s : string) :
  contains a b = true -> contains b s = true -> contains a s = true.
Proof.
  rewrite !contains_iff. intros [u [v ->]] [u' [v' ->]].
  exists (u' +:+ u), (v +:+ v'). now rewrite !append_assoc.
Qed.

(** *** Blanks *)

Lemma lstrip_cons (c : ascii) (s : string) :
  lstrip (String c s) = if char_isspace c then lstrip s else String c s.
Proof. reflexivity. Qed.

Lemma rstrip_cons (c : ascii) (s : string) :
  rstrip (String c s)
  = if char_isspace c && str_all char_isspace s then ""
    else String c (rstrip s).
Proof.
  revert c. induction s as [|x s IH]; intros c.
  - cbn [rstrip str_all]. rewrite andb_true_r. now destruct (char_isspace c).
  - change (rstrip (String c (String x s)))
      with (match rstrip (String x s) with
            | "" => if char_isspace c then "" else String c ""
            | r => String c r
            end).
    rewrite IH. cbn [str_all].
    destruct (char_isspace x && str_all char_isspace s);
      now destruct (char_isspace c).
Qed.

Lemma lstrip_blank (s : string) :
  str_all char_isspace s = true -> lstrip s = "".
Proof.
  induction s as [|c s IH]; [reflexivity|].
  cbn [str_all]. rewrite lstrip_cons. intros H.
  apply andb_prop in H as [-> H]. now apply IH.
Qed.

Lemma rstrip_blank (s : string) :
  str_all char_isspace (rstrip s) = str_all char_isspace s.
Proof.
  induction s as [|c s IH]; [reflexivity|].
  rewrite rstrip_cons. cbn [str_all].
  destruct (char_isspace c) eqn:Ec; cbn [andb].
  - destruct (str_all char_isspace s) eqn:E; [reflexivity|].
    cbn [str_all]. now rewrite Ec, IH.
  - cbn [str_all]. now rewrite Ec.
Qed.

Lemma lstrip_idem (s : string) : lstrip (lstrip s) = lstrip s.
Proof.
  induction s as [|c s IH]; [reflexivity|].
  rewrite lstrip_cons. destruct (char_isspace c) eqn:E; [exact IH|].
  now rewrite lstrip_cons, E.
Qed.

Lemma rstrip_idem (s : string) : rstrip (rstrip s) = rstrip s.
Proof.
  induction s as [|c s IH]; [reflexivity|].
  rewrite rstrip_cons.
  destruct (char_isspace c && str_all char_isspace s) eqn:E; [reflexivity|].
  now rewrite rstrip_cons, rstrip_blank, E, IH.
Qed.

Lemma lstrip_rstrip (s : string) : lstrip (rstrip s) = rstrip (lstrip s).
Proof.
  induction s as [|c s IH]; [reflexivity|].
  rewrite rstrip_cons, (lstrip_cons c s).
  destruct (char_isspace c) eqn:Ec; cbn [andb].
  - destruct (str_all char_isspace s) eqn:Es.
    + now rewrite (lstrip_blank s Es).
    + now rewrite lstrip_cons, Ec.
  - now rewrite lstrip_cons, Ec, rstrip_cons, Ec.
Qed.

Lemma strip_idem (s : string) : strip (strip s) = strip s.
Proof.
  unfold strip. now rewrite lstrip_rstrip, lstrip_idem, rstrip_idem.
Qed.

Lemma strip_lstrip (s : string) : lstrip (strip s) = strip s.
Proof. unfold strip. now rewrite lstrip_rstrip, lstrip_idem. Qed.

(** *** A change of characters that keeps blanks blank *)

Section Mapped.

Variable f : ascii -> ascii.
Hypothesis f_space : forall c, char_isspace (f c) = char_isspace c.

Lemma str_all_space_map (s : string) :
  str_all char_isspace (str_map f s) = str_all char_isspace s.
Proof.
  induction s as [|c s IH]; [reflexivity|].
  cbn [str_map str_all]. now rewrite f_space, IH.
Qed.

Lemma lstrip_map (s : string) : lstrip (str_map f s) = str_map f (lstrip s).
Proof.
  induction s as [|c s IH]; [reflexivity|].
  cbn [str_map]. rewrite !lstrip_cons, f_space.
  now destruct (char_isspace c).
Qed.

Lemma rstrip_map (s : string) : rstrip (str_map f s) = str_map f (rstrip s).
Proof.
  induction s as [|c s IH]; [reflexivity|].
  cbn [str_map]. rewrite !rstrip_cons, f_space, str_all_space_map, IH.
  now destruct (char_isspace c && str_all char_isspace s).
Qed.

Lemma strip_map (s : string) : strip (str_map f s) = str_map f (strip s).
Proof. unfold strip. now rewrite lstrip_map, rstrip_map. Qed.

End Mapped.

(** *** Letter case *)

Lemma char_lower_space (c : ascii) : char_isspace (char_lower c) = char_isspace c.
Proof. destruct c as [[] [] [] [] [] [] [] []]; reflexivity. Qed.

Lemma char_lower_idem (c : ascii) : char_lower (char_lower c) = char_lower c.
Proof. destruct c as [[] [] [] [] [] [] [] []]; reflexivity. Qed.

Lemma lower_idem (s : string) : lower (lower s) = lower s.
Proof.
  unfold lower. induction s as [|c s IH]; [reflexivity|].
  cbn [str_map]. now rewrite char_lower_idem, IH.
Qed.

Lemma strip_lower (s : string) : strip (lower s) = lower (strip s).
Proof. apply strip_map, char_lower_space. Qed.

Lemma upper_cons (c : ascii) (s : string) :
  upper (String c s) = char_upper c +:+ upper s.
Proof. reflexivity. Qed.

Lemma upper_app (a b : string) : upper (a +:+ b) = upper a +:+ upper b.
Proof.
  induction a as [|x a IH]; [reflexivity|].
  now rewrite append_cons, !upper_cons, IH, append_assoc.
Qed.

Lemma char_upper_idem (c : ascii) : upper (char_upper c) = char_upper c.
Proof. destruct c as [[] [] [] [] [] [] [] []]; reflexivity. Qed.

Lemma upper_idem (s : string) : upper (upper s) = upper s.
Proof.
  induction s as [|c s IH]; [reflexivity|].
  now rewrite upper_cons, upper_app, char_upper_idem, IH.
Qed.

(** The capital of a blank is the blank; the capital of any other
    character starts with a character that is no blank and holds none. *)
Lemma char_upper_space (c : ascii) :
  if char_isspace c then char_upper c = String c ""
  else exists x u, char_upper c = String x u
                   /\ char_isspace x = false
                   /\ str_all (fun y => negb (char_isspace y)) u = true.
Proof.
  destruct c as [[] [] [] [] [] [] [] []];
    first [reflexivity | do 2 eexists; repeat split].
Qed.

Lemma str_all_space_app (a b : string) :
  str_all char_isspace (a +:+ b)
  = str_all char_isspace a && str_all char_isspace b.
Proof.
  induction a as [|x a IH]; [reflexivity|].
  rewrite append_cons. cbn [str_all]. now rewrite IH, andb_assoc.
Qed.

Lemma str_all_space_upper (s : string) :
  str_all char_isspace (upper s) = str_all char_isspace s.
Proof.
  induction s as [|c s IH]; [reflexivity|].
  rewrite upper_cons, str_all_space_app, IH. cbn [str_all].
  pose proof (char_upper_space c) as H.
  destruct (char_isspace c) eqn:E.
  - rewrite H. cbn [str_all]. now rewrite E.
  - destruct H as [x [u [-> [Hx _]]]]. cbn [str_all]. now rewrite Hx.
Qed.

Lemma lstrip_upper (s : string) : lstrip (upper s) = upper (lstrip s).
Proof.
  induction s as [|c s IH]; [reflexivity|].
  rewrite upper_cons, lstrip_cons.
  pose proof (char_upper_space c) as H.
  destruct (char_isspace c) eqn:E.
  - rewrite H, append_cons, append_nil_l, lstrip_cons, E. exact IH.
  - destruct H as [x [u [Hc [Hx _]]]].
    rewrite upper_cons, Hc, append_cons, lstrip_cons, Hx. reflexivity.
Qed.

Lemma rstrip_app_solid (p q : string) :
  str_all (fun y => negb (char_isspace y)) p = true ->
  rstrip (p +:+ q) = p +:+ rstrip q.
Proof.
  induction p as [|x p IH]; [reflexivity|].
  cbn [str_all]. intros H. apply andb_prop in H as [Hx Hp].
  apply negb_true_iff in Hx.
  now rewrite !append_cons, rstrip_cons, Hx, (IH Hp).
Qed.

Lemma rstrip_upper (s : string) : rstrip (upper s) = upper (rstrip s).
Proof.
  induction s as [|c s IH]; [reflexivity|].
  rewrite upper_cons, (rstrip_cons c s).
  pose proof (char_upper_space c) as H.
  destruct (char_isspace c) eqn:E; cbn [andb].
  - rewrite H, append_cons, append_nil_l, rstrip_cons, E, str_all_space_upper.
    cbn [andb]. destruct (str_all char_isspace s); [reflexivity|].
    now rewrite upper_cons, H, IH.
  - destruct H as [x [u [Hc [Hx Hu]]]].
    rewrite upper_cons, <- IH. apply rstrip_app_solid.
    rewrite Hc. cbn [str_all]. now rewrite Hx, Hu.
Qed.

Lemma strip_upper (s : string) : strip (upper s) = upper (strip s).
Proof. unfold strip. now rewrite lstrip_upper, rstrip_upper. Qed.

End StringFacts.

(* ===================================================================== *)
(** ** Facts about dictionaries with any keys *)
(* ===================================================================== *)

Module KeyFacts.
Import Py Spec.

Lemma hkey_eqb_eq (a b : hkey) : hkey_eqb a b = true <-> a = b.
Proof.
  destruct a as [|x|s], b as [|y|t]; cbn [hkey_eqb];
    try (split; [discriminate | intros H; discriminate H]).
  - split; reflexivity.
  - rewrite Z.eqb_eq. split; [now intros -> | now intros [= ->]].
  - rewrite String.eqb_eq. split; [now intros -> | now intros [= ->]].
Qed.

Lemma same_key_iff (a b : pyval) :
  same_key a b = true <-> exists k, to_key a = Some k /\ to_key b = Some k.
Proof.
  unfold same_key. destruct (to_key a) as [x|], (to_key b) as [y|].
  - rewrite hkey_eqb_eq. split.
    + intros ->. now exists y.
    + intros [k [[= ->] [= ->]]]. reflexivity.
  - split; [discriminate | intros [k [_ H]]; discriminate H].
  - split; [discriminate | intros [k [H _]]; discriminate H].
  - split; [discriminate | intros [k [H _]]; discriminate H].
Qed.

Lemma same_key_refl (a : pyval) : to_key a <> None -> same_key a a = true.
Proof.
  intros H. apply same_key_iff. destruct (to_key a) as [k|]; [|now destruct H].
  now exists k.
Qed.

Lemma same_key_sym (a b : pyval) : same_key a b = same_key b a.
Proof.
  destruct (same_key a b) eqn:E, (same_key b a) eqn:E'; try reflexivity.
  - apply same_key_iff in E as [k [Ha Hb]].
    assert (same_key b a = true) by (apply same_key_iff; now exists k). congruence.
  - apply same_key_iff in E' as [k [Ha Hb]].
    assert (same_key a b = true) by (apply same_key_iff; now exists k). congruence.
Qed.

(** Two values that are the same key are the same key as the same values. *)
Lemma same_key_congr (a b c : pyval) :
  same_key a b = true -> same_key a c = same_key b c.
Proof.
  intros H. apply same_key_iff in H as [k [Ha Hb]].
  unfold same_key. now rewrite Ha, Hb.
Qed.

Lemma same_key_hashable (a b : pyval) :
  same_key a b = true -> to_key a <> None /\ to_key b <> None.
Proof.
  intros H. apply same_key_iff in H as [k [-> ->]]. split; discriminate.
Qed.

Section Dict.

Context {V : Type}.

Lemma dict_get_update (key k : pyval) (f : option V -> V) (d : pydict V) :
  dict_get k (dict_update key f d)
  = if same_key key k then Some (f (dict_get key d)) else dict_get k d.
Proof.
  induction d as [|[k0 v] d IH]; cbn [dict_update dict_get].
  - reflexivity.
  - destruct (same_key k0 key) eqn:E0; cbn [dict_get].
    + rewrite (same_key_congr k0 key k E0). now destruct (same_key key k).
    + rewrite IH. destruct (same_key k0 k) eqn:E1; [|reflexivity].
      destruct (same_key key k) eqn:E2; [|reflexivity].
      rewrite (same_key_congr k0 k key E1), same_key_sym, E2 in E0.
      discriminate E0.
Qed.

Lemma dict_get_congr (a b : pyval) (d : pydict V) :
  same_key a b = true -> dict_get a d = dict_get b d.
Proof.
  intros H. induction d as [|[k0 v] d IH]; [reflexivity|].
  cbn [dict_get]. rewrite !(same_key_sym k0).
  now rewrite (same_key_congr a b k0 H), IH.
Qed.

Lemma dict_get_unhashable (k : pyval) (d : pydict V) :
  to_key k = None -> dict_get k d = None.
Proof.
  intros H. induction d as [|[k0 v] d IH]; [reflexivity|].
  cbn [dict_get]. unfold same_key at 1. rewrite H.
  now destruct (to_key k0).
Qed.

Lemma dict_update_distinct (key : pyval) (f : option V -> V) (d : pydict V) :
  to_key key <> None -> distinct_keys d -> distinct_keys (dict_update key f d).
Proof.
  intros Hk. induction d as [|[k0 v] d IH]; cbn [dict_update distinct_keys].
  - intros _. repeat split. exact Hk.
  - intros [H0 [Hget Hd]]. destruct (same_key k0 key) eqn:E; cbn [distinct_keys].
    + repeat split; assumption.
    + repeat split; [exact H0 | | now apply IH].
      rewrite dict_get_update, same_key_sym, E. exact Hget.
Qed.

Lemma dict_get_In (k : pyval) (v : V) (d : pydict V) :
  dict_get k d = Some v -> exists k0, In (k0, v) d /\ same_key k0 k = true.
Proof.
  induction d as [|[k0 v0] d IH]; [discriminate|]. cbn [dict_get].
  destruct (same_key k0 k) eqn:E.
  - intros [= <-]. exists k0. split; [now left | exact E].
  - intros H. destruct (IH H) as [k1 [Hin Hk1]]. exists k1. split; [now right|exact Hk1].
Qed.

Lemma In_dict_get (k : pyval) (v : V) (d : pydict V) :
  distinct_keys d -> In (k, v) d -> dict_get k d = Some v.
Proof.
  induction d as [|[k0 v0] d IH]; [intros _ []|].
  cbn [distinct_keys dict_get]. intros [H0 [Hget Hd]] [[= -> ->] | Hin].
  - now rewrite same_key_refl.
  - destruct (same_key k0 k) eqn:E; [|now apply IH].
    rewrite (dict_get_congr k0 k d E), (IH Hd Hin) in Hget. discriminate Hget.
Qed.

Lemma dict_update_length (key : pyval) (f : option V -> V) (d : pydict V) :
  length (dict_update key f d)
  = match dict_get key d with
    | Some _ => length d
    | None => S (length d)
    end.
Proof.
  induction d as [|[k0 v] d IH]; [reflexivity|].
  cbn [dict_update dict_get]. destruct (same_key k0 key); [reflexivity|].
  cbn [length]. rewrite IH. now destruct (dict_get key d).
Qed.

Lemma distinct_NoDup (d : pydict V) : distinct_keys d -> List.NoDup d.
Proof.
  induction d as [|[k v] d IH]; [constructor|].
  cbn [distinct_keys]. intros [H0 [Hg Hd]]. constructor; [|now apply IH].
  intros Hin. rewrite (In_dict_get k v d Hd Hin) in Hg. discriminate Hg.
Qed.

(** Two items of a dictionary whose keys are the same key are one item. *)
Lemma distinct_same_item (d : pydict V) (k k' : pyval) (v v' : V) :
  distinct_keys d -> In (k, v) d -> In (k', v') d -> same_key k' k = true ->
  k' = k.
Proof.
  induction d as [|[k0 v0] d IH]; [intros _ []|].
  cbn [distinct_keys]. intros [H0 [Hg Hd]] [[= -> ->] | Hin] [[= -> ->] | Hin'] Hsame.
  - reflexivity.
  - rewrite same_key_sym in Hsame.
    rewrite (dict_get_congr k k' d Hsame), (In_dict_get k' v' d Hd Hin') in Hg.
    discriminate Hg.
  - rewrite (dict_get_congr k' k d Hsame), (In_dict_get k v d Hd Hin) in Hg.
    discriminate Hg.
  - now apply IH.
Qed.

Lemma In_key_hashable (d : pydict V) (k : pyval) (v : V) :
  distinct_keys d -> In (k, v) d -> to_key k <> None.
Proof.
  induction d as [|[k0 v0] d IH]; [intros _ []|].
  cbn [distinct_keys]. intros [H0 [_ Hd]] [[= -> ->] | Hin];
    [exact H0 | now apply IH].
Qed.

(** Items taken from a dictionary, each once, form a dictionary. *)
Lemma distinct_sublist (l d : pydict V) :
  distinct_keys d -> (forall x, In x l -> In x d) -> List.NoDup l ->
  distinct_keys l.
Proof.
  intros Hd. induction l as [|[k v] l IH]; intros Hl Hnd; [exact I|].
  inversion Hnd as [|? ? Hk Hnd']; subst. cbn [distinct_keys].
  assert (Hkin : In (k, v) d) by (apply Hl; now left).
  split; [exact (In_key_hashable d k v Hd Hkin)|]. split.
  - destruct (dict_get k l) as [v'|] eqn:E; [|reflexivity].
    apply dict_get_In in E as [k' [Hin' Hsame]].
    assert (Hk' : In (k', v') d) by (apply Hl; now right).
    pose proof (distinct_same_item d k k' v v' Hd Hkin Hk' Hsame) as ->.
    pose proof (In_dict_get k v d Hd Hkin) as Hg.
    rewrite (In_dict_get k v' d Hd Hk') in Hg. injection Hg as ->.
    now destruct Hk.
  - apply IH; [intros x Hx; apply Hl; now right | exact Hnd'].
Qed.

End Dict.

End KeyFacts.

(* ===================================================================== *)
(** ** Facts about llm_classifier.py *)
(* ===================================================================== *)

Module ClassifierFacts.
Import Py LlmClassifier Examples Spec.

(** A loop that keeps a property of the dictionary at every turn keeps it
    to the end. *)
Lemma fold_left_invariant {A B : Type} (P : A -> Prop) (f : A -> B -> A)
    (l : list B) (a : A) :
  (forall a' x, In x l -> P a' -> P (f a' x)) -> P a -> P (fold_left f l a).
Proof.
  revert a. induction l as [|x l IH]; intros a Hstep Ha; simpl.
  - exact Ha.
  - apply IH.
    + intros a' y Hy. apply Hstep. now right.
    + apply Hstep; [now left | exact Ha].
Qed.

(** A loop whose turn for [x] establishes a property that every turn
    keeps ends with the property, when [x] is visited. *)
Lemma fold_left_establishes {A B : Type} (P : A -> Prop) (f : A -> B -> A)
    (l : list B) (a : A) (x : B) :
  In x l ->
  (forall a', P (f a' x)) ->
  (forall a' y, P a' -> P (f a' y)) ->
  P (fold_left f l a).
Proof.
  revert a. induction l as [|y l IH]; intros a Hin Hx Hkeep; simpl.
  - destruct Hin.
  - destruct Hin as [-> | Hin].
    + apply fold_left_invariant; [intros; now apply Hkeep | apply Hx].
    + now apply IH.
Qed.

(** Every branch of the cascade ends in one of the nine categories. *)
Lemma fallback_category_standard (doc_type : string) :
  In (fallback_category doc_type) STANDARD_CATEGORIES.
Proof.
  unfold fallback_category.
  repeat match goal with
         | |- context [if ?b then _ else _] => destruct b
         end;
    unfold STANDARD_CATEGORIES; simpl; tauto.
Qed.

(** The dictionary returned for a list holds, for each of its elements,
    the category of the cascade. *)
Lemma fallback_lookup (doc_types : list string) (doc_type : string) :
  In doc_type doc_types ->
  fallback_classification doc_types !! doc_type
  = Some (fallback_category doc_type).
Proof.
  intros Hin. unfold fallback_classification.
  apply (fold_left_establishes
           (fun m : gmap string string =>
              m !! doc_type = Some (fallback_category doc_type))
           _ _ _ doc_type Hin).
  - intros m. apply lookup_insert_eq.
  - intros m y Hm. destruct (decide (y = doc_type)) as [-> | Hne].
    + apply lookup_insert_eq.
    + rewrite lookup_insert_ne; [exact Hm | exact Hne].
Qed.

(** Whatever a dictionary of the cascade holds for a key is the cascade's
    category of that key. *)
Lemma fallback_values (doc_types : list string) (doc_type category : string) :
  fallback_classification doc_types !! doc_type = Some category ->
  category = fallback_category doc_type.
Proof.
  unfold fallback_classification.
  apply (fold_left_invariant
           (fun m : gmap string string =>
              m !! doc_type = Some category ->
              category = fallback_category doc_type)).
  - intros m y _ Hm. destruct (decide (y = doc_type)) as [-> | Hne].
    + rewrite lookup_insert_eq. congruence.
    + now rewrite lookup_insert_ne.
  - now rewrite lookup_empty.
Qed.



(** C10.  A [doc_type] whose lowercased, trimmed form contains [can], and
    which none of the four earlier rules takes, is mapped to RELEASE by
    [fallback_classification], whatever the string means. *)
Theorem fallback_can_is_release (doc_types : list string) (doc_type : string) :
  In doc_type doc_types ->
  contains "can" (strip (lower doc_type)) = true ->
  is_trust_code (strip (lower doc_type)) = false ->
  is_trust_deed (strip (lower doc_type)) = false ->
  any_in mortgage_keywords (strip (lower doc_type)) = false ->
  any_in satisfaction_keywords (strip (lower doc_type)) = false ->
  fallback_classification doc_types !! doc_type = Some "RELEASE".
Proof.
  intros Hin Hcan H1 H2 H3 H4.
  rewrite (fallback_lookup _ _ Hin). f_equal.
  unfold fallback_category. rewrite H1, H2, H3, H4.
  replace (any_in cancellation_keywords (strip (lower doc_type))) with true;
    [reflexivity|].
  unfold any_in, cancellation_keywords. simpl. rewrite Hcan.
  now rewrite orb_true_r.
Qed.

(** The instance of the claim: AMERICAN is mapped to RELEASE. *)
Lemma fallback_american :
  fallback_classification ["AMERICAN"] !! "AMERICAN" = Some "RELEASE".
Proof.
  apply fallback_can_is_release; [now left | reflexivity ..].
Defined.

(** X6.  On every doc type, whatever its characters, the cascade of the
    rules ends in one of the nine standard categories. *)
Theorem cascade_category_standard (doc_type : string) :
  In (fallback_category doc_type) STANDARD_CATEGORIES.
Proof. apply fallback_category_standard. Qed.

End ClassifierFacts.

(* ===================================================================== *)
(** ** Facts about the book and page characterization *)
(* ===================================================================== *)

Module BookPageFacts.
Import Py PatternAnalyzer Spec.

(** *** The order on keys *)

Lemma str_ltb_irrefl (a : string) : str_ltb a a = false.
Proof.
  induction a as [|c a IH]; simpl; [reflexivity|].
  rewrite N.ltb_irrefl, IH. now rewrite andb_false_r.
Qed.

Lemma str_ltb_trans (a b c : string) :
  str_ltb a b = true -> str_ltb b c = true -> str_ltb a c = true.
Proof.
  revert b c. induction a as [|x a IH]; intros [|y b] [|z c]; simpl;
    try discriminate; try reflexivity.
  intros Hab Hbc.
  apply orb_true_iff in Hab. apply orb_true_iff in Hbc. apply orb_true_iff.
  destruct Hab as [Hab | Hab], Hbc as [Hbc | Hbc].
  - left. apply N.ltb_lt. apply N.ltb_lt in Hab, Hbc. lia.
  - left. apply andb_true_iff in Hbc. destruct Hbc as [Hbc _].
    apply N.eqb_eq in Hbc. now rewrite <- Hbc.
  - left. apply andb_true_iff in Hab. destruct Hab as [Hab _].
    apply N.eqb_eq in Hab. now rewrite Hab.
  - right. apply andb_true_iff in Hab. apply andb_true_iff in Hbc.
    destruct Hab as [Hxy Hab], Hbc as [Hyz Hbc].
    apply N.eqb_eq in Hxy, Hyz. apply andb_true_iff. split.
    + apply N.eqb_eq. congruence.
    + eapply IH; eassumption.
Qed.

Lemma key_ltb_irrefl (a : string) : key_ltb a a = false.
Proof.
  unfold key_ltb. rewrite Nat.ltb_irrefl, str_ltb_irrefl.
  now rewrite andb_false_r.
Qed.

Lemma key_ltb_trans (a b c : string) :
  key_ltb a b = true -> key_ltb b c = true -> key_ltb a c = true.
Proof.
  unfold key_ltb. intros Hab Hbc.
  apply orb_true_iff in Hab. apply orb_true_iff in Hbc. apply orb_true_iff.
  destruct Hab as [Hab | Hab], Hbc as [Hbc | Hbc].
  - left. apply Nat.ltb_lt. apply Nat.ltb_lt in Hab, Hbc. lia.
  - left. apply andb_true_iff in Hbc. destruct Hbc as [Hbc _].
    apply Nat.eqb_eq in Hbc. now rewrite <- Hbc.
  - left. apply andb_true_iff in Hab. destruct Hab as [Hab _].
    apply Nat.eqb_eq in Hab. now rewrite Hab.
  - right. apply andb_true_iff in Hab. apply andb_true_iff in Hbc.
    destruct Hab as [Hxy Hab], Hbc as [Hyz Hbc].
    apply Nat.eqb_eq in Hxy, Hyz. apply andb_true_iff. split.
    + apply Nat.eqb_eq. congruence.
    + eapply str_ltb_trans; eassumption.
Qed.

(** The key order is the length order first: a shorter string is below
    every longer one, whatever the digits. *)
Lemma key_ltb_shorter (a b : string) :
  (len a < len b)%nat -> key_ltb a b = true.
Proof.
  intros H. unfold key_ltb. apply Nat.ltb_lt in H. now rewrite H.
Qed.

Lemma ord_inj (x y : ascii) : ord x = ord y -> x = y.
Proof.
  unfold ord. intros H.
  rewrite <- (ascii_N_embedding x), <- (ascii_N_embedding y). now rewrite H.
Qed.

Lemma str_ltb_total (a b : string) :
  str_ltb a b = false -> str_ltb b a = false -> a = b.
Proof.
  revert b. induction a as [|x a IH]; intros [|y b] Hab Hba;
    try reflexivity; try discriminate.
  cbn [str_ltb] in Hab, Hba.
  apply orb_false_iff in Hab as [Hxy Hab], Hba as [Hyx Hba].
  apply N.ltb_ge in Hxy, Hyx.
  assert (E : ord x = ord y) by lia.
  rewrite E, N.eqb_refl in Hab, Hba. cbn [andb] in Hab, Hba.
  apply ord_inj in E. subst y. f_equal. now apply IH.
Qed.

(** The order of the keys [(len(x), x)] is total on strings. *)
Lemma key_ltb_total (a b : string) :
  key_ltb a b = false -> key_ltb b a = false -> a = b.
Proof.
  unfold key_ltb. intros Hab Hba.
  apply orb_false_iff in Hab as [Hl Hab], Hba as [Hl' Hba].
  apply Nat.ltb_ge in Hl, Hl'.
  assert (E : len a = len b) by lia.
  rewrite E, Nat.eqb_refl in Hab, Hba. cbn [andb] in Hab, Hba.
  now apply str_ltb_total.
Qed.




(** *** The scans of [min] and [max] *)

Section Scan.

(** [better x best]: the scan replaces [best] by [x]. *)
Variable better : string -> string -> bool.
Hypothesis better_irrefl : forall a, better a a = false.
Hypothesis better_trans :
  forall a b c, better a b = true -> better b c = true -> better a c = true.

Lemma scan_invariant (seen : string -> Prop) (rest : list string) (v : string) :
  (forall x, seen x -> better x v = false) ->
  let best := fold_left (fun best x => if better x best then x else best) rest v in
  (best = v \/ In best rest)
  /\ forall x, seen x \/ In x rest -> better x best = false.
Proof.
  revert seen v. induction rest as [|y rest IH]; intros seen v Hseen; simpl.
  - split; [now left|]. intros x [Hx | []]. now apply Hseen.
  - destruct (IH (fun x => seen x \/ x = y) (if better y v then y else v))
      as [Hin Hbest].
    + intros x [Hx | ->].
      * destruct (better y v) eqn:E; [|now apply Hseen].
        destruct (better x y) eqn:E'; [|reflexivity].
        rewrite <- (Hseen x Hx). symmetry. eapply better_trans; eassumption.
      * destruct (better y v) eqn:E; [apply better_irrefl | exact E].
    + split.
      * destruct Hin as [-> | Hin]; [|now right; right].
        destruct (better y v); [right; now left | now left].
      * intros x [Hx | [<- | Hx]]; apply Hbest; tauto.
Qed.

(** The scan returns an element of the list that no element beats. *)
Lemma scan_extreme (rest : list string) (v : string) :
  let best := fold_left (fun best x => if better x best then x else best) rest v in
  In best (v :: rest) /\ forall x, In x (v :: rest) -> better x best = false.
Proof.
  destruct (scan_invariant (fun x => x = v) rest v) as [Hin Hbest].
  - intros x ->. apply better_irrefl.
  - split.
    + destruct Hin as [-> | Hin]; [now left | now right].
    + intros x [<- | Hx]; apply Hbest; [now left | now right].
Qed.

End Scan.

Lemma min_by_key_least (values : list string) (v : string) :
  In v values ->
  exists lo, min_by_key values = Some lo /\ In lo values
             /\ forall x, In x values -> key_ltb x lo = false.
Proof.
  destruct values as [|w rest]; [intros []|]. intros _.
  eexists. split; [reflexivity|].
  apply (scan_extreme key_ltb key_ltb_irrefl key_ltb_trans).
Qed.

Lemma max_by_key_greatest (values : list string) (v : string) :
  In v values ->
  exists hi, max_by_key values = Some hi /\ In hi values
             /\ forall x, In x values -> key_ltb hi x = false.
Proof.
  destruct values as [|w rest]; [intros []|]. intros _.
  eexists. split; [reflexivity|].
  apply (scan_extreme (fun x best => key_ltb best x)).
  - intros a. apply key_ltb_irrefl.
  - intros a b c Hab Hbc. eapply key_ltb_trans; eassumption.
Qed.

(** Every entry of the result characterizes the values of its field, which
    are not empty. *)
Lemma analyze_book_page_entries (records : list record) (fp : field_patterns) :
  In fp (analyze_book_page_patterns records) ->
  fp = characterize (field fp) (field_values (field fp) records)
  /\ field_values (field fp) records <> [].
Proof.
  unfold analyze_book_page_patterns. intros H. apply in_app_or in H.
  destruct H as [H | H].
  - destruct (field_values "book" records) eqn:E; [destruct H|].
    destruct H as [<- | []]. simpl. rewrite E. split; [reflexivity | discriminate].
  - destruct (field_values "page" records) eqn:E; [destruct H|].
    destruct H as [<- | []]. simpl. rewrite E. split; [reflexivity | discriminate].
Qed.



(** The order is neither the numeric one nor the plain order of strings:
    with leading zeros 10 is below 007, and 9 is below 10 although the
    string 10 sorts before the string 9. *)
Example key_order_examples :
  key_ltb "10" "007" = true
  /\ key_ltb "9" "10" = true /\ str_ltb "10" "9" = true
  /\ key_ltb "99" "100" = true.
Proof. vm_compute. repeat split. Qed.

(** *** String forms *)

Lemma str_of_Z_nonempty (z : Z) : str_of_Z z <> "".
Proof.
  unfold str_of_Z. destruct (Z.to_int z) as [d | d]; simpl.
  - destruct d; simpl; discriminate.
  - discriminate.
Qed.

(** The string form of a truthy value is a truthy string. *)
Lemma str_truthy (v : pyval) : truthy v = true -> truthy (PStr (str v)) = true.
Proof.
  intros Hv. simpl. apply negb_true_iff. apply String.eqb_neq.
  destruct v as [ |b|z|s|l|d]; simpl in *; try discriminate.
  - destruct b; discriminate.
  - apply str_of_Z_nonempty.
  - apply negb_true_iff in Hv. now apply String.eqb_neq.
Qed.

Lemma get_set_field_same (name : string) (v : pyval) (r : record) :
  get name (set_field name v r) = v.
Proof.
  induction r as [|[k v'] r IH]; simpl.
  - now rewrite String.eqb_refl.
  - destruct (String.eqb k name) eqn:E; simpl; now rewrite E.
Qed.

Lemma get_set_field_other (name other : string) (v : pyval) (r : record) :
  other <> name -> get other (set_field name v r) = get other r.
Proof.
  intros Hne. induction r as [|[k v'] r IH]; simpl.
  - destruct (String.eqb name other) eqn:E; [|reflexivity].
    apply String.eqb_eq in E. congruence.
  - destruct (String.eqb k name) eqn:E; simpl.
    + apply String.eqb_eq in E. subst k.
      destruct (String.eqb name other) eqn:E'; [|reflexivity].
      apply String.eqb_eq in E'. congruence.
    + now rewrite IH.
Qed.

(** What a record contributes to the values of a field does not change
    when a truthy value of the record is replaced by its string form. *)
Lemma field_values_stringify (name field_name : string) (r : record)
    (before after : list record) :
  truthy (get name r) = true ->
  field_values field_name (before ++ stringify name r :: after)
  = field_values field_name (before ++ r :: after).
Proof.
  intros Hv. unfold field_values. rewrite !flat_map_app. f_equal. simpl. f_equal.
  unfold stringify. destruct (String.eqb field_name name) eqn:E.
  - apply String.eqb_eq in E. subst field_name.
    rewrite get_set_field_same, (str_truthy _ Hv), Hv. reflexivity.
  - apply String.eqb_neq in E. now rewrite get_set_field_other.
Qed.

(** C8, as the code has it.  Replacing a truthy [book] or [page] value (or
    the value of any field) of any record by its string representation
    leaves the result of [analyze_book_page_patterns] unchanged. *)
Theorem stringify_truthy_unchanged (name : string) (r : record)
    (before after : list record) :
  truthy (get name r) = true ->
  analyze_book_page_patterns (before ++ stringify name r :: after)
  = analyze_book_page_patterns (before ++ r :: after).
Proof.
  intros Hv. unfold analyze_book_page_patterns.
  now rewrite !(field_values_stringify name _ r before after Hv).
Qed.

Lemma stringify_truthy_example :
  analyze_book_page_patterns
    ([] ++ stringify "book" [("book", PInt 7); ("page", PInt 12)] :: [])
  = analyze_book_page_patterns ([] ++ [("book", PInt 7); ("page", PInt 12)] :: []).
Proof.
  apply stringify_truthy_unchanged. reflexivity.
Defined.

(** C8, as the claim states it, fails at the value it names: the number 0
    is falsy and is skipped, its string form is counted. *)
Lemma stringify_zero_differs :
  stringify "book" [("book", PInt 0)] = [("book", PStr "0")]
  /\ analyze_book_page_patterns [[("book", PInt 0)]] = []
  /\ analyze_book_page_patterns [stringify "book" [("book", PInt 0)]]
     = [mk_field_patterns "book" true false (Some "0") (Some "0") 1 1].
Proof. vm_compute. repeat split. Qed.

End BookPageFacts.

(* ===================================================================== *)
(** ** Facts about the instrument-number patterns *)
(* ===================================================================== *)

Module InstrumentFacts.
Import Py PatternAnalyzer Examples Spec.

#[local] Arguments Ascii.eqb : simpl nomatch.

Lemma escaped_cases (c : ascii) (P : ascii -> Prop) :
  existsb (Ascii.eqb c) escaped_chars = true ->
  Forall P escaped_chars -> P c.
Proof.
  intros H HP. apply existsb_exists in H. destruct H as [x [Hin Heq]].
  apply Ascii.eqb_eq in Heq. subst x.
  rewrite Forall_forall in HP. apply HP. now apply list_elem_of_In.
Qed.

Lemma not_escaped (c x : ascii) :
  existsb (Ascii.eqb c) escaped_chars = false ->
  In x escaped_chars -> Ascii.eqb x c = false.
Proof.
  intros H Hin. destruct (Ascii.eqb x c) eqn:E; [|reflexivity].
  apply Ascii.eqb_eq in E. subst x.
  assert (existsb (Ascii.eqb c) escaped_chars = true); [|congruence].
  apply existsb_exists. exists c. split; [exact Hin | apply Ascii.eqb_refl].
Qed.

Lemma not_alpha_neq (c x : ascii) :
  char_isalpha c = false -> char_isalpha x = true -> Ascii.eqb x c = false.
Proof.
  intros Hc Hx. destruct (Ascii.eqb x c) eqn:E; [|reflexivity].
  apply Ascii.eqb_eq in E. congruence.
Qed.

(** No pattern starts with the letter d, and no half-replaced pattern
    starts with the letter A: a backslash or a bracket that stands for
    itself is never read as the start of a token. *)
Lemma shape_head (s : string) : startswith "d" (shape s) = false.
Proof.
  destruct s as [|c s]; [reflexivity|].
  unfold shape. simpl. unfold pattern_part.
  destruct (char_isdigit c); [reflexivity|].
  destruct (char_isalpha c) eqn:Ha; [reflexivity|].
  destruct (existsb (Ascii.eqb c) escaped_chars); [reflexivity|].
  simpl. now rewrite (not_alpha_neq c "d" Ha eq_refl).
Qed.

Lemma half_head (s : string) : startswith "A" (str_concat_map half_part s) = false.
Proof.
  destruct s as [|c s]; [reflexivity|].
  simpl. unfold half_part.
  destruct (char_isdigit c); [reflexivity|].
  destruct (char_isalpha c) eqn:Ha; [reflexivity|].
  destruct (existsb (Ascii.eqb c) escaped_chars); [reflexivity|].
  simpl. now rewrite (not_alpha_neq c "A" Ha eq_refl).
Qed.

(** One character's token under the first replacement. *)
Lemma replace_digits_part (c : ascii) (rest : string) :
  startswith "d" rest = false ->
  replace_from 0 "\d" "D" (pattern_part c +:+ rest)
  = half_part c +:+ replace_from 0 "\d" "D" rest.
Proof.
  intros Hd. unfold pattern_part, half_part.
  destruct (char_isdigit c); [reflexivity|].
  destruct (char_isalpha c) eqn:Ha; [reflexivity|].
  destruct (existsb (Ascii.eqb c) escaped_chars) eqn:He.
  - pattern c. apply (escaped_cases c); [exact He|].
    repeat constructor; try reflexivity.
    (* the escaped backslash: the next character is no d *)
    destruct rest as [|x t]; [reflexivity|].
    simpl in Hd. rewrite andb_true_r in Hd. simpl. now rewrite Hd.
  - simpl. now rewrite (not_escaped c "\"%char He) by (vm_compute; tauto).
Qed.

(** The first replacement turns the token of each digit into [D] and
    changes nothing else. *)
Lemma replace_digits (s : string) :
  replace "\d" "D" (shape s) = str_concat_map half_part s.
Proof.
  unfold replace. induction s as [|c s IH]; [reflexivity|].
  unfold shape in *. simpl str_concat_map.
  rewrite replace_digits_part by apply shape_head. now rewrite IH.
Qed.

(** One character's token under the second replacement. *)
Lemma replace_letters_part (c : ascii) (rest : string) :
  startswith "A" rest = false ->
  replace_from 0 "[A-Za-z]" "L" (half_part c +:+ rest)
  = readable_part c +:+ replace_from 0 "[A-Za-z]" "L" rest.
Proof.
  intros Hd. unfold half_part, readable_part.
  destruct (char_isdigit c); [reflexivity|].
  destruct (char_isalpha c) eqn:Ha; [reflexivity|].
  destruct (existsb (Ascii.eqb c) escaped_chars) eqn:He.
  - pattern c. apply (escaped_cases c); [exact He|].
    repeat constructor; try reflexivity.
    (* the escaped bracket: the next character is no A *)
    destruct rest as [|x t]; [reflexivity|].
    simpl in Hd. rewrite andb_true_r in Hd. simpl. now rewrite Hd.
  - simpl. now rewrite (not_escaped c "[" He) by (vm_compute; tauto).
Qed.

(** The second replacement turns the token of each letter into [L] and
    changes nothing else. *)
Lemma replace_letters (s : string) :
  replace "[A-Za-z]" "L" (str_concat_map half_part s)
  = str_concat_map readable_part s.
Proof.
  unfold replace. induction s as [|c s IH]; [reflexivity|].
  simpl str_concat_map.
  rewrite replace_letters_part by apply half_head. now rewrite IH.
Qed.

(** The readable pattern of a shape has one token per character. *)
Lemma readable_shape (s : string) :
  readable_pattern (shape s) = str_concat_map readable_part s.
Proof.
  unfold readable_pattern. now rewrite replace_digits, replace_letters.
Qed.

(** *** The groups *)

Lemma assoc_group_append (key v k : string) (groups : list (string * list string)) :
  assoc k (group_append key v groups)
  = if String.eqb key k
    then Some (match assoc key groups with Some vs => vs ++ [v] | None => [v] end)
    else assoc k groups.
Proof.
  induction groups as [|[k' vs] rest IH]; simpl.
  - reflexivity.
  - destruct (String.eqb k' key) eqn:E; simpl.
    + apply String.eqb_eq in E. subst k'.
      destruct (String.eqb key k); reflexivity.
    + rewrite IH. destruct (String.eqb k' k) eqn:E'; [|reflexivity].
      apply String.eqb_eq in E'. subst k'. now rewrite String.eqb_sym, E.
Qed.

Lemma keys_group_append (key v k : string) (groups : list (string * list string)) :
  In k (map fst (group_append key v groups)) <-> k = key \/ In k (map fst groups).
Proof.
  induction groups as [|[k' vs] rest IH]; simpl.
  - intuition congruence.
  - destruct (String.eqb k' key) eqn:E; simpl.
    + apply String.eqb_eq in E. subst k'. intuition congruence.
    + rewrite IH. intuition congruence.
Qed.

Lemma keys_group_append_NoDup (key v : string) (groups : list (string * list string)) :
  List.NoDup (map fst groups) -> List.NoDup (map fst (group_append key v groups)).
Proof.
  induction groups as [|[k' vs] rest IH]; simpl; intros Hnd.
  - constructor; [intros [] | constructor].
  - inversion Hnd as [|? ? Hnotin Hrest]; subst.
    destruct (String.eqb k' key) eqn:E; simpl.
    + now constructor.
    + constructor; [|now apply IH].
      rewrite keys_group_append. intros [-> | Hin]; [|contradiction].
      now rewrite String.eqb_refl in E.
Qed.

Lemma in_assoc (groups : list (string * list string)) (k : string) (vs : list string) :
  List.NoDup (map fst groups) -> (In (k, vs) groups <-> assoc k groups = Some vs).
Proof.
  induction groups as [|[k' vs'] rest IH]; simpl; intros Hnd.
  - split; [intros [] | discriminate].
  - inversion Hnd as [|? ? Hnotin Hrest]; subst.
    destruct (String.eqb k' k) eqn:E.
    + apply String.eqb_eq in E. subst k'. split.
      * intros [[= <-] | Hin]; [reflexivity|].
        exfalso. apply Hnotin. now apply (in_map fst) in Hin.
      * intros [= <-]. now left.
    + apply String.eqb_neq in E. rewrite <- (IH Hrest). split.
      * intros [[= -> _] | Hin]; [congruence | exact Hin].
      * now right.
Qed.

Lemma pattern_groups_snoc (numbers : list string) (x : string) :
  pattern_groups (numbers ++ [x])
  = if is_bp x then pattern_groups numbers
    else group_append (shape x) x (pattern_groups numbers).
Proof. unfold pattern_groups. now rewrite fold_left_app. Qed.

Lemma group_of_snoc (numbers : list string) (x key : string) :
  group_of (numbers ++ [x]) key
  = group_of numbers key
    ++ (if negb (is_bp x) && String.eqb (shape x) key then [x] else []).
Proof. unfold group_of. rewrite List.filter_app. reflexivity. Qed.

Lemma pattern_groups_NoDup (numbers : list string) :
  List.NoDup (map fst (pattern_groups numbers)).
Proof.
  induction numbers as [|x numbers IH] using rev_ind; [constructor|].
  rewrite pattern_groups_snoc. destruct (is_bp x); [exact IH|].
  now apply keys_group_append_NoDup.
Qed.

(** The dictionary holds, under each shape that occurs, the qualifying
    numbers of that shape in input order, and no other key. *)
Lemma pattern_groups_assoc (numbers : list string) (key : string) :
  assoc key (pattern_groups numbers)
  = match group_of numbers key with
    | [] => None
    | vs => Some vs
    end.
Proof.
  induction numbers as [|x numbers IH] using rev_ind; [reflexivity|].
  rewrite pattern_groups_snoc, group_of_snoc.
  destruct (is_bp x); simpl.
  - now rewrite app_nil_r.
  - rewrite assoc_group_append. destruct (String.eqb (shape x) key) eqn:E.
    + apply String.eqb_eq in E. subst key. rewrite IH.
      destruct (group_of numbers (shape x)); reflexivity.
    + now rewrite app_nil_r.
Qed.

Lemma pattern_groups_members (numbers : list string) (key : string)
    (vs : list string) :
  In (key, vs) (pattern_groups numbers) ->
  vs = group_of numbers key /\ vs <> [].
Proof.
  intros Hin. apply (in_assoc _ _ _ (pattern_groups_NoDup numbers)) in Hin.
  rewrite pattern_groups_assoc in Hin.
  destruct (group_of numbers key); [discriminate|].
  injection Hin as <-. split; [reflexivity | discriminate].
Qed.

(** *** The order of the result *)

Lemma insert_desc_Permutation {A : Type} (key : A -> nat) (x : A) (l : list A) :
  Permutation (Num.insert_desc key x l) (x :: l).
Proof.
  induction l as [|y l IH]; simpl; [reflexivity|].
  destruct (key y <=? key x)%nat; [reflexivity|].
  rewrite IH. apply perm_swap.
Qed.

Lemma sort_desc_Permutation {A : Type} (key : A -> nat) (l : list A) :
  Permutation (Num.sort_desc key l) l.
Proof.
  induction l as [|x l IH]; simpl; [reflexivity|].
  rewrite insert_desc_Permutation. now constructor.
Qed.

(** An entry of the result is the entry of a group of the dictionary. *)
Lemma analyze_entries (records : list record) (info : pattern_info) :
  In info (analyze_instrument_patterns records) ->
  exists key vs,
    In (key, vs) (pattern_groups (instrument_numbers records))
    /\ info = group_info (qualifying_total (instrument_numbers records)) (key, vs).
Proof.
  unfold analyze_instrument_patterns.
  destruct (instrument_numbers records) as [|n numbers] eqn:E; [intros []|].
  intros Hin.
  apply (Permutation_in _ (sort_desc_Permutation _ _)) in Hin.
  apply in_map_iff in Hin. destruct Hin as [[key vs] [Heq Hin]].
  exists key, vs. split; [exact Hin | now symmetry].
Qed.

Lemma group_of_In (numbers : list string) (key v : string) :
  In v (group_of numbers key) ->
  In v numbers /\ is_bp v = false /\ shape v = key.
Proof.
  unfold group_of. intros H. apply filter_In in H. destruct H as [Hin Hsel].
  apply andb_true_iff in Hsel. destruct Hsel as [Hbp Hshape].
  apply negb_true_iff in Hbp. apply String.eqb_eq in Hshape. auto.
Qed.

(** Every qualifying number is described by an entry of the result: the
    entry of the group of its shape, which carries the expression
    generated from that shape. *)
Lemma analyze_covers (records : list record) (s : string) :
  In s (instrument_numbers records) -> is_bp s = false ->
  exists info,
    In info (analyze_instrument_patterns records)
    /\ regex info = regex_pattern (shape s)
    /\ shape (example info) = shape s.
Proof.
  intros Hin Hbp. set (numbers := instrument_numbers records) in *.
  assert (Hs : In s (group_of numbers (shape s))).
  { unfold group_of. apply filter_In. split; [exact Hin|].
    now rewrite Hbp, String.eqb_refl. }
  assert (Hg : In (shape s, group_of numbers (shape s)) (pattern_groups numbers)).
  { apply (in_assoc _ _ _ (pattern_groups_NoDup numbers)).
    rewrite pattern_groups_assoc.
    destruct (group_of numbers (shape s)); [destruct Hs | reflexivity]. }
  exists (group_info (qualifying_total numbers)
            (shape s, group_of numbers (shape s))).
  split; [|split].
  - unfold analyze_instrument_patterns. fold numbers.
    destruct numbers as [|n rest] eqn:E; [destruct Hin|].
    apply (Permutation_in _ (Permutation_sym (sort_desc_Permutation _ _))).
    now apply in_map.
  - reflexivity.
  - simpl. destruct (group_of numbers (shape s)) as [|v vs] eqn:E; [destruct Hs|].
    assert (Hv : In v (group_of numbers (shape s))) by (rewrite E; now left).
    now destruct (group_of_In _ _ _ Hv) as [_ [_ Hshape]].
Qed.

(** C1, as the code has it.  Every entry of the result describes the
    qualifying instrument numbers that share the shape of its example: its
    count is their number, and its readable pattern has one [D] for each
    digit and one [L] for each letter of the example, every other
    character standing for itself (after a backslash when escaped).  Runs
    are not collapsed. *)
Theorem readable_pattern_per_character (records : list record)
    (info : pattern_info) :
  In info (analyze_instrument_patterns records) ->
  In (example info) (instrument_numbers records)
  /\ is_bp (example info) = false
  /\ pattern info = str_concat_map readable_part (example info)
  /\ count info
     = length (group_of (instrument_numbers records) (shape (example info))).
Proof.
  intros Hin. destruct (analyze_entries _ _ Hin) as [key [vs [Hg ->]]].
  destruct (pattern_groups_members _ _ _ Hg) as [Hvs Hne].
  destruct vs as [|v vs']; [now destruct Hne|]. simpl.
  assert (Hv : In v (group_of (instrument_numbers records) key))
    by (rewrite <- Hvs; now left).
  destruct (group_of_In _ _ _ Hv) as [Hin' [Hbp Hshape]].
  repeat split; auto.
  - rewrite <- Hshape. apply readable_shape.
  - rewrite Hshape, <- Hvs. reflexivity.
Qed.

(** The instance of the claim: the ten digits give ten [D], with count 2,
    and the second group reads [LL\-DDDD], with count 1. *)
Lemma readable_pattern_three_instruments :
  let result := analyze_instrument_patterns three_instruments in
  map pattern result = ["DDDDDDDDDD"; "LL\-DDDD"]
  /\ map count result = [2; 1]
  /\ Forall
       (fun info =>
          In (example info) (instrument_numbers three_instruments)
          /\ is_bp (example info) = false
          /\ pattern info = str_concat_map readable_part (example info)
          /\ count info
             = length (group_of (instrument_numbers three_instruments)
                         (shape (example info))))
       result.
Proof.
  split; [reflexivity|]. split; [reflexivity|].
  apply Forall_forall. intros info Hin.
  apply (readable_pattern_per_character three_instruments info).
  now apply list_elem_of_In.
Defined.

(** C1, as the claim states it, fails on its own example: the readable
    patterns are not the collapsed ones. *)
Lemma readable_pattern_not_collapsed :
  let result := analyze_instrument_patterns three_instruments in
  map (fun info => (pattern info, count info)) result
  = [("DDDDDDDDDD", 2); ("LL\-DDDD", 1)]
  /\ map (fun info => (pattern info, count info)) result
     <> [("D", 2); ("LL\-D", 1)]
  /\ map (fun info => collapse_runs (pattern info)) result = ["D"; "L\-D"].
Proof.
  vm_compute. repeat split. discriminate.
Qed.

(** *** Counts and percentages *)

Lemma group_append_total (key v : string) (groups : list (string * list string)) :
  list_sum (map (fun g => length (snd g)) (group_append key v groups))
  = S (list_sum (map (fun g => length (snd g)) groups)).
Proof.
  induction groups as [|[k vs] rest IH]; simpl; [reflexivity|].
  destruct (String.eqb k key); simpl.
  - rewrite length_app. simpl. lia.
  - rewrite IH. lia.
Qed.

Lemma pattern_groups_total (numbers : list string) :
  list_sum (map (fun g => length (snd g)) (pattern_groups numbers))
  = qualifying_total numbers.
Proof.
  unfold qualifying_total.
  induction numbers as [|x numbers IH] using rev_ind; [reflexivity|].
  rewrite pattern_groups_snoc, List.filter_app, length_app. simpl.
  destruct (is_bp x); simpl; [lia|].
  rewrite group_append_total, IH. lia.
Qed.

Lemma group_append_members (key v : string) (groups : list (string * list string)) :
  Permutation (flat_map snd (group_append key v groups))
              (flat_map snd groups ++ [v]).
Proof.
  induction groups as [|[k vs] rest IH]; simpl; [reflexivity|].
  destruct (String.eqb k key); simpl.
  - rewrite <- !app_assoc. apply Permutation_app_head, Permutation_app_comm.
  - rewrite IH. now rewrite app_assoc.
Qed.

Lemma list_sum_Permutation (l l' : list nat) :
  Permutation l l' -> list_sum l = list_sum l'.
Proof. induction 1; simpl; lia. Qed.

Lemma list_sum_bound (l : list nat) (n : nat) : In n l -> (n <= list_sum l)%nat.
Proof.
  induction l as [|m l IH]; simpl; [intros []|].
  intros [-> | Hin]; [lia|]. apply IH in Hin. lia.
Qed.

(** C9, as the code has it.  The counts of the groups add up to the
    representative total, from which the numbers with the excluded prefix
    are left out; every group has at least one member, so a percentage is
    never computed against a total of zero; and each reported percentage
    is the share of its count in that total, times 100, rounded to two
    decimals on its own. *)
Theorem counts_sum_to_total (records : list record) :
  let result := analyze_instrument_patterns records in
  let total := qualifying_total (instrument_numbers records) in
  list_sum (map count result) = total
  /\ forall info, In info result ->
       (0 < count info <= total)%nat
       /\ percentage info
          = Num.round2 (Num.truediv (count info) total * 100)%float.
Proof.
  intros result total.
  assert (Hsum : list_sum (map count result) = total).
  { subst result total. unfold analyze_instrument_patterns.
    destruct (instrument_numbers records) as [|n numbers] eqn:E; [reflexivity|].
    rewrite (list_sum_Permutation _ _
               (Permutation_map count (sort_desc_Permutation count _))).
    rewrite map_map. rewrite <- pattern_groups_total.
    f_equal. apply map_ext. now intros [key vs]. }
  split; [exact Hsum|].
  intros info Hin.
  assert (Hle : (count info <= total)%nat).
  { rewrite <- Hsum. apply list_sum_bound. now apply in_map. }
  destruct (analyze_entries _ _ Hin) as [key [vs [Hg Heq]]].
  destruct (pattern_groups_members _ _ _ Hg) as [_ Hne].
  assert (Hpos : (0 < count info)%nat).
  { rewrite Heq. simpl. destruct vs; [now destruct Hne | simpl; lia]. }
  split; [lia|].
  rewrite Heq. simpl. fold total.
  replace (0 <? total)%nat with true; [reflexivity|].
  symmetry. apply Nat.ltb_lt. lia.
Qed.

(** C9, as the claim states it, fails for six numbers of six shapes: each
    share is a sixth, reported as 16.67, and the six reported percentages
    add up to more than 100, whether they are added as floats or
    exactly. *)
Lemma percentages_exceed_100 :
  let percentages := map percentage (analyze_instrument_patterns six_instruments) in
  length percentages = 6
  /\ Forall (fun p => p = (1667 / 100)%float) percentages
  /\ (100 <? Num.fsum percentages)%float = true
  /\ (100 * snd (Num.exact_sum percentages) <? fst (Num.exact_sum percentages))%Z
     = true.
Proof.
  vm_compute. repeat split. repeat constructor.
Qed.

(** *** The groups as a partition, and their expressions *)

(** X1.  The groups partition the qualifying numbers: the keys are distinct,
    each group holds exactly the qualifying numbers of its shape and is
    not empty, every qualifying number is in the group of its shape, and
    the groups together hold each occurrence once. *)
Theorem groups_partition (numbers : list string) :
  let groups := pattern_groups numbers in
  List.NoDup (map fst groups)
  /\ (forall key vs, In (key, vs) groups ->
        vs = group_of numbers key /\ vs <> [])
  /\ (forall s, In s numbers -> is_bp s = false ->
        exists vs, In (shape s, vs) groups /\ In s vs)
  /\ Permutation (flat_map snd groups)
       (List.filter (fun s => negb (is_bp s)) numbers).
Proof.
  intros groups. split; [apply pattern_groups_NoDup|].
  split; [apply pattern_groups_members|]. split.
  - intros s Hin Hbp.
    assert (Hs : In s (group_of numbers (shape s))).
    { unfold group_of. apply filter_In. split; [exact Hin|].
      now rewrite Hbp, String.eqb_refl. }
    exists (group_of numbers (shape s)). split; [|exact Hs].
    apply (in_assoc _ _ _ (pattern_groups_NoDup numbers)).
    rewrite pattern_groups_assoc.
    destruct (group_of numbers (shape s)); [destruct Hs | reflexivity].
  - subst groups.
    induction numbers as [|x numbers IH] using rev_ind; [reflexivity|].
    rewrite pattern_groups_snoc, List.filter_app. simpl.
    destruct (is_bp x); simpl.
    + now rewrite app_nil_r.
    + rewrite group_append_members. now apply Permutation_app_tail.
Qed.

(** The expressions of the end-to-end example accept the members of their
    own group and reject those of the other. *)
Example three_instruments_regex :
  let result := analyze_instrument_patterns three_instruments in
  map regex result = ["^\d{10}$"; "^[A-Za-z][A-Za-z]\-\d{4}$"]
  /\ map (fun info =>
            map (Re.accepts (regex info)) ["2020001234"; "2020001235"; "AB-0012"])
       result
     = [[Some true; Some true; Some false]; [Some false; Some false; Some true]].
Proof. vm_compute. split; reflexivity. Qed.

(** C2 at its failing inputs.  A number that starts with an accented
    letter is classified as a letter followed by a digit, and one that
    ends with a superscript digit as two digits, but the expression
    generated for either group matches ASCII letters and decimal digits
    only: it rejects the one number of its own group. *)
Theorem regex_rejects_own_group :
  let groups_of number :=
    map (fun info => (example info, regex info,
                      Re.accepts (regex info) (example info)))
      (analyze_instrument_patterns (instruments [number])) in
  groups_of accented_number
  = [(accented_number, "^[A-Za-z]\d{1}$", Some false)]
  /\ groups_of superscript_number
     = [(superscript_number, "^\d{2}$", Some false)].
Proof. vm_compute. split; reflexivity. Qed.

End InstrumentFacts.

(* ===================================================================== *)
(** ** Facts about the generated expressions *)
(* ===================================================================== *)

Module RegexFacts.
Import Py PatternAnalyzer Spec StringFacts InstrumentFacts.

#[local] Arguments Ascii.eqb : simpl nomatch.

(** *** Strings *)

Lemma join_empty_cons (p : string) (ps : list string) :
  join "" (p :: ps) = p +:+ join "" ps.
Proof. destruct ps; simpl; [now rewrite append_nil_r | reflexivity]. Qed.

Lemma shape_cons (c : ascii) (s : string) :
  shape (String c s) = pattern_part c +:+ shape s.
Proof. reflexivity. Qed.

Lemma regex_parts_start (c : ascii) (s' : string) :
  regex_parts 0 (String c s')
  = if String.eqb (slice 0 2 (String c s')) "\d" then
      let digit_count := count_run 0 "\d" 2 (String c s') in
      ("\d{" +:+ str_of_nat digit_count +:+ "}")
        :: regex_parts (2 * digit_count - 1) s'
    else if String.eqb (slice 0 9 (String c s')) "[A-Za-z]" then
      let letter_count := count_run 0 "[A-Za-z]" 9 (String c s') in
      ("[A-Za-z]{" +:+ str_of_nat letter_count +:+ "}")
        :: regex_parts (9 * letter_count - 1) s'
    else String c EmptyString :: regex_parts 0 s'.
Proof. reflexivity. Qed.

(** *** The text of the expression, character by character *)

Lemma shape_cons_head (c : ascii) (s : string) :
  exists x t, shape (String c s) = String x t.
Proof.
  rewrite shape_cons. unfold pattern_part.
  destruct (char_isdigit c); [eexists; eexists; reflexivity|].
  destruct (char_isalpha c); [eexists; eexists; reflexivity|].
  destruct (existsb _ _); eexists; eexists; reflexivity.
Qed.

(** No pattern starts with the letter d or the letter A. *)
Lemma shape_no_letter (s : string) (x : ascii) :
  char_isalpha x = true -> startswith (String x "") (shape s) = false.
Proof.
  intros Hx. destruct s as [|c s]; [reflexivity|].
  rewrite shape_cons. unfold pattern_part.
  destruct (char_isdigit c); [revert Hx; clear; intros Hx|].
  - rewrite append_cons. simpl. destruct (Ascii.eqb_spec x "\"%char); [|reflexivity].
    subst x. discriminate Hx.
  - destruct (char_isalpha c) eqn:Ha.
    + rewrite append_cons. simpl.
      destruct (Ascii.eqb_spec x "["%char); [|reflexivity].
      subst x. discriminate Hx.
    + destruct (existsb _ _).
      * rewrite append_cons. simpl.
        destruct (Ascii.eqb_spec x backslash); [|reflexivity].
        subst x. discriminate Hx.
      * rewrite append_cons. simpl.
        destruct (Ascii.eqb_spec x c); [|reflexivity]. congruence.
Qed.

Lemma body_alpha_last (c : ascii) :
  char_isdigit c = false -> char_isalpha c = true ->
  regex_body (shape (String c "")) = "[A-Za-z]{1}".
Proof.
  intros Hd Ha. rewrite shape_cons. unfold pattern_part. rewrite Hd, Ha.
  reflexivity.
Qed.

Lemma body_alpha (c : ascii) (s' : string) :
  char_isdigit c = false -> char_isalpha c = true -> s' <> "" ->
  regex_body (shape (String c s')) = "[A-Za-z]" +:+ regex_body (shape s').
Proof.
  intros Hd Ha Hne. rewrite shape_cons. unfold pattern_part. rewrite Hd, Ha.
  destruct s' as [|c' s'']; [now destruct Hne|].
  destruct (shape_cons_head c' s'') as [y [u ->]].
  unfold regex_body.
  change (regex_parts 0 ("[A-Za-z]" +:+ String y u))
    with ("[" :: "A" :: "-" :: "Z" :: "a" :: "-" :: "z" :: "]"
              :: regex_parts 0 (String y u)).
  now rewrite !join_empty_cons.
Qed.

Lemma slice_zero (u : string) : slice 0 0 u = "".
Proof. now destruct u. Qed.

Lemma digit_token (rest : string) :
  String.eqb (slice 0 2 (String "\"%char (String "d" rest))) "\d" = true.
Proof.
  change (slice 0 2 (String "\"%char (String "d" rest)))
    with (String "\"%char (String "d" (slice 0 0 rest))).
  now rewrite slice_zero.
Qed.

Lemma no_digit_token (c : ascii) (rest : string) :
  c <> "\"%char \/ startswith "d" rest = false ->
  String.eqb (slice 0 2 (String c rest)) "\d" = false.
Proof.
  intros Hd. apply String.eqb_neq.
  change (slice 0 2 (String c rest)) with (String c (slice 0 1 rest)).
  intros [= -> H]. destruct Hd as [Hd | Hd]; [now apply Hd|].
  destruct rest as [|y u]; [discriminate H|].
  change (slice 0 1 (String y u)) with (String y (slice 0 0 u)) in H.
  injection H as -> _. discriminate Hd.
Qed.

Lemma no_letter_token (c : ascii) (rest : string) :
  c <> "["%char \/ startswith "A" rest = false ->
  String.eqb (slice 0 9 (String c rest)) "[A-Za-z]" = false.
Proof.
  intros Ha. apply String.eqb_neq.
  change (slice 0 9 (String c rest)) with (String c (slice 0 8 rest)).
  intros [= -> H]. destruct Ha as [Ha | Ha]; [now apply Ha|].
  destruct rest as [|y u]; [discriminate H|].
  change (slice 0 8 (String y u)) with (String y (slice 0 7 u)) in H.
  injection H as -> _. discriminate Ha.
Qed.

(** A character that starts neither the token of a digit nor the last
    token of a letter is copied. *)
Lemma parts_literal (c : ascii) (rest : string) :
  c <> "\"%char \/ startswith "d" rest = false ->
  c <> "["%char \/ startswith "A" rest = false ->
  regex_parts 0 (String c rest) = String c "" :: regex_parts 0 rest.
Proof.
  intros Hd Ha. rewrite regex_parts_start.
  now rewrite (no_digit_token c rest Hd), (no_letter_token c rest Ha).
Qed.

Lemma escaped_not_alnum (c : ascii) :
  existsb (Ascii.eqb c) escaped_chars = true ->
  Re.ascii_alnum c = false /\ c <> "d"%char.
Proof.
  intros He. pattern c. apply (escaped_cases c); [exact He|].
  repeat constructor; discriminate.
Qed.

Lemma body_escaped (c : ascii) (s' : string) :
  char_isdigit c = false -> char_isalpha c = false ->
  existsb (Ascii.eqb c) escaped_chars = true ->
  regex_body (shape (String c s'))
  = String backslash (String c (regex_body (shape s'))).
Proof.
  intros Hd Ha He. rewrite shape_cons. unfold pattern_part. rewrite Hd, Ha, He.
  unfold regex_body. rewrite !append_cons.
  change (String backslash ("" +:+ _)) with (String "\"%char (String c (shape s'))).
  rewrite parts_literal.
  - rewrite parts_literal.
    + now rewrite !join_empty_cons.
    + right. now apply shape_no_letter.
    + right. now apply shape_no_letter.
  - right. simpl. destruct (escaped_not_alnum c He) as [_ Hne].
    destruct (Ascii.eqb_spec "d" c); [congruence | reflexivity].
  - left. discriminate.
Qed.

Lemma body_raw (c : ascii) (s' : string) :
  char_isdigit c = false -> char_isalpha c = false ->
  existsb (Ascii.eqb c) escaped_chars = false ->
  regex_body (shape (String c s')) = String c (regex_body (shape s')).
Proof.
  intros Hd Ha He. rewrite shape_cons. unfold pattern_part. rewrite Hd, Ha, He.
  unfold regex_body. rewrite append_cons.
  change ("" +:+ shape s') with (shape s').
  rewrite parts_literal.
  - now rewrite join_empty_cons.
  - left. intros ->. discriminate He.
  - left. intros ->. discriminate He.
Qed.

(** *** Runs of digits *)

Lemma count_run_start (c : ascii) (s' tok : string) (width : nat) :
  count_run 0 tok width (String c s')
  = if String.eqb (slice 0 width (String c s')) tok
    then S (count_run (width - 1) tok width s') else 0.
Proof. reflexivity. Qed.

Lemma count_run_shape (s : string) : count_run 0 "\d" 2 (shape s) = run_len s.
Proof.
  induction s as [|c s IH]; [reflexivity|].
  rewrite shape_cons. unfold pattern_part. simpl run_len.
  destruct (char_isdigit c) eqn:Hd.
  - change ("\d" +:+ shape s) with (String "\"%char (String "d" (shape s))).
    rewrite count_run_start, digit_token.
    change (count_run (2 - 1) "\d" 2 (String "d" (shape s)))
      with (count_run 0 "\d" 2 (shape s)).
    now rewrite IH.
  - destruct (char_isalpha c) eqn:Ha.
    + change ("[A-Za-z]" +:+ shape s)
        with (String "["%char ("A-Za-z]" +:+ shape s)).
      rewrite count_run_start, no_digit_token; [reflexivity|].
      left. discriminate.
    + destruct (existsb (Ascii.eqb c) escaped_chars) eqn:He.
      * rewrite !append_cons.
        change (String backslash (String c ("" +:+ shape s)))
          with (String "\"%char (String c (shape s))).
        rewrite count_run_start, no_digit_token; [reflexivity|].
        right. simpl. destruct (escaped_not_alnum c He) as [_ Hne].
        destruct (Ascii.eqb_spec "d" c); [congruence | reflexivity].
      * rewrite append_cons. change ("" +:+ shape s) with (shape s).
        rewrite count_run_start, no_digit_token; [reflexivity|].
        left. intros ->. discriminate He.
Qed.

Lemma regex_parts_after_run (s : string) :
  regex_parts (2 * run_len s) (shape s)
  = regex_parts 0 (shape (str_drop (run_len s) s)).
Proof.
  induction s as [|c s IH]; [reflexivity|].
  simpl run_len. destruct (char_isdigit c) eqn:Hd; [|reflexivity].
  rewrite shape_cons. unfold pattern_part. rewrite Hd.
  replace (2 * S (run_len s)) with (S (S (2 * run_len s))) by lia.
  exact IH.
Qed.

Lemma body_digit (c : ascii) (s' : string) :
  char_isdigit c = true ->
  regex_body (shape (String c s'))
  = ("\d{" +:+ str_of_nat (S (run_len s')) +:+ "}")
      +:+ regex_body (shape (str_drop (run_len s') s')).
Proof.
  intros Hd. unfold regex_body.
  assert (Hcount : count_run 0 "\d" 2 (shape (String c s')) = S (run_len s')).
  { rewrite count_run_shape. simpl. now rewrite Hd. }
  revert Hcount. rewrite shape_cons. unfold pattern_part. rewrite Hd.
  change ("\d" +:+ shape s') with (String "\"%char (String "d" (shape s'))).
  intros Hcount. rewrite regex_parts_start.
  rewrite digit_token. cbv zeta. rewrite Hcount.
  replace (2 * S (run_len s') - 1) with (S (2 * run_len s')) by lia.
  change (regex_parts (S (2 * run_len s')) (String "d" (shape s')))
    with (regex_parts (2 * run_len s') (shape s')).
  now rewrite regex_parts_after_run, join_empty_cons.
Qed.

(** *** Reading the count of a quantifier *)

Lemma digits_value_uint (d : Decimal.uint) (acc : nat) (rest : string) :
  Re.digits_value acc (NilEmpty.string_of_uint d +:+ String "}" rest)
  = Some (Nat.of_uint_acc d acc, rest).
Proof.
  revert acc.
  induction d as [|d IH|d IH|d IH|d IH|d IH|d IH|d IH|d IH|d IH|d IH];
    intros acc; [reflexivity|..];
    cbn [NilEmpty.string_of_uint]; rewrite append_cons;
    cbn [Re.digits_value Nat.of_uint_acc];
    match goal with
    | |- context [in_range 48 57 ?c] => change (in_range 48 57 c) with true
    end;
    cbv iota; rewrite IH, Nat.tail_mul_spec; do 3 f_equal;
    match goal with
    | |- context [N.to_nat ?x] =>
        let v := eval vm_compute in (N.to_nat x) in
        change (N.to_nat x) with v
    end; lia.
Qed.

Lemma str_of_nat_head (n : nat) :
  exists c u, str_of_nat n = String c u /\ in_range 48 57 c = true.
Proof.
  unfold str_of_nat. destruct (Nat.to_uint n); do 2 eexists; split; reflexivity.
Qed.

Lemma digits_value_str (n : nat) (rest : string) :
  Re.digits_value 0 (str_of_nat n +:+ String "}" rest) = Some (n, rest).
Proof.
  rewrite <- (DecimalNat.Unsigned.of_to n) at 2.
  unfold str_of_nat, Nat.of_uint.
  destruct (Nat.to_uint n) eqn:E; [reflexivity|..];
    rewrite <- digits_value_uint; reflexivity.
Qed.

Lemma quantifier_count (n : nat) (rest : string) :
  Re.quantifier (String "{" (str_of_nat n +:+ String "}" rest))
  = Some (Some (n, rest)).
Proof.
  assert (H := digits_value_str n rest).
  destruct (str_of_nat_head n) as [c [u [E Hc]]].
  rewrite E in *. rewrite append_cons in *.
  unfold Re.quantifier. now rewrite Hc, H.
Qed.

Lemma quantifier_none (x : ascii) (u : string) :
  x <> "{"%char -> Re.quantifier (String x u) = Some None.
Proof.
  intros H.
  destruct x as [[] [] [] [] [] [] [] []]; try reflexivity. now destruct H.
Qed.

(** *** Reading one item *)

Lemma atom_escaped (c : ascii) (rest : string) :
  existsb (Ascii.eqb c) escaped_chars = true ->
  Re.atom (String backslash (String c rest)) = Some (Re.lit c, rest).
Proof.
  intros He. pattern c. apply (escaped_cases c); [exact He|].
  repeat constructor.
Qed.

Lemma atom_raw (c : ascii) (rest : string) :
  existsb (Ascii.eqb c) escaped_chars = false ->
  Re.atom (String c rest) = Some (Re.lit c, rest).
Proof.
  destruct c as [[] [] [] [] [] [] [] []]; intros H;
    solve [reflexivity | vm_compute in H; discriminate H].
Qed.

Lemma slice_all (m : nat) (s : string) : len s <= m -> slice 0 m s = s.
Proof.
  revert m. induction s as [|c s IH]; intros m H.
  - now destruct m.
  - destruct m as [|m]; [simpl in H; lia|].
    change (slice 0 (S m) (String c s)) with (String c (slice 0 m s)).
    rewrite IH; [reflexivity | simpl in H; lia].
Qed.

Lemma atom_letter (rest : string) :
  Re.atom ("[A-Za-z]" +:+ rest) = Some (Re.RChar Re.ascii_letter, rest).
Proof.
  change ("[A-Za-z]" +:+ rest)
    with (String "["%char (String "A" (String "-" (String "Z"
            (String "a" (String "-" (String "z" (String "]" rest)))))))).
  unfold Re.atom.
  change (Ascii.eqb "[" backslash) with false.
  change (Ascii.eqb "[" "[") with true. cbv iota.
  replace (startswith "[A-Za-z]" _) with true by (now destruct rest).
  cbv iota. do 2 f_equal.
  change (slice 8 ?m (String "["%char (String "A" (String "-" (String "Z"
            (String "a" (String "-" (String "z" (String "]" rest)))))))))
    with (slice 0 m rest).
  apply slice_all. simpl. lia.
Qed.

Lemma atom_digit (rest : string) :
  Re.atom (String "\"%char (String "d" rest)) = Some (Re.digit, rest).
Proof. reflexivity. Qed.

Lemma atom_end (rest : string) : Re.atom (String "$" rest) = Some (Re.REnd, rest).
Proof. reflexivity. Qed.

Lemma compile_from_item (fuel : nat) (t s1 : string) (a : Re.rx) :
  Re.atom t = Some (a, s1) ->
  Re.quantifier s1 = Some None ->
  Re.compile_from (S fuel) t = option_map (Re.RSeq a) (Re.compile_from fuel s1).
Proof.
  intros Ha Hq. destruct t as [|c rest]; [discriminate Ha|].
  cbn [Re.compile_from]. now rewrite Ha, Hq.
Qed.

Lemma compile_from_repeat (fuel n : nat) (t s1 s2 : string) (a : Re.rx) :
  Re.atom t = Some (a, s1) ->
  Re.quantifier s1 = Some (Some (n, s2)) ->
  Re.compile_from (S fuel) t
  = option_map (Re.RSeq (Re.RRepeat n a)) (Re.compile_from fuel s2).
Proof.
  intros Ha Hq. destruct t as [|c rest]; [discriminate Ha|].
  cbn [Re.compile_from]. now rewrite Ha, Hq.
Qed.

(** *** Matching *)

Lemma matches_seq_char (p : ascii -> bool) (r : Re.rx) (caps : Re.captures)
    (t : string) :
  Re.matches (Re.RSeq (Re.RChar p) r) caps t
  = match t with
    | String x t' => if p x then Re.matches r caps t' else []
    | EmptyString => []
    end.
Proof.
  cbn [Re.matches]. destruct t as [|x t']; [reflexivity|].
  destruct (p x); simpl; [apply app_nil_r | reflexivity].
Qed.

Lemma matches_seq_eps (r : Re.rx) (caps : Re.captures) (t : string) :
  Re.matches (Re.RSeq Re.REps r) caps t = Re.matches r caps t.
Proof. cbn [Re.matches]. simpl. apply app_nil_r. Qed.

Lemma flat_map_flat_map {A B C : Type} (f : B -> list C) (g : A -> list B)
    (l : list A) :
  flat_map f (flat_map g l) = flat_map (fun x => flat_map f (g x)) l.
Proof.
  induction l as [|x l IH]; [reflexivity|].
  simpl. now rewrite flat_map_app, IH.
Qed.

Lemma matches_seq_assoc (a b c : Re.rx) (caps : Re.captures) (t : string) :
  Re.matches (Re.RSeq (Re.RSeq a b) c) caps t
  = Re.matches (Re.RSeq a (Re.RSeq b c)) caps t.
Proof. cbn [Re.matches]. apply flat_map_flat_map. Qed.

Lemma matches_end (caps : Re.captures) (t : string) :
  Re.matches (Re.RSeq Re.REnd Re.REps) caps t = ends caps (Some t).
Proof. cbn [Re.matches ends]. now destruct (Re.at_end t). Qed.

Lemma str_drop_zero (s : string) : str_drop 0 s = s.
Proof. now destruct s. Qed.

Lemma len_str_drop (n : nat) (s : string) : len (str_drop n s) <= len s.
Proof.
  revert s. induction n as [|n IH]; intros s.
  - now rewrite str_drop_zero.
  - destruct s as [|c s]; [reflexivity|].
    cbn [str_drop]. rewrite len_cons. specialize (IH s). lia.
Qed.

(** [\d{n}] for the [n] digits a number starts with, followed by the
    expression of the rest of the number. *)
Lemma matches_run (n : nat) (s : string) (r : Re.rx) :
  n <= run_len s ->
  (forall caps t, Re.matches r caps t = ends caps (fits (str_drop n s) t)) ->
  forall caps t,
    Re.matches (Re.RSeq (Re.RRepeat n Re.digit) r) caps t = ends caps (fits s t).
Proof.
  revert s. induction n as [|n IH]; intros s Hn Hr caps t.
  - cbn [Re.RRepeat]. now rewrite matches_seq_eps, Hr, str_drop_zero.
  - destruct s as [|c s]; [simpl in Hn; lia|].
    simpl in Hn. destruct (char_isdigit c) eqn:Hd; [|lia].
    cbn [Re.RRepeat]. rewrite matches_seq_assoc.
    unfold Re.digit at 1. unfold Re.range. rewrite matches_seq_char.
    change (ord "0") with 48%N. change (ord "9") with 57%N.
    cbn [fits]. unfold reads. rewrite Hd.
    destruct t as [|x t']; [reflexivity|].
    destruct (in_range 48 57 x); [|reflexivity].
    apply IH; [lia | exact Hr].
Qed.

(** *** The expression of a shape *)

(** The text that follows an item of the expression never starts a
    quantifier: an opening brace of the number is written after a
    backslash. *)
Lemma body_head (s : string) :
  exists x u, regex_body (shape s) +:+ "$" = String x u /\ x <> "{"%char.
Proof.
  destruct s as [|c s']; [exists "$"%char, ""; split; [reflexivity|discriminate]|].
  destruct (char_isdigit c) eqn:Hd.
  - rewrite (body_digit c s' Hd), !append_cons.
    do 2 eexists; split; [reflexivity|discriminate].
  - destruct (char_isalpha c) eqn:Ha.
    + destruct s' as [|c' s''].
      * rewrite (body_alpha_last c Hd Ha).
        do 2 eexists; split; [reflexivity|discriminate].
      * rewrite (body_alpha c _ Hd Ha) by discriminate. rewrite !append_cons.
        do 2 eexists; split; [reflexivity|discriminate].
    + destruct (existsb (Ascii.eqb c) escaped_chars) eqn:He.
      * rewrite (body_escaped c s' Hd Ha He), !append_cons.
        do 2 eexists; split; [reflexivity|].
        intros H. vm_compute in H. discriminate H.
      * rewrite (body_raw c s' Hd Ha He), append_cons.
        do 2 eexists; split; [reflexivity|].
        intros ->. discriminate He.
Qed.

Lemma quantifier_body (s : string) :
  Re.quantifier (regex_body (shape s) +:+ "$") = Some None.
Proof.
  destruct (body_head s) as [x [u [-> Hx]]]. now apply quantifier_none.
Qed.

Lemma digit_text (count rest : string) :
  ("\d{" +:+ count +:+ "}") +:+ rest
  = String "\"%char (String "d" (String "{" (count +:+ String "}" rest))).
Proof.
  change (("\d{" +:+ count +:+ "}") +:+ rest)
    with (String "\"%char (String "d" (String "{" ((count +:+ "}") +:+ rest)))).
  now rewrite append_assoc.
Qed.

(** The expression generated from the shape of a number is within the
    syntax read, and it matches a text in one way at most: by reading it
    item by item along the number, up to the end of the text or to a
    newline that ends it. *)
Lemma compile_shape (n : nat) (s : string) :
  len s <= n ->
  forall fuel, len (regex_body (shape s) +:+ "$") < fuel ->
  exists r,
    Re.compile_from fuel (regex_body (shape s) +:+ "$") = Some r
    /\ forall caps t, Re.matches r caps t = ends caps (fits s t).
Proof.
  revert s. induction n as [|n IH]; intros s Hlen fuel Hf.
  all: destruct s as [|c s'];
    [ change (regex_body (shape "") +:+ "$") with "$" in *;
      destruct fuel as [|[|f]]; [simpl in Hf; lia..|];
      exists (Re.RSeq Re.REnd Re.REps); split;
      [reflexivity | intros caps t; apply matches_end]
    | ].
  { simpl in Hlen. lia. }
  rewrite len_cons in Hlen.
  destruct fuel as [|f]; [lia|].
  destruct (char_isdigit c) eqn:Hd.
  - (* a run of digits *)
    rewrite (body_digit c s' Hd), append_assoc, digit_text in *.
    rewrite !len_cons, len_append, len_cons in Hf.
    destruct (IH (str_drop (run_len s') s')) with (fuel := f) as [r [Hr Hm]].
    + pose proof (len_str_drop (run_len s') s'). lia.
    + lia.
    + exists (Re.RSeq (Re.RRepeat (S (run_len s')) Re.digit) r). split.
      * rewrite (compile_from_repeat f (S (run_len s')) _ _ _ Re.digit
                   (atom_digit _) (quantifier_count _ _)).
        now rewrite Hr.
      * apply (matches_run (S (run_len s')) (String c s') r).
        -- simpl. rewrite Hd. lia.
        -- exact Hm.
  - destruct (char_isalpha c) eqn:Ha.
    + (* a letter *)
      destruct s' as [|c' s''].
      * rewrite (body_alpha_last c Hd Ha) in *.
        destruct f as [|[|f]]; [simpl in Hf; lia..|].
        exists (Re.RSeq (Re.RRepeat 1 (Re.RChar Re.ascii_letter))
                  (Re.RSeq Re.REnd Re.REps)).
        split; [reflexivity|]. intros caps t.
        cbn [Re.RRepeat]. rewrite matches_seq_assoc, matches_seq_char.
        cbn [fits]. unfold reads. rewrite Hd, Ha.
        destruct t as [|x t']; [reflexivity|].
        destruct (Re.ascii_letter x); [|reflexivity].
        now rewrite matches_seq_eps, matches_end.
      * rewrite (body_alpha c _ Hd Ha) in * by discriminate.
        rewrite append_assoc in *. rewrite len_append in Hf.
        destruct (IH (String c' s'')) with (fuel := f) as [r [Hr Hm]];
          [lia | simpl in Hf; lia |].
        exists (Re.RSeq (Re.RChar Re.ascii_letter) r). split.
        -- rewrite (compile_from_item f _ _ _ (atom_letter _)
                      (quantifier_body _)).
           now rewrite Hr.
        -- intros caps t. rewrite matches_seq_char.
           cbn [fits]. unfold reads. rewrite Hd, Ha.
           destruct t as [|x t']; [reflexivity|].
           destruct (Re.ascii_letter x); [apply Hm | reflexivity].
    + destruct (existsb (Ascii.eqb c) escaped_chars) eqn:He.
      * (* an escaped character *)
        rewrite (body_escaped c s' Hd Ha He), !append_cons in *.
        rewrite !len_cons in Hf.
        destruct (IH s') with (fuel := f) as [r [Hr Hm]]; [lia | lia |].
        exists (Re.RSeq (Re.lit c) r). split.
        -- rewrite (compile_from_item f _ _ _ (atom_escaped c _ He)
                      (quantifier_body _)).
           now rewrite Hr.
        -- intros caps t. unfold Re.lit. rewrite matches_seq_char.
           cbn [fits]. unfold reads. rewrite Hd, Ha.
           destruct t as [|x t']; [reflexivity|].
           destruct (Ascii.eqb c x); [apply Hm | reflexivity].
      * (* any other character *)
        rewrite (body_raw c s' Hd Ha He), append_cons in *.
        rewrite len_cons in Hf.
        destruct (IH s') with (fuel := f) as [r [Hr Hm]]; [lia | lia |].
        exists (Re.RSeq (Re.lit c) r). split.
        -- rewrite (compile_from_item f _ _ _ (atom_raw c _ He)
                      (quantifier_body _)).
           now rewrite Hr.
        -- intros caps t. unfold Re.lit. rewrite matches_seq_char.
           cbn [fits]. unfold reads. rewrite Hd, Ha.
           destruct t as [|x t']; [reflexivity|].
           destruct (Ascii.eqb c x); [apply Hm | reflexivity].
Qed.

(** What [re.match] answers for the expression of a shape. *)
Lemma accepts_fits (s t : string) :
  Re.accepts (regex_pattern (shape s)) t
  = Some (match fits s t with Some rest => Re.at_end rest | None => false end).
Proof.
  unfold Re.accepts, regex_pattern.
  change ("^" +:+ join "" (regex_parts 0 (shape s)) +:+ "$")
    with (String "^" (regex_body (shape s) +:+ "$")).
  unfold Re.compile.
  destruct (compile_shape (len s) s (le_n _)
              (S (len (regex_body (shape s) +:+ "$"))) (Nat.lt_succ_diag_r _))
    as [r [-> Hm]].
  unfold Re.rmatch. rewrite Hm. destruct (fits s t) as [rest|]; [|reflexivity].
  cbn [ends]. now destruct (Re.at_end rest).
Qed.

Lemma reads_self (c : ascii) : reads c c = plain_char c.
Proof. destruct c as [[] [] [] [] [] [] [] []]; reflexivity. Qed.

Lemma fits_self (s : string) : fits s s = if plain s then Some "" else None.
Proof.
  induction s as [|c s IH]; [reflexivity|].
  cbn [fits]. unfold plain. cbn [str_all]. fold (plain s).
  rewrite reads_self, IH. now destruct (plain_char c).
Qed.

Lemma letter_kind (x : ascii) :
  Re.ascii_letter x = true -> char_isdigit x = false /\ char_isalpha x = true.
Proof.
  destruct x as [[] [] [] [] [] [] [] []]; intros H;
    solve [split; reflexivity | vm_compute in H; discriminate H].
Qed.

Lemma reads_part (c x : ascii) :
  reads c x = true -> pattern_part x = pattern_part c.
Proof.
  unfold reads. destruct (char_isdigit c) eqn:Hd.
  - intros H. unfold pattern_part. rewrite Hd. unfold char_isdigit. now rewrite H.
  - destruct (char_isalpha c) eqn:Ha.
    + intros H. unfold pattern_part. rewrite Hd, Ha.
      now destruct (letter_kind x H) as [-> ->].
    + intros H. apply Ascii.eqb_eq in H. now subst x.
Qed.

Lemma fits_shape (s t rest : string) :
  fits s t = Some rest -> exists t', t = t' +:+ rest /\ shape t' = shape s.
Proof.
  revert t. induction s as [|c s IH]; intros t H.
  - injection H as ->. now exists "".
  - destruct t as [|x t]; [discriminate H|]. cbn [fits] in H.
    destruct (reads c x) eqn:Hr; [|discriminate H].
    destruct (IH t H) as [t' [-> Hs]].
    exists (String x t'). split; [reflexivity|].
    now rewrite !shape_cons, Hs, (reads_part c x Hr).
Qed.

Lemma at_end_cases (rest : string) :
  Re.at_end rest = true -> rest = "" \/ rest = String newline "".
Proof.
  unfold Re.at_end. intros H. apply orb_prop in H as [H | H];
    apply String.eqb_eq in H; auto.
Qed.

Lemma entry_regex (records : list record) (info : pattern_info) :
  In info (analyze_instrument_patterns records) ->
  regex info = regex_pattern (shape (example info)).
Proof.
  intros Hin. destruct (analyze_entries records info Hin) as [key [vs [Hg ->]]].
  destruct (pattern_groups_members _ _ _ Hg) as [Hvs Hne].
  destruct vs as [|v vs]; [now destruct Hne|].
  assert (Hv : In v (group_of (instrument_numbers records) key))
    by (rewrite <- Hvs; now left).
  destruct (group_of_In _ _ _ Hv) as [_ [_ <-]]. reflexivity.
Qed.

(** The expression generated from the shape of an instrument number whose
    digits are decimal digits and whose letters are ASCII letters matches
    that number. *)
Lemma regex_accepts_plain (s : string) :
  plain s = true -> Re.accepts (regex_pattern (shape s)) s = Some true.
Proof. intros Hp. now rewrite accepts_fits, fits_self, Hp. Qed.

(** In the result of the analysis, the entry of the group of a qualifying
    number of that kind carries an expression that matches the number. *)
Theorem group_regex_accepts_plain (records : list record) (s : string) :
  In s (instrument_numbers records) -> is_bp s = false -> plain s = true ->
  exists info,
    In info (analyze_instrument_patterns records)
    /\ shape (example info) = shape s
    /\ Re.accepts (regex info) s = Some true.
Proof.
  intros Hin Hbp Hp.
  destruct (analyze_covers records s Hin Hbp) as [info [Hi [Hr Hs]]].
  exists info. repeat split; [exact Hi | exact Hs |].
  rewrite Hr. now apply regex_accepts_plain.
Qed.

(** The instance for the first number of the end-to-end example. *)
Lemma group_regex_accepts_example :
  exists info,
    In info (analyze_instrument_patterns Examples.three_instruments)
    /\ shape (example info) = shape "2020001234"
    /\ Re.accepts (regex info) "2020001234" = Some true.
Proof.
  apply (group_regex_accepts_plain Examples.three_instruments "2020001234").
  - left. reflexivity.
  - reflexivity.
  - reflexivity.
Defined.

(** The dollar sign also matches before a newline that ends the string:
    the expression of the group of ["12"] accepts the number of the
    differently shaped group of ["12" + newline], under [re.match]. *)
Lemma regex_accepts_trailing_newline :
  let longer := "12" +:+ String newline "" in
  map (fun info => (regex info, Re.accepts (regex info) longer))
    (analyze_instrument_patterns (Examples.instruments ["12"; longer]))
  = [("^\d{2}$", Some true);
     ("^\d{2}" +:+ String newline "$", Some true)].
Proof. vm_compute. reflexivity. Qed.

(** X7.  For the numbers of this development, whose characters are the
    code points U+0000 to U+00FF: the entry of the group of a qualifying
    number carries an expression that accepts the number exactly when
    every [isdigit] character of the number is one of 0 to 9 and every
    [isalpha] character an ASCII letter.  Above U+00FF the expression
    also accepts the decimal digits of other scripts, which are outside
    these strings. *)
Theorem group_regex_accepts_own (records : list record) (s : string) :
  In s (instrument_numbers records) -> is_bp s = false ->
  exists info,
    In info (analyze_instrument_patterns records)
    /\ shape (example info) = shape s
    /\ Re.accepts (regex info) s = Some (plain s).
Proof.
  intros Hin Hbp.
  destruct (analyze_covers records s Hin Hbp) as [info [Hi [Hr Hs]]].
  exists info. repeat split; [exact Hi | exact Hs |].
  rewrite Hr, accepts_fits, fits_self. now destruct (plain s).
Qed.

(** The instance for the numbers of the end-to-end example, and for a
    number that starts with an accented letter. *)
Lemma group_regex_accepts_own_example :
  exists info,
    In info (analyze_instrument_patterns
               (Examples.instruments ["2020001234"; Examples.accented_number]))
    /\ shape (example info) = shape Examples.accented_number
    /\ Re.accepts (regex info) Examples.accented_number
       = Some (plain Examples.accented_number).
Proof.
  apply (group_regex_accepts_own
           (Examples.instruments ["2020001234"; Examples.accented_number])
           Examples.accented_number).
  - right. left. reflexivity.
  - reflexivity.
Defined.

(** X8.  An expression of the result accepts only texts of the shape of
    its group, possibly followed by one newline: the dollar sign also
    matches before a newline that ends the text. *)
Theorem group_regex_accepts_shape (records : list record) (info : pattern_info)
    (t : string) :
  In info (analyze_instrument_patterns records) ->
  Re.accepts (regex info) t = Some true ->
  exists t',
    shape t' = shape (example info)
    /\ (t = t' \/ t = t' +:+ String newline "").
Proof.
  intros Hin Hacc. rewrite (entry_regex records info Hin), accepts_fits in Hacc.
  destruct (fits (example info) t) as [rest|] eqn:Hf; [|discriminate Hacc].
  injection Hacc as Hend.
  destruct (fits_shape _ _ _ Hf) as [t' [-> Hs]].
  exists t'. split; [exact Hs|].
  destruct (at_end_cases rest Hend) as [-> | ->];
    [left; now rewrite append_nil_r | now right].
Qed.

Lemma group_regex_accepts_shape_example :
  exists t',
    shape t' = shape "AB-0012"
    /\ ("xy-9999" +:+ String newline "" = t'
        \/ "xy-9999" +:+ String newline "" = t' +:+ String newline "").
Proof.
  apply (group_regex_accepts_shape Examples.three_instruments
           (mk_pattern_info "LL\-DDDD" "^[A-Za-z][A-Za-z]\-\d{4}$" "AB-0012" 1
              (3333 / 100)%float)).
  - right. left. vm_compute. reflexivity.
  - vm_compute. reflexivity.
Defined.

End RegexFacts.

(* ===================================================================== *)
(** ** Facts about the grouping of instrument numbers *)
(* ===================================================================== *)

Module GroupingFacts.
Import Py PatternAnalyzer Spec StringFacts InstrumentFacts RegexFacts.

#[local] Arguments Ascii.eqb : simpl nomatch.

(** *** When two numbers have the same shape *)

(** The four kinds of character, with what each appends to the shape. *)
Lemma part_kinds (c : ascii) :
  (char_isdigit c = true /\ pattern_part c = "\d")
  \/ (char_isdigit c = false /\ char_isalpha c = true
      /\ pattern_part c = "[A-Za-z]")
  \/ (char_isdigit c = false /\ char_isalpha c = false
      /\ existsb (Ascii.eqb c) escaped_chars = true
      /\ pattern_part c = String "\"%char (String c ""))
  \/ (char_isdigit c = false /\ char_isalpha c = false
      /\ existsb (Ascii.eqb c) escaped_chars = false
      /\ pattern_part c = String c "").
Proof.
  unfold pattern_part.
  destruct (char_isdigit c); [now left|].
  destruct (char_isalpha c); [right; now left|].
  destruct (existsb (Ascii.eqb c) escaped_chars);
    [right; right; now left | right; right; now right].
Qed.

Lemma escaped_backslash : existsb (Ascii.eqb "\"%char) escaped_chars = true.
Proof. reflexivity. Qed.

Lemma escaped_bracket : existsb (Ascii.eqb "["%char) escaped_chars = true.
Proof. reflexivity. Qed.

(** The parts form a prefix code: the first part of a shape and the rest
    of it are determined by the shape. *)
Lemma part_prefix (c x : ascii) (rest rest' : string) :
  pattern_part c +:+ rest = pattern_part x +:+ rest' ->
  same_kind c x = true /\ rest = rest'.
Proof.
  unfold same_kind.
  destruct (part_kinds c) as [[Hd ->] | [[Hd [Ha ->]] | [[Hd [Ha [He ->]]] | [Hd [Ha [He ->]]]]]];
    destruct (part_kinds x) as [[Hd' ->] | [[Hd' [Ha' ->]] | [[Hd' [Ha' [He' ->]]] | [Hd' [Ha' [He' ->]]]]]];
    rewrite Hd, ?Ha, ?Hd', ?Ha'; rewrite ?append_cons, ?append_nil_l;
    intros H; try discriminate H.
  - injection H as ->. auto.
  - injection H as <- _. destruct (escaped_not_alnum _ He') as [_ Hne]. now destruct Hne.
  - injection H as <- _. rewrite escaped_backslash in He'. discriminate He'.
  - injection H as ->. auto.
  - injection H as <- _. rewrite escaped_bracket in He'. discriminate He'.
  - injection H as -> _. destruct (escaped_not_alnum _ He) as [_ Hne]. now destruct Hne.
  - injection H as -> ->. now rewrite Ascii.eqb_refl.
  - injection H as <- _. rewrite escaped_backslash in He'. discriminate He'.
  - injection H as -> _. rewrite escaped_backslash in He. discriminate He.
  - injection H as -> _. rewrite escaped_bracket in He. discriminate He.
  - injection H as -> _. rewrite escaped_backslash in He. discriminate He.
  - injection H as -> ->. now rewrite Ascii.eqb_refl.
Qed.

Lemma same_kind_part (c x : ascii) :
  same_kind c x = true -> pattern_part c = pattern_part x.
Proof.
  unfold same_kind, pattern_part.
  destruct (char_isdigit c); [now intros ->|].
  destruct (char_isalpha c).
  - intros H. apply andb_prop in H as [H1 ->].
    apply negb_true_iff in H1. now rewrite H1.
  - intros H. apply andb_prop in H as [H H3]. apply andb_prop in H as [H1 H2].
    apply negb_true_iff in H1, H2. apply Ascii.eqb_eq in H3. subst x.
    now rewrite H1, H2.
Qed.

Lemma part_nonempty (c : ascii) (rest : string) : pattern_part c +:+ rest <> "".
Proof.
  destruct (part_kinds c) as [[_ ->] | [[_ [_ ->]] | [[_ [_ [_ ->]]] | [_ [_ [_ ->]]]]]];
    discriminate.
Qed.

Lemma shape_eq_iff (s t : string) : shape s = shape t <-> same_kinds s t = true.
Proof.
  revert t. induction s as [|c s IH]; intros [|x t].
  - split; reflexivity.
  - rewrite shape_cons. split; [|discriminate].
    intros H. symmetry in H. now apply part_nonempty in H.
  - rewrite shape_cons. split; [|discriminate].
    intros H. now apply part_nonempty in H.
  - rewrite !shape_cons. cbn [same_kinds]. split.
    + intros H. apply part_prefix in H as [-> H]. now apply IH.
    + intros H. apply andb_prop in H as [Hk H].
      apply IH in H. now rewrite H, (same_kind_part c x Hk).
Qed.

(** X9.  Two qualifying numbers of the input are in the same group exactly
    when they have the same length and, position by position, both
    characters are digits, both are letters, or they are the same
    character. *)
Theorem same_group_iff (numbers : list string) (s t : string) :
  In s numbers -> In t numbers -> is_bp s = false -> is_bp t = false ->
  (exists key vs, In (key, vs) (pattern_groups numbers) /\ In s vs /\ In t vs)
  <-> same_kinds s t = true.
Proof.
  intros Hs Ht Hbs Hbt. rewrite <- shape_eq_iff. split.
  - intros [key [vs [Hg [Hsv Htv]]]].
    destruct (pattern_groups_members _ _ _ Hg) as [-> _].
    destruct (group_of_In _ _ _ Hsv) as [_ [_ ->]].
    now destruct (group_of_In _ _ _ Htv) as [_ [_ ->]].
  - intros Hshape. exists (shape s), (group_of numbers (shape s)).
    assert (Hin : forall u, In u numbers -> is_bp u = false ->
                    shape u = shape s -> In u (group_of numbers (shape s))).
    { intros u Hu Hbu Hus. unfold group_of. apply filter_In. split; [exact Hu|].
      rewrite Hbu, Hus. now rewrite String.eqb_refl. }
    repeat split.
    + apply (in_assoc _ _ _ (pattern_groups_NoDup numbers)).
      rewrite pattern_groups_assoc.
      destruct (group_of numbers (shape s)) eqn:E; [|reflexivity].
      destruct (Hin s Hs Hbs eq_refl).
    + now apply Hin.
    + apply Hin; auto.
Qed.

Lemma same_group_example :
  (exists key vs,
     In (key, vs) (pattern_groups ["2020001234"; "AB-0012"; "2020001235"])
     /\ In "2020001234" vs /\ In "2020001235" vs)
  <-> same_kinds "2020001234" "2020001235" = true.
Proof.
  apply (same_group_iff ["2020001234"; "AB-0012"; "2020001235"]);
    [left; reflexivity | right; right; left; reflexivity
    | reflexivity | reflexivity].
Defined.

(** *** The order of the result *)

Lemma insert_desc_In {A : Type} (key : A -> nat) (x y : A) (l : list A) :
  In y (Num.insert_desc key x l) <-> y = x \/ In y l.
Proof.
  induction l as [|z l IH]; simpl; [intuition|].
  destruct (key z <=? key x)%nat; simpl; [intuition|].
  rewrite IH. intuition.
Qed.

Lemma insert_desc_sorted {A : Type} (key : A -> nat) (x : A) (l : list A) :
  StronglySorted (fun a b => key b <= key a) l ->
  StronglySorted (fun a b => key b <= key a) (Num.insert_desc key x l).
Proof.
  induction l as [|y l IH]; intros Hs; simpl.
  - constructor; constructor.
  - apply StronglySorted_inv in Hs as [Hl Hy].
    destruct (key y <=? key x)%nat eqn:E.
    + apply Nat.leb_le in E. constructor.
      * now constructor.
      * constructor; [exact E|].
        rewrite List.Forall_forall in *. intros z Hz. specialize (Hy z Hz). lia.
    + apply Nat.leb_gt in E. constructor; [now apply IH|].
      rewrite List.Forall_forall in *. intros z Hz.
      apply insert_desc_In in Hz as [-> | Hz]; [lia | now apply Hy].
Qed.

Lemma sort_desc_sorted {A : Type} (key : A -> nat) (l : list A) :
  StronglySorted (fun a b => key b <= key a) (Num.sort_desc key l).
Proof.
  induction l as [|x l IH]; [constructor|]. now apply insert_desc_sorted.
Qed.

Lemma insert_desc_stable {A : Type} (key : A -> nat) (n : nat) (x : A)
    (l : list A) :
  List.filter (fun a => (key a =? n)%nat) (Num.insert_desc key x l)
  = List.filter (fun a => (key a =? n)%nat) (x :: l).
Proof.
  induction l as [|y l IH]; [reflexivity|].
  cbn [Num.insert_desc]. destruct (key y <=? key x)%nat eqn:E; [reflexivity|].
  apply Nat.leb_gt in E. cbn [List.filter] in *. rewrite IH.
  destruct (key x =? n)%nat eqn:Ex; [|reflexivity].
  destruct (key y =? n)%nat eqn:Ey; [|reflexivity].
  apply Nat.eqb_eq in Ex, Ey. lia.
Qed.

Lemma sort_desc_stable {A : Type} (key : A -> nat) (n : nat) (l : list A) :
  List.filter (fun a => (key a =? n)%nat) (Num.sort_desc key l)
  = List.filter (fun a => (key a =? n)%nat) l.
Proof.
  induction l as [|x l IH]; [reflexivity|].
  unfold Num.sort_desc in *. cbn [fold_right].
  rewrite insert_desc_stable. cbn [List.filter]. now rewrite IH.
Qed.

Lemma keys_group_append_order (key v : string)
    (groups : list (string * list string)) :
  map fst (group_append key v groups)
  = if existsb (String.eqb key) (map fst groups) then map fst groups
    else map fst groups ++ [key].
Proof.
  induction groups as [|[k vs] groups IH]; [reflexivity|].
  cbn [group_append map fst existsb].
  rewrite (String.eqb_sym key k).
  destruct (String.eqb k key); [reflexivity|].
  cbn [map fst orb]. rewrite IH.
  now destruct (existsb (String.eqb key) (map fst groups)).
Qed.

Lemma first_occurrences_snoc (l : list string) (x : string) :
  first_occurrences (l ++ [x])
  = if existsb (String.eqb x) (first_occurrences l) then first_occurrences l
    else first_occurrences l ++ [x].
Proof. unfold first_occurrences. now rewrite fold_left_app. Qed.

(** The groups are created in the order in which their shapes first
    occur among the qualifying numbers. *)
Lemma pattern_groups_order (numbers : list string) :
  map fst (pattern_groups numbers)
  = first_occurrences
      (map shape (List.filter (fun s => negb (is_bp s)) numbers)).
Proof.
  induction numbers as [|x numbers IH] using rev_ind; [reflexivity|].
  rewrite pattern_groups_snoc, List.filter_app, map_app. cbn [List.filter].
  destruct (is_bp x); cbn [negb map]; [now rewrite app_nil_r|].
  now rewrite first_occurrences_snoc, keys_group_append_order, IH.
Qed.

Lemma group_info_shape (total : nat) (key : string) (vs : list string)
    (numbers : list string) :
  In (key, vs) (pattern_groups numbers) ->
  shape (example (group_info total (key, vs))) = key.
Proof.
  intros Hg. destruct (pattern_groups_members _ _ _ Hg) as [Hvs Hne].
  destruct vs as [|v vs]; [now destruct Hne|].
  assert (Hv : In v (group_of numbers key)) by (rewrite <- Hvs; now left).
  now destruct (group_of_In _ _ _ Hv) as [_ [_ Hk]].
Qed.

(** X10.  The entries of the result are in non-increasing order of count;
    entries of equal count keep the order in which their groups were
    created, which is the order in which the shapes first occur among the
    qualifying numbers. *)
Theorem result_order (records : list record) :
  let numbers := instrument_numbers records in
  let result := analyze_instrument_patterns records in
  let created :=
    first_occurrences (map shape (List.filter (fun s => negb (is_bp s)) numbers)) in
  StronglySorted (fun a b => count b <= count a) result
  /\ forall n,
       map (fun info => shape (example info))
         (List.filter (fun info => (count info =? n)%nat) result)
       = List.filter
           (fun key => (length (group_of numbers key) =? n)%nat) created.
Proof.
  cbv zeta. set (numbers := instrument_numbers records).
  assert (Hres : analyze_instrument_patterns records
                 = Num.sort_desc count
                     (map (group_info (qualifying_total numbers))
                        (pattern_groups numbers))).
  { unfold analyze_instrument_patterns. fold numbers.
    now destruct numbers. }
  rewrite Hres. split; [apply sort_desc_sorted|].
  intros n. rewrite sort_desc_stable, <- pattern_groups_order.
  assert (Hall : forall g, In g (pattern_groups numbers) ->
                   In g (pattern_groups numbers)) by auto.
  revert Hall. generalize (pattern_groups numbers) at 1 3 4.
  induction l as [|[key vs] l IH]; intros Hall; [reflexivity|].
  cbn [map List.filter fst].
  assert (Hg : In (key, vs) (pattern_groups numbers)) by (apply Hall; now left).
  destruct (pattern_groups_members _ _ _ Hg) as [Hvs _].
  replace (count (group_info (qualifying_total numbers) (key, vs)))
    with (length (group_of numbers key)) by (now rewrite <- Hvs).
  destruct (length (group_of numbers key) =? n)%nat.
  - cbn [map]. rewrite (group_info_shape _ _ _ _ Hg). f_equal.
    apply IH. intros g Hin. apply Hall. now right.
  - apply IH. intros g Hin. apply Hall. now right.
Qed.

(** *** Records that do not count *)

Lemma instrument_numbers_cons (r : record) (records : list record) :
  instrument_numbers (r :: records)
  = match get "instrument_number" r with
    | PStr s => if truthy (PStr s) then [s] else []
    | _ => []
    end ++ instrument_numbers records.
Proof. reflexivity. Qed.

Lemma instrument_numbers_qualifying (records : list record) :
  instrument_numbers (List.filter qualifies records)
  = List.filter (fun s => negb (is_bp s)) (instrument_numbers records).
Proof.
  induction records as [|r records IH]; [reflexivity|].
  rewrite instrument_numbers_cons, List.filter_app, <- IH. cbn [List.filter].
  destruct (qualifies r) eqn:Q; unfold qualifies in Q.
  - rewrite instrument_numbers_cons. f_equal.
    destruct (get "instrument_number" r) as [| | |s| |]; try discriminate Q.
    apply andb_prop in Q as [Hne Hbp]. cbn [truthy]. rewrite Hne.
    cbn [List.filter]. now rewrite Hbp.
  - destruct (get "instrument_number" r) as [| | |s| |]; try reflexivity.
    cbn [truthy]. destruct (String.eqb s ""); [reflexivity|].
    cbn [negb andb] in Q. cbn [negb List.filter]. now rewrite Q.
Qed.

Lemma pattern_groups_qualifying (numbers : list string) :
  pattern_groups (List.filter (fun s => negb (is_bp s)) numbers)
  = pattern_groups numbers.
Proof.
  unfold pattern_groups. generalize (@nil (string * list string)).
  induction numbers as [|x numbers IH]; intros acc; [reflexivity|].
  cbn [List.filter fold_left]. destruct (is_bp x) eqn:E; cbn [negb fold_left].
  - apply IH.
  - rewrite E. apply IH.
Qed.

Lemma filter_idem {A : Type} (p : A -> bool) (l : list A) :
  List.filter p (List.filter p l) = List.filter p l.
Proof.
  induction l as [|x l IH]; [reflexivity|].
  cbn [List.filter]. destruct (p x) eqn:E; [|exact IH].
  cbn [List.filter]. now rewrite E, IH.
Qed.

Lemma analyze_as_sort (records : list record) :
  analyze_instrument_patterns records
  = Num.sort_desc count
      (map (group_info (qualifying_total (instrument_numbers records)))
         (pattern_groups (instrument_numbers records))).
Proof.
  unfold analyze_instrument_patterns. now destruct (instrument_numbers records).
Qed.

(** X11.  The records whose instrument number is missing, is no string, is
    empty or starts with [bp] have no effect on the result, percentages
    included; the result is empty exactly when no record qualifies. *)
Theorem unqualified_records_ignored (records : list record) :
  analyze_instrument_patterns (List.filter qualifies records)
  = analyze_instrument_patterns records
  /\ (analyze_instrument_patterns records = []
      <-> List.filter qualifies records = []).
Proof.
  assert (Heq : analyze_instrument_patterns (List.filter qualifies records)
                = analyze_instrument_patterns records).
  { rewrite !analyze_as_sort, instrument_numbers_qualifying.
    rewrite pattern_groups_qualifying.
    unfold qualifying_total. now rewrite filter_idem. }
  split; [exact Heq|]. split.
  - intros Hempty.
    destruct (List.filter qualifies records) as [|r rest] eqn:E; [reflexivity|].
    exfalso.
    assert (Hr : In r (List.filter qualifies records)) by (rewrite E; now left).
    apply filter_In in Hr as [Hr Hq]. unfold qualifies in Hq.
    destruct (get "instrument_number" r) as [| | |s| |] eqn:Eg; try discriminate Hq.
    apply andb_prop in Hq as [Hne Hbp]. apply negb_true_iff in Hne, Hbp.
    assert (Hs : In s (instrument_numbers records)).
    { unfold instrument_numbers. apply in_flat_map. exists r. split; [exact Hr|].
      rewrite Eg. cbn [truthy]. rewrite Hne. now left. }
    destruct (analyze_covers records s Hs Hbp) as [info [Hin _]].
    rewrite Hempty in Hin. destruct Hin.
  - intros Hnone. rewrite <- Heq, Hnone. reflexivity.
Qed.

End GroupingFacts.

(* ===================================================================== *)
(** ** Facts about the counts of book and page values *)
(* ===================================================================== *)

Module BookPageCounts.
Import Py PatternAnalyzer Spec BookPageFacts.

Lemma size_list_to_set_le (values : list string) :
  size (list_to_set values : gset string) <= length values.
Proof.
  induction values as [|v values IH]; [now rewrite list_to_set_nil, size_empty|].
  rewrite list_to_set_cons, size_union_alt, size_singleton. cbn [length].
  pose proof (subseteq_size (list_to_set values ∖ {[v]})
                (list_to_set values : gset string)
                (subseteq_difference_l _ _ _ (reflexivity _))).
  lia.
Qed.

Lemma size_list_to_set_pos (values : list string) (v : string) :
  In v values -> 1 <= size (list_to_set values : gset string).
Proof.
  intros Hin.
  destruct (size (list_to_set values : gset string)) eqn:E; [|lia].
  apply size_empty_iff in E.
  assert (v ∈ (list_to_set values : gset string))
    by (apply elem_of_list_to_set; now apply list_elem_of_In).
  set_solver.
Qed.

Lemma size_list_to_set_one (values : list string) (m : string) :
  In m values ->
  (size (list_to_set values : gset string) = 1
   <-> forall v, In v values -> v = m).
Proof.
  intros Hm.
  assert (Hmem : m ∈ (list_to_set values : gset string))
    by (apply elem_of_list_to_set; now apply list_elem_of_In).
  split.
  - intros Hsize v Hv.
    apply size_1_elem_of in Hsize as [x Hx].
    assert (Hvm : v ∈ (list_to_set values : gset string))
      by (apply elem_of_list_to_set; now apply list_elem_of_In).
    rewrite Hx in Hmem, Hvm. set_solver.
  - intros Hall.
    assert (Heq : (list_to_set values : gset string) ≡ {[m]}).
    { intros x. rewrite elem_of_list_to_set, elem_of_singleton. split.
      - intros Hx. apply Hall. now apply list_elem_of_In.
      - now intros ->; apply list_elem_of_In. }
    now rewrite Heq, size_singleton.
Qed.

Lemma field_values_length (name : string) (records : list record) :
  length (field_values name records)
  = length (List.filter (fun r => truthy (get name r)) records).
Proof.
  induction records as [|r records IH]; [reflexivity|].
  unfold field_values in *. cbn [flat_map List.filter].
  rewrite length_app, IH. now destruct (truthy (get name r)).
Qed.

Lemma forallb_existsb_negb {A : Type} (p : A -> bool) (l : list A) :
  existsb (fun x => negb (p x)) l = negb (forallb p l).
Proof.
  induction l as [|x l IH]; [reflexivity|].
  cbn [existsb forallb]. rewrite IH. now destruct (p x).
Qed.

(** X12.  In every entry, has_letters is the negation of is_numeric: it
    says that some value is not a string of digits, whether or not the
    value has a letter; is_numeric holds exactly when every value is a
    string of digits. *)
Theorem has_letters_not_numeric (records : list record) (fp : field_patterns) :
  In fp (analyze_book_page_patterns records) ->
  has_letters fp = negb (is_numeric fp)
  /\ (is_numeric fp = true
      <-> forall v, In v (field_values (field fp) records) -> isdigit v = true).
Proof.
  intros Hin. destruct (analyze_book_page_entries records fp Hin) as [Hfp _].
  rewrite Hfp. unfold characterize. cbn [has_letters is_numeric field]. split.
  - apply forallb_existsb_negb.
  - apply forallb_forall.
Qed.

Lemma has_letters_example :
  has_letters (characterize "book" ["12-3"]) = negb (is_numeric (characterize "book" ["12-3"]))
  /\ (is_numeric (characterize "book" ["12-3"]) = true
      <-> forall v, In v (field_values "book" [[("book", PStr "12-3")]]) ->
                    isdigit v = true).
Proof.
  apply (has_letters_not_numeric [[("book", PStr "12-3")]]
           (characterize "book" ["12-3"])).
  left. reflexivity.
Defined.

(** X13.  In every entry, total_count is the number of records whose
    value of the field is truthy, unique_count lies between 1 and
    total_count, and unique_count is 1 exactly when min_value and
    max_value are the same. *)
Theorem book_page_counts (records : list record) (fp : field_patterns) :
  In fp (analyze_book_page_patterns records) ->
  total_count fp
  = length (List.filter (fun r => truthy (get (field fp) r)) records)
  /\ 1 <= unique_count fp <= total_count fp
  /\ (unique_count fp = 1 <-> min_value fp = max_value fp).
Proof.
  intros Hin. destruct (analyze_book_page_entries records fp Hin) as [Hfp Hne].
  set (values := field_values (field fp) records) in *.
  rewrite Hfp. unfold characterize.
  cbn [total_count unique_count min_value max_value field].
  assert (Hex : exists v0, In v0 values)
    by (destruct values; [now destruct Hne | eexists; now left]).
  destruct Hex as [v0 Hv0].
  destruct (min_by_key_least values v0 Hv0) as [lo [Hlo [Hlo_in Hlo_least]]].
  destruct (max_by_key_greatest values v0 Hv0) as [hi [Hhi [Hhi_in Hhi_most]]].
  split; [apply field_values_length|]. split.
  - split; [now apply (size_list_to_set_pos values v0)
           | apply size_list_to_set_le].
  - rewrite Hlo, Hhi. rewrite (size_list_to_set_one values lo Hlo_in). split.
    + intros Hall. f_equal. symmetry. now apply Hall.
    + intros [= <-] v Hv.
      apply key_ltb_total; [now apply Hlo_least | now apply Hhi_most].
Qed.

Lemma book_page_counts_example :
  let records := map (fun v => [("book", PStr v)]) ["7"; "7"; ""] in
  total_count (characterize "book" ["7"; "7"])
  = length (List.filter (fun r => truthy (get "book" r)) records)
  /\ 1 <= unique_count (characterize "book" ["7"; "7"])
     <= total_count (characterize "book" ["7"; "7"])
  /\ (unique_count (characterize "book" ["7"; "7"]) = 1
      <-> min_value (characterize "book" ["7"; "7"])
          = max_value (characterize "book" ["7"; "7"])).
Proof.
  apply (book_page_counts (map (fun v => [("book", PStr v)]) ["7"; "7"; ""])
           (characterize "book" ["7"; "7"])).
  left. reflexivity.
Defined.

End BookPageCounts.

(* ===================================================================== *)
(** ** Facts about the rules of the classifier and about names *)
(* ===================================================================== *)

Module RuleFacts.
Import Py Utils LlmClassifier Spec StringFacts ClassifierFacts.

(** *** [normalize_name] *)

Lemma rstrip_empty_iff (s : string) :
  rstrip s = "" <-> str_all char_isspace s = true.
Proof.
  destruct s as [|c s]; [split; reflexivity|].
  rewrite rstrip_cons. cbn [str_all].
  destruct (char_isspace c && str_all char_isspace s);
    split; try reflexivity; discriminate.
Qed.

Lemma lstrip_all_space (s : string) :
  str_all char_isspace (lstrip s) = str_all char_isspace s.
Proof.
  induction s as [|c s IH]; [reflexivity|].
  rewrite lstrip_cons. destruct (char_isspace c) eqn:E; [|reflexivity].
  cbn [str_all]. now rewrite E.
Qed.

Lemma strip_empty_iff (s : string) :
  strip s = "" <-> str_all char_isspace s = true.
Proof. unfold strip. now rewrite rstrip_empty_iff, lstrip_all_space. Qed.

Lemma upper_empty_iff (s : string) : upper s = "" <-> s = "".
Proof.
  destruct s as [|c s]; [split; reflexivity|].
  rewrite upper_cons. split; [|discriminate].
  pose proof (char_upper_space c) as H. destruct (char_isspace c).
  - rewrite H. discriminate.
  - destruct H as [x [u [-> _]]]. discriminate.
Qed.

(** X14.  A normalized name is a fixed point of the normalization: it has
    no blank at either end and its capitals are itself; the result is
    empty exactly when the name is empty or all blanks. *)
Theorem normalize_name_idempotent (name : string) :
  normalize_name (normalize_name name) = normalize_name name
  /\ strip (normalize_name name) = normalize_name name
  /\ upper (normalize_name name) = normalize_name name
  /\ (normalize_name name = "" <-> str_all char_isspace name = true).
Proof.
  unfold normalize_name. destruct (String.eqb name "") eqn:E.
  - apply String.eqb_eq in E. subst name. repeat split.
  - assert (Hs : strip (upper (strip name)) = upper (strip name))
      by (now rewrite strip_upper, strip_idem).
    repeat split.
    + destruct (String.eqb (upper (strip name)) "") eqn:E'.
      * apply String.eqb_eq in E'. now rewrite E'.
      * now rewrite Hs, upper_idem.
    + exact Hs.
    + apply upper_idem.
    + intros H. now apply strip_empty_iff, upper_empty_iff.
    + intros H. now apply upper_empty_iff, strip_empty_iff.
Qed.

(** *** The rules *)

Lemma fallback_category_text (d d' : string) :
  strip (lower d) = strip (lower d') ->
  fallback_category d = fallback_category d'.
Proof. intros H. unfold fallback_category. now rewrite H. Qed.

(** X15.  The rules read the doc type in lower case and without the blanks
    around it: a doc type, its lower-case form and its stripped form
    receive the same category. *)
Theorem cascade_ignores_case_and_blanks (doc_type : string) :
  fallback_category (lower doc_type) = fallback_category doc_type
  /\ fallback_category (strip doc_type) = fallback_category doc_type.
Proof.
  split; apply fallback_category_text.
  - now rewrite lower_idem.
  - now rewrite strip_lower, strip_idem, <- strip_lower.
Qed.

(** A list of keywords that all hold one of them tests for that one. *)
Lemma any_in_short (keywords : list string) (k t : string) :
  In k keywords ->
  forallb (contains k) keywords = true ->
  any_in keywords t = contains k t.
Proof.
  intros Hk Hall. unfold any_in. destruct (contains k t) eqn:E.
  - apply existsb_exists. now exists k.
  - destruct (existsb (fun keyword => contains keyword t) keywords) eqn:E';
      [|reflexivity].
    apply existsb_exists in E' as [kw [Hkw Hc]].
    rewrite forallb_forall in Hall.
    now rewrite (contains_trans k kw t (Hall kw Hkw) Hc) in E.
Qed.

Lemma any_in_cons (k : string) (keywords : list string) (t : string) :
  any_in (k :: keywords) t = contains k t || any_in keywords t.
Proof. reflexivity. Qed.

Lemma satisfaction_short (t : string) :
  any_in satisfaction_keywords t = contains "sat" t.
Proof. apply any_in_short; [right; now left | reflexivity]. Qed.

Lemma cancellation_short (t : string) :
  any_in cancellation_keywords t = contains "can" t.
Proof. apply any_in_short; [right; now left | reflexivity]. Qed.

Lemma release_short (t : string) :
  any_in release_keywords t = contains "rel" t.
Proof. apply any_in_short; [right; now left | reflexivity]. Qed.

Lemma orb_absorb (a b : bool) : (b = true -> a = true) -> a || b = a.
Proof. destruct a, b; intuition. Qed.

Lemma mortgage_short (t : string) :
  any_in mortgage_keywords t
  = contains "mortgage" t || contains "mtg" t || contains "morg" t.
Proof.
  unfold mortgage_keywords. rewrite !any_in_cons. cbn [any_in existsb].
  destruct (contains "mtge" t) eqn:E.
  - rewrite (contains_trans "mtg" "mtge" t eq_refl E).
    now destruct (contains "mortgage" t).
  - now destruct (contains "mortgage" t), (contains "mtg" t),
      (contains "morg" t).
Qed.

Lemma plat_short (t : string) :
  any_in plat_keywords t = contains "plat" t || contains "map" t.
Proof.
  unfold plat_keywords. rewrite !any_in_cons. cbn [any_in existsb].
  rewrite orb_false_r.
  destruct (contains "plat" t) eqn:Ep; [reflexivity|].
  destruct (contains "map" t) eqn:Em; [now rewrite !orb_true_r|].
  cbn [orb].
  destruct (contains "map plat" t) eqn:E1;
    [now rewrite (contains_trans "map" "map plat" t eq_refl E1) in Em|].
  destruct (contains "map/r" t) eqn:E2;
    [now rewrite (contains_trans "map" "map/r" t eq_refl E2) in Em|].
  destruct (contains "subdivision plat" t) eqn:E3;
    [now rewrite (contains_trans "plat" "subdivision plat" t eq_refl E3) in Ep|].
  reflexivity.
Qed.

Lemma assignment_short (t : string) :
  any_in assignment_keywords t = contains "asign" t || contains "assign" t.
Proof.
  unfold assignment_keywords. rewrite !any_in_cons. cbn [any_in existsb].
  rewrite orb_false_r.
  destruct (contains "assignment" t) eqn:E; [|reflexivity].
  rewrite (contains_trans "assign" "assignment" t eq_refl E). now rewrite orb_true_r.
Qed.

Lemma trustee_in_trust (t : string) :
  contains "trust" t || contains "trustee" t = contains "trust" t.
Proof.
  apply orb_absorb. intros H. exact (contains_trans "trust" "trustee" t eq_refl H).
Qed.

(** X16.  The category of the rules is the one given by the deciding tests
    alone.  The keywords that hold a shorter keyword of their list
    (satisfaction, cancellation, release, mtge, map plat, assignment and
    the like), the tests for trustee beside trust, the EASEMENT arm under
    the deed keywords, the MORTGAGE arm under the assignment keywords and
    the tests for powers of attorney and notices never change the
    result. *)
Theorem cascade_reduced (doc_type : string) :
  fallback_category doc_type = cascade (strip (lower doc_type)).
Proof.
  unfold fallback_category, cascade. set (t := strip (lower doc_type)).
  rewrite satisfaction_short, cancellation_short, release_short,
    mortgage_short, plat_short, assignment_short, !trustee_in_trust.
  destruct (is_trust_code t); [reflexivity|].
  destruct (is_trust_deed t); [reflexivity|]. cbn [orb].
  destruct (contains "mortgage" t) eqn:Emo; [reflexivity|].
  destruct (contains "mtg" t) eqn:Emt; [reflexivity|].
  destruct (contains "morg" t); [reflexivity|]. cbn [orb].
  destruct (contains "sat" t); [reflexivity|].
  destruct (contains "can" t); [reflexivity|].
  destruct (contains "rel" t); [reflexivity|]. cbn [orb].
  destruct (contains "lien" t || str_in t ["judgment"; "judgement"]);
    [reflexivity|].
  destruct (contains "plat" t || contains "map" t); [reflexivity|].
  destruct (contains "lease" t); [reflexivity|].
  destruct (any_in trustee_keywords t); [reflexivity|].
  destruct (contains "easement" t) eqn:Ee; [reflexivity|]. cbn [orb].
  destruct (contains "right of way" t); [reflexivity|].
  destruct (any_in deed_keywords t); [reflexivity|].
  destruct (contains "asign" t || contains "assign" t); [reflexivity|].
  destruct (any_in attorney_keywords t); [reflexivity|].
  destruct (any_in notice_keywords t); reflexivity.
Qed.

(** X17.  A doc type is RELEASE exactly when its lowered and stripped text
    passes the tests for deeds of trust and for mortgages and holds one of
    the three letter groups sat, can and rel, anywhere and inside any
    word. *)
Theorem release_iff (doc_type : string) :
  let t := strip (lower doc_type) in
  fallback_category doc_type = "RELEASE"
  <-> is_trust_code t = false /\ is_trust_deed t = false
      /\ any_in mortgage_keywords t = false
      /\ contains "sat" t || contains "can" t || contains "rel" t = true.
Proof.
  cbv zeta. unfold fallback_category. set (t := strip (lower doc_type)).
  rewrite satisfaction_short, cancellation_short, release_short.
  destruct (is_trust_code t); [split; [discriminate | intros [H _]; discriminate H]|].
  destruct (is_trust_deed t);
    [split; [discriminate | intros [_ [H _]]; discriminate H]|].
  destruct (any_in mortgage_keywords t);
    [split; [discriminate | intros [_ [_ [H _]]]; discriminate H]|].
  destruct (contains "sat" t); [now repeat split|].
  destruct (contains "can" t); [now repeat split|].
  destruct (contains "rel" t); [now repeat split|]. cbn [orb].
  split; [|intros [_ [_ [_ H]]]; discriminate H].
  intros H. exfalso.
  destruct (contains "lien" t || str_in t ["judgment"; "judgement"]);
    [discriminate H|].
  destruct (any_in plat_keywords t); [discriminate H|].
  destruct (contains "lease" t); [discriminate H|].
  destruct (any_in trustee_keywords t); [discriminate H|].
  destruct (contains "easement" t || contains "right of way" t); [discriminate H|].
  destruct (any_in deed_keywords t).
  { destruct (contains "trust" t || contains "trustee" t); [discriminate H|].
    destruct (contains "easement" t); discriminate H. }
  destruct (any_in assignment_keywords t).
  { destruct (contains "mortgage" t || contains "mtg" t); [discriminate H|].
    destruct (contains "trust" t || contains "trustee" t); discriminate H. }
  destruct (any_in attorney_keywords t); [discriminate H|].
  destruct (any_in notice_keywords t); discriminate H.
Qed.

End RuleFacts.

(* ===================================================================== *)
(** ** Facts about the dates *)
(* ===================================================================== *)

Module DateFacts.
Import Py Datetime Utils PatternAnalyzer Examples.

(** *** [parse_date] signals failure by [None] *)

Lemma checked_int_raises (s : string) (e : exn) :
  checked_int s = Raise e -> is_ValueError e = true.
Proof.
  unfold checked_int. destruct (_ && _); [discriminate|]. now intros [= <-].
Qed.

Lemma bind_raises {A B : Type} (r : result A) (k : A -> result B) (e : exn) :
  (r ≫= k) = Raise e ->
  r = Raise e \/ exists a, r = Ok a /\ k a = Raise e.
Proof.
  destruct r as [a|e']; simpl; intros H; [right; eauto | left].
  now injection H as ->.
Qed.

Lemma parse_offset_raises (z : string) (e : exn) :
  parse_offset z = Raise e -> is_ValueError e = true.
Proof.
  unfold parse_offset. destruct (String.eqb z "Z"); [discriminate|].
  destruct (_ && negb _); [now intros [= <-]|].
  intros H.
  repeat match type of H with
         | (_ ≫= _) = Raise _ =>
             apply bind_raises in H; destruct H as [H | [? [_ H]]]
         | checked_int _ = Raise _ => exact (checked_int_raises _ _ H)
         | (if ?b then _ else _) = Raise _ => destruct b
         | Ok _ = Raise _ => discriminate H
         end.
Qed.

Lemma fields_to_datetime_raises (caps : Re.captures) (e : exn) :
  fields_to_datetime caps = Raise e -> is_ValueError e = true.
Proof.
  unfold fields_to_datetime. intros H.
  apply bind_raises in H. destruct H as [H | [tz [_ H]]].
  - destruct (Re.group "z" caps) as [z|]; [|discriminate].
    apply bind_raises in H. destruct H as [H | [? [_ H]]]; [|discriminate].
    exact (parse_offset_raises _ _ H).
  - unfold construct in H. destruct (valid _); [discriminate|].
    now injection H as <-.
Qed.

(** [strptime] raises nothing but [ValueError] on a string. *)
Lemma strptime_raises (data_string format : string) (e : exn) :
  strptime data_string format = Raise e -> is_ValueError e = true.
Proof.
  unfold strptime. destruct (Utils.pattern format); [|now intros [= <-]].
  destruct (Re.rmatch _ _) as [[caps rest]|]; [|now intros [= <-]].
  destruct (String.eqb rest ""); [|now intros [= <-]].
  apply fields_to_datetime_raises.
Qed.

Lemma try_formats_returns (date_str : string) (fmts : list string) :
  exists r, try_formats date_str fmts = Ok r.
Proof.
  induction fmts as [|fmt rest IH]; simpl; [eauto|].
  destruct (strptime date_str fmt) as [dt|e] eqn:E; [eauto|].
  now rewrite (strptime_raises _ _ _ E).
Qed.

(** X2.  On every string [parse_date] returns, a date or [None], provided
    [dateutil] raises nothing but [ImportError] and [ValueError]. *)
Lemma parse_date_returns (dateutil_parse : string -> result datetime)
    (date_str : string) :
  (forall e, dateutil_parse date_str = Raise e ->
             is_ImportError e || is_ValueError e = true) ->
  exists r, parse_date dateutil_parse date_str = Ok r.
Proof.
  intros Hdu. unfold parse_date.
  destruct (String.eqb date_str ""); [eauto|].
  destruct (try_formats_returns date_str formats) as [r ->]. simpl.
  destruct r as [iso|]; [eauto|].
  destruct (dateutil_parse date_str) as [dt|e] eqn:E; [eauto|].
  rewrite (Hdu e eq_refl). eauto.
Qed.

Lemma parse_date_returns_junk :
  exists r, parse_date no_dateutil "not a date" = Ok r.
Proof.
  apply parse_date_returns. intros e [= <-]. reflexivity.
Defined.

(** *** The future-date test *)

Section FutureDate.

Variable dateutil_parse : string -> result datetime.
Variable today : datetime.

(** What the [try] block does for a naive date against a naive [today]. *)
Lemma try_block_naive (parsed_date : string) (dt : datetime)
    (dates : list datetime) (anoms : list anomaly) :
  (if contains "T" parsed_date
   then fromisoformat (replace "Z" "+00:00" parsed_date)
   else fromisoformat parsed_date) = Ok dt ->
  tzinfo dt = None -> tzinfo today = None ->
  try_block today parsed_date (dates, anoms)
  = Ok (dates ++ [dt],
        (anoms
           ++ (if (wall_us today <? wall_us dt)%Z
                  && (1 <? timedelta_days (wall_us dt - wall_us today))%Z
               then [future_date parsed_date
                       (timedelta_days (wall_us dt - wall_us today))]
               else []))
          ++ (if (Datetime.year dt <? 1800)%Z
              then [very_old_date parsed_date (Datetime.year dt)] else [])).
Proof.
  intros Hiso Hdt Htoday. unfold try_block. rewrite Hiso.
  cbn [mbind result_bind bind].
  unfold gt, sub, comparable. rewrite Hdt, Htoday.
  cbn [mbind result_bind bind mret result_ret fst snd].
  destruct (wall_us today <? wall_us dt)%Z;
    cbn [mbind result_bind bind mret result_ret andb].
  - destruct (1 <? timedelta_days _)%Z;
      destruct (Datetime.year dt <? 1800)%Z; now rewrite ?app_nil_r.
  - destruct (Datetime.year dt <? 1800)%Z; now rewrite ?app_nil_r.
Qed.

(** The whole-day count exceeds 1 exactly from two full days on. *)
Lemma days_ahead_threshold (delta : Z) :
  (1 <? timedelta_days delta)%Z = true <-> (2 * day_us <= delta)%Z.
Proof.
  unfold timedelta_days, day_us. rewrite Z.ltb_lt.
  split; intros H; Z.div_mod_to_equations; lia.
Qed.

(** C4, as the code has it.  For a record whose date string parses, and
    parses again from its ISO form, to a naive date, the turn of the loop
    appends the date to [dates] and appends a [future_date] anomaly
    exactly when the date is at least two whole days after [today]: the
    test is on the whole-day part of the difference, not on the
    difference itself. *)
Theorem future_date_from_two_days (r : record) (date_str parsed_date : string)
    (dt : datetime) (dates : list datetime) (anoms : list anomaly) :
  get "date" r = PStr date_str ->
  parse_date dateutil_parse date_str = Ok (Some parsed_date) ->
  (if contains "T" parsed_date
   then fromisoformat (replace "Z" "+00:00" parsed_date)
   else fromisoformat parsed_date) = Ok dt ->
  tzinfo dt = None -> tzinfo today = None ->
  exists added,
    date_step dateutil_parse today (dates, anoms) r
    = Ok (dates ++ [dt], anoms ++ added)
    /\ ((exists days_ahead, In (future_date parsed_date days_ahead) added)
        <-> (2 * day_us <= wall_us dt - wall_us today)%Z)
    /\ (forall days_ahead, In (future_date parsed_date days_ahead) added ->
          days_ahead = timedelta_days (wall_us dt - wall_us today)).
Proof.
  intros Hget Hparse Hiso Hdt Htoday.
  assert (Hne : String.eqb date_str "" = false).
  { destruct (String.eqb date_str "") eqn:E; [|reflexivity].
    unfold parse_date in Hparse. rewrite E in Hparse. discriminate. }
  unfold date_step. rewrite Hget.
  change (truthy (PStr date_str)) with (negb (String.eqb date_str "")).
  rewrite Hne. cbn [negb]. rewrite Hparse.
  cbn [mbind result_bind bind].
  rewrite (try_block_naive _ _ _ _ Hiso Hdt Htoday).
  rewrite <- app_assoc. eexists. split; [reflexivity|].
  set (delta := (wall_us dt - wall_us today)%Z).
  assert (Hlater : (2 * day_us <= delta)%Z ->
                   (wall_us today <? wall_us dt)%Z = true).
  { intros H. apply Z.ltb_lt. subst delta. unfold day_us in H. lia. }
  destruct (1 <? timedelta_days delta)%Z eqn:Edays.
  - assert (Hd : (2 * day_us <= delta)%Z) by now apply days_ahead_threshold.
    rewrite (Hlater Hd). cbn [andb]. split.
    + split; [auto|]. intros _. eexists. now left.
    + intros d [[= <-] | Hin]; [reflexivity|].
      destruct (Datetime.year dt <? 1800)%Z; [|destruct Hin].
      destruct Hin as [Hin | []]. discriminate.
  - assert (Hd : ~ (2 * day_us <= delta)%Z).
    { intros H. apply days_ahead_threshold in H. congruence. }
    rewrite andb_false_r. cbn [app]. split.
    + split; [|tauto]. intros [d Hin].
      destruct (Datetime.year dt <? 1800)%Z; [|destruct Hin].
      destruct Hin as [Hin | []]. discriminate.
    + intros d Hin.
      destruct (Datetime.year dt <? 1800)%Z; [|destruct Hin].
      destruct Hin as [Hin | []]. discriminate.
Qed.

End FutureDate.

(** The instance of the claim that holds: a date exactly two days ahead
    is flagged. *)
Lemma future_date_two_days :
  exists added,
    date_step no_dateutil new_year ([], []) (dated "2024-01-03")
    = Ok ([] ++ [mk_datetime 2024 1 3 0 0 0 0 None], [] ++ added)
    /\ ((exists days_ahead, In (future_date "2024-01-03T00:00:00" days_ahead) added)
        <-> (2 * day_us
             <= wall_us (mk_datetime 2024 1 3 0 0 0 0 None) - wall_us new_year)%Z)
    /\ (forall days_ahead,
          In (future_date "2024-01-03T00:00:00" days_ahead) added ->
          days_ahead
          = timedelta_days
              (wall_us (mk_datetime 2024 1 3 0 0 0 0 None) - wall_us new_year)).
Proof.
  apply (future_date_from_two_days no_dateutil new_year
           (dated "2024-01-03") "2024-01-03" "2024-01-03T00:00:00");
    vm_compute; reflexivity.
Defined.

(** The summaries of the three dates of the claim and of one between
    them: two days ahead is flagged, twelve hours ahead is not, and
    neither is thirty-six hours ahead. *)
Example future_date_summaries :
  map (fun date => analyze_date_ranges no_dateutil new_year [dated date])
    ["2024-01-03T00:00:00"; "2024-01-01T12:00:00"; "2024-01-02T12:00:00"]
  = [Ok (mk_date_range (Some "2024-01-03T00:00:00") (Some "2024-01-03T00:00:00")
           [future_date "2024-01-03T00:00:00" 2]);
     Ok (mk_date_range (Some "2024-01-01T12:00:00") (Some "2024-01-01T12:00:00") []);
     Ok (mk_date_range (Some "2024-01-02T12:00:00") (Some "2024-01-02T12:00:00") [])].
Proof. vm_compute. reflexivity. Qed.

(** C4, as the claim states it, fails for a date thirty-six hours ahead:
    it is strictly more than one day after the current instant and no
    anomaly is recorded. *)
Lemma future_date_day_and_a_half :
  parse_date no_dateutil "2024-01-02T12:00:00" = Ok (Some "2024-01-02T12:00:00")
  /\ fromisoformat "2024-01-02T12:00:00" = Ok (mk_datetime 2024 1 2 12 0 0 0 None)
  /\ (day_us <? wall_us (mk_datetime 2024 1 2 12 0 0 0 None) - wall_us new_year)%Z
     = true
  /\ analyze_date_ranges no_dateutil new_year [dated "2024-01-02T12:00:00"]
     = Ok (mk_date_range (Some "2024-01-02T12:00:00") (Some "2024-01-02T12:00:00")
             []).
Proof. vm_compute. repeat split. Qed.

(** The year test: 1799 is flagged, 1800 is not. *)
Example very_old_date_boundary :
  map (fun date =>
         match analyze_date_ranges no_dateutil new_year [dated date] with
         | Ok summary => Some (anomalies summary)
         | Raise _ => None
         end)
    ["1799-12-31"; "1800-01-01"]
  = [Some [very_old_date "1799-12-31T00:00:00" 1799]; Some []].
Proof. vm_compute. reflexivity. Qed.

(** *** Dates with a UTC offset *)

(** C5 at its failing input.  A date string with a UTC offset parses to an
    aware date; comparing it with the naive [today] raises [TypeError],
    which the handler of the loop does not catch: whatever [dateutil] does
    and whatever the current instant, [analyze_date_ranges] raises and
    returns no summary. *)
Theorem aware_date_raises (dateutil_parse : string -> result datetime)
    (y mo d h mi s us : Z) :
  parse_date dateutil_parse "2024-01-01T00:00:00+00:00"
  = Ok (Some "2024-01-01T00:00:00+00:00")
  /\ analyze_date_ranges dateutil_parse (mk_datetime y mo d h mi s us None)
       [dated "2024-01-01T00:00:00+00:00"]
     = Raise (TypeError "can't compare offset-naive and offset-aware datetimes").
Proof. vm_compute. split; reflexivity. Qed.

(** The same with the letter Z for the offset. *)
Example zulu_date_raises :
  analyze_date_ranges no_dateutil new_year [dated "2024-01-01T00:00:00Z"]
  = Raise (TypeError "can't compare offset-naive and offset-aware datetimes").
Proof. vm_compute. reflexivity. Qed.

End DateFacts.

(* ===================================================================== *)
(** ** Facts about the summary of the dates *)
(* ===================================================================== *)

Module RangeFacts.
Import Py Datetime Utils PatternAnalyzer Spec DateFacts.

Lemma fromisoformat_raises (date_string : string) (e : exn) :
  fromisoformat date_string = Raise e -> is_ValueError e = true.
Proof.
  unfold fromisoformat.
  destruct (Re.rmatch iso_rx date_string) as [[caps [|c rest]]|];
    try (now intros [= <-]).
  destruct (fields_to_datetime caps); [discriminate | now intros [= <-]].
Qed.

Lemma from_iso_raises (parsed_date : string) (e : exn) :
  from_iso parsed_date = Raise e -> is_ValueError e = true.
Proof.
  unfold from_iso. destruct (contains "T" parsed_date); apply fromisoformat_raises.
Qed.

Section Ranges.

Variable dateutil_parse : string -> result datetime.
Variable today : datetime.

(** [datetime.now()] returns a date without offset. *)
Hypothesis today_naive : tzinfo today = None.

Lemma try_block_cases (parsed_date : string) (st : list datetime * list anomaly) :
  try_block today parsed_date st
  = match from_iso parsed_date with
    | Ok dt =>
        match tzinfo dt with
        | None => Ok (fst st ++ [dt], snd st ++ flags today parsed_date dt)
        | Some _ =>
            Raise (TypeError "can't compare offset-naive and offset-aware datetimes")
        end
    | Raise e => Raise e
    end.
Proof.
  destruct st as [dates anoms].
  destruct (from_iso parsed_date) as [dt|e] eqn:Hiso.
  - destruct (tzinfo dt) as [off|] eqn:Htz.
    + unfold try_block. fold (from_iso parsed_date). rewrite Hiso.
      cbn [mbind result_bind bind]. unfold gt, comparable.
      now rewrite Htz, today_naive.
    + rewrite (try_block_naive today parsed_date dt dates anoms Hiso Htz today_naive).
      unfold flags. cbn [fst snd]. now rewrite app_assoc.
  - unfold try_block. fold (from_iso parsed_date). now rewrite Hiso.
Qed.

(** One turn of the loop, in closed form. *)
Lemma date_step_cases (st : list datetime * list anomaly) (r : record) :
  date_step dateutil_parse today st r
  = if date_passes dateutil_parse r
    then Ok (fst st ++ entry_dates (date_entry dateutil_parse r),
             snd st ++ entry_anomalies today (date_entry dateutil_parse r))
    else match date_step dateutil_parse today st r with
         | Ok st' => Ok st'
         | Raise e => Raise e
         end.
Proof.
  unfold date_step, date_passes, date_entry.
  destruct (truthy (get "date" r)) eqn:Ht; cbn [negb].
  2:{ destruct (get "date" r) as [| | |s| |]; cbn [entry_dates entry_anomalies];
        rewrite ?app_nil_r; try (now destruct st).
      cbn [truthy] in Ht. apply negb_false_iff, String.eqb_eq in Ht. subst s.
      unfold parse_date. cbn [String.eqb entry_dates entry_anomalies].
      rewrite !app_nil_r. now destruct st. }
  destruct (get "date" r) as [| | |s| |]; try reflexivity.
  destruct (parse_date dateutil_parse s) as [[iso|]|e]; cbn [mbind result_bind bind];
    [| cbn [entry_dates entry_anomalies]; rewrite !app_nil_r; now destruct st
     | reflexivity].
  rewrite try_block_cases.
  destruct (from_iso iso) as [dt|e] eqn:Hiso.
  - destruct (tzinfo dt); reflexivity.
  - rewrite (from_iso_raises _ _ Hiso).
    cbn [orb entry_dates entry_anomalies]. now rewrite app_nil_r.
Qed.

Lemma date_step_fails (st : list datetime * list anomaly) (r : record) :
  date_passes dateutil_parse r = false ->
  exists e, date_step dateutil_parse today st r = Raise e.
Proof.
  unfold date_step, date_passes.
  destruct (truthy (get "date" r)); [|discriminate]. cbn [negb].
  destruct (get "date" r) as [| | |s| |]; try (intros _; eexists; reflexivity).
  destruct (parse_date dateutil_parse s) as [[iso|]|e]; cbn [mbind result_bind bind];
    try discriminate; [|intros _; eexists; reflexivity].
  rewrite try_block_cases.
  destruct (from_iso iso) as [dt|e]; [|discriminate].
  destruct (tzinfo dt); [|discriminate]. intros _. eexists. reflexivity.
Qed.

Lemma date_loop_cases (records : list record) (st : list datetime * list anomaly) :
  if forallb (date_passes dateutil_parse) records
  then date_loop dateutil_parse today st records
       = Ok (fst st ++ flat_map (fun r => entry_dates (date_entry dateutil_parse r))
                         records,
             snd st ++ flat_map (fun r => entry_anomalies today
                                            (date_entry dateutil_parse r))
                         records)
  else exists e, date_loop dateutil_parse today st records = Raise e.
Proof.
  revert st. induction records as [|r records IH]; intros st.
  - cbn [forallb date_loop flat_map]. rewrite !app_nil_r. now destruct st.
  - cbn [forallb date_loop flat_map].
    destruct (date_passes dateutil_parse r) eqn:Hr; cbn [andb].
    + rewrite date_step_cases, Hr. cbn [mbind result_bind bind].
      specialize (IH (fst st ++ entry_dates (date_entry dateutil_parse r),
                      snd st ++ entry_anomalies today (date_entry dateutil_parse r))).
      destruct (forallb (date_passes dateutil_parse) records).
      * rewrite IH. cbn [fst snd]. now rewrite <- !app_assoc.
      * exact IH.
    + destruct (date_step_fails st r Hr) as [e He]. rewrite He.
      exists e. reflexivity.
Qed.

Lemma entry_dates_naive (r : record) (d : datetime) :
  date_passes dateutil_parse r = true ->
  In d (entry_dates (date_entry dateutil_parse r)) -> tzinfo d = None.
Proof.
  unfold date_passes, date_entry.
  destruct (get "date" r) as [| | |s| |]; cbn [entry_dates]; try (intros _ []).
  cbn [truthy]. destruct (String.eqb s "") eqn:Es; cbn [negb].
  - apply String.eqb_eq in Es. subst s. intros _ [].
  - destruct (parse_date dateutil_parse s) as [[iso|]|e]; cbn [entry_dates];
      try (intros _ []).
    destruct (from_iso iso) as [dt|e]; cbn [entry_dates]; [|intros _ []].
    destruct (tzinfo dt) eqn:E; [discriminate|].
    intros _ [<- | []]. exact E.
Qed.

(** [min] and [max] over dates without offset. *)
Lemma extreme_naive (cmp : Z -> Z -> bool) (better : datetime -> datetime -> result bool)
    (rest : list datetime) (best : datetime) :
  (forall a b, tzinfo a = None -> tzinfo b = None ->
               better a b = Ok (cmp (wall_us a) (wall_us b))) ->
  tzinfo best = None -> (forall d, In d rest -> tzinfo d = None) ->
  exists x,
    extreme better best rest = Ok x
    /\ x = fold_left (fun best d => if cmp (wall_us d) (wall_us best) then d else best)
             rest best.
Proof.
  intros Hb. revert best. induction rest as [|d rest IH]; intros best Hbest Hrest.
  - exists best. split; reflexivity.
  - cbn [extreme fold_left]. rewrite Hb; [|apply Hrest; now left | exact Hbest].
    cbn [mbind result_bind bind]. apply IH.
    + destruct (cmp _ _); [apply Hrest; now left | exact Hbest].
    + intros d' Hd'. apply Hrest. now right.
Qed.

Lemma lt_naive (a b : datetime) :
  tzinfo a = None -> tzinfo b = None ->
  lt a b = Ok (wall_us a <? wall_us b)%Z.
Proof. intros Ha Hb. unfold lt, comparable. now rewrite Ha, Hb. Qed.

Lemma gt_naive (a b : datetime) :
  tzinfo a = None -> tzinfo b = None ->
  gt a b = Ok (wall_us b <? wall_us a)%Z.
Proof. intros Ha Hb. unfold gt, comparable. now rewrite Ha, Hb. Qed.

Lemma scan_least (rest : list datetime) (best : datetime) :
  let lo := fold_left (fun best d => if (wall_us d <? wall_us best)%Z then d else best)
              rest best in
  In lo (best :: rest)
  /\ forall d, In d (best :: rest) -> (wall_us lo <= wall_us d)%Z.
Proof.
  revert best. induction rest as [|x rest IH]; intros best; cbn [fold_left].
  - split; [now left|]. intros d [<- | []]. lia.
  - destruct (IH (if (wall_us x <? wall_us best)%Z then x else best)) as [Hin Hle].
    split.
    + destruct Hin as [Hin | Hin]; [|right; now right].
      rewrite <- Hin. destruct (wall_us x <? wall_us best)%Z; [right|]; now left.
    + intros d [<- | [<- | Hd]].
      * specialize (Hle _ (or_introl eq_refl)).
        destruct (wall_us x <? wall_us best)%Z eqn:E; [apply Z.ltb_lt in E|]; lia.
      * specialize (Hle _ (or_introl eq_refl)).
        destruct (wall_us x <? wall_us best)%Z eqn:E; [|apply Z.ltb_ge in E]; lia.
      * apply Hle. now right.
Qed.

Lemma scan_greatest (rest : list datetime) (best : datetime) :
  let hi := fold_left (fun best d => if (wall_us best <? wall_us d)%Z then d else best)
              rest best in
  In hi (best :: rest)
  /\ forall d, In d (best :: rest) -> (wall_us d <= wall_us hi)%Z.
Proof.
  revert best. induction rest as [|x rest IH]; intros best; cbn [fold_left].
  - split; [now left|]. intros d [<- | []]. lia.
  - destruct (IH (if (wall_us best <? wall_us x)%Z then x else best)) as [Hin Hle].
    split.
    + destruct Hin as [Hin | Hin]; [|right; now right].
      rewrite <- Hin. destruct (wall_us best <? wall_us x)%Z; [right|]; now left.
    + intros d [<- | [<- | Hd]].
      * specialize (Hle _ (or_introl eq_refl)).
        destruct (wall_us best <? wall_us x)%Z eqn:E; [apply Z.ltb_lt in E|]; lia.
      * specialize (Hle _ (or_introl eq_refl)).
        destruct (wall_us best <? wall_us x)%Z eqn:E; [|apply Z.ltb_ge in E]; lia.
      * apply Hle. now right.
Qed.

(** X20.  The analysis returns a summary exactly when every record gets
    past the loop: its date is missing or falsy, or it is a string from
    which [parse_date] returns and that does not give a date with a UTC
    offset.  Any other record (a date that is a number or a list, a date
    with an offset, an exception of [dateutil] that [parse_date] does not
    catch) makes the analysis raise. *)
Theorem summary_iff_dates_pass (records : list record) :
  (exists summary,
     analyze_date_ranges dateutil_parse today records = Ok summary)
  <-> forallb (date_passes dateutil_parse) records = true.
Proof.
  unfold analyze_date_ranges.
  pose proof (date_loop_cases records ([], [])) as Hloop.
  destruct (forallb (date_passes dateutil_parse) records) eqn:Hall.
  - split; [reflexivity|]. intros _. rewrite Hloop.
    cbn [mbind result_bind bind fst snd app].
    set (dates := flat_map _ records).
    assert (Hnaive : forall d, In d dates -> tzinfo d = None).
    { intros d Hd. apply in_flat_map in Hd as [r [Hr Hd]].
      rewrite forallb_forall in Hall. exact (entry_dates_naive r d (Hall r Hr) Hd). }
    destruct dates as [|d rest]; [eexists; reflexivity|].
    destruct (extreme_naive Z.ltb lt rest d lt_naive) as [lo [-> _]];
      [apply Hnaive; now left | intros x Hx; apply Hnaive; now right |].
    destruct (extreme_naive (fun a b => (b <? a)%Z) gt rest d gt_naive)
      as [hi [-> _]];
      [apply Hnaive; now left | intros x Hx; apply Hnaive; now right |].
    eexists. reflexivity.
  - split; [|discriminate]. intros [summary Hs]. destruct Hloop as [e He].
    rewrite He in Hs. discriminate Hs.
Qed.

(** X5.  In a summary the anomalies follow the records in input order.  A
    record gives none when its date is missing, falsy or not found by
    [parse_date]; a parse_error when the text returned by [parse_date] is
    not read back; else a future_date when the date is two whole days or
    more after the current instant, followed by a very_old_date when its
    year is before 1800. *)
Theorem anomalies_in_record_order (records : list record) (summary : date_range) :
  analyze_date_ranges dateutil_parse today records = Ok summary ->
  anomalies summary
  = flat_map (fun r => entry_anomalies today (date_entry dateutil_parse r)) records.
Proof.
  intros Hs.
  assert (Hall : forallb (date_passes dateutil_parse) records = true).
  { pose proof (date_loop_cases records ([], [])) as Hloop.
    destruct (forallb (date_passes dateutil_parse) records); [reflexivity|].
    destruct Hloop as [e He]. unfold analyze_date_ranges in Hs.
    rewrite He in Hs. discriminate Hs. }
  pose proof (date_loop_cases records ([], [])) as Hloop. rewrite Hall in Hloop.
  unfold analyze_date_ranges in Hs. rewrite Hloop in Hs.
  cbn [mbind result_bind bind fst snd app] in Hs.
  destruct (flat_map (fun r => entry_dates (date_entry dateutil_parse r)) records)
    as [|d rest]; [now injection Hs as <-|].
  destruct (extreme lt d rest); [|discriminate Hs].
  cbn [mbind result_bind bind] in Hs.
  destruct (extreme gt d rest); [|discriminate Hs].
  now injection Hs as <-.
Qed.

(** X21.  In a summary, earliest and latest are both absent when no record
    gives a date; otherwise they are the ISO texts of two of the dates
    read, no date read being before the earliest or after the latest. *)
Theorem earliest_and_latest (records : list record) (summary : date_range) :
  analyze_date_ranges dateutil_parse today records = Ok summary ->
  let dates :=
    flat_map (fun r => entry_dates (date_entry dateutil_parse r)) records in
  match dates with
  | [] => earliest summary = None /\ latest summary = None
  | _ =>
      exists lo hi,
        In lo dates /\ In hi dates
        /\ earliest summary = Some (isoformat lo)
        /\ latest summary = Some (isoformat hi)
        /\ forall d, In d dates ->
             (wall_us lo <= wall_us d <= wall_us hi)%Z
  end.
Proof.
  intros Hs.
  assert (Hall : forallb (date_passes dateutil_parse) records = true).
  { pose proof (date_loop_cases records ([], [])) as Hloop.
    destruct (forallb (date_passes dateutil_parse) records); [reflexivity|].
    destruct Hloop as [e He]. unfold analyze_date_ranges in Hs.
    rewrite He in Hs. discriminate Hs. }
  pose proof (date_loop_cases records ([], [])) as Hloop. rewrite Hall in Hloop.
  unfold analyze_date_ranges in Hs. rewrite Hloop in Hs.
  cbn [mbind result_bind bind fst snd app] in Hs. cbv zeta.
  set (dates := flat_map _ records) in *.
  assert (Hnaive : forall d, In d dates -> tzinfo d = None).
  { intros d Hd. apply in_flat_map in Hd as [r [Hr Hd]].
    rewrite forallb_forall in Hall. exact (entry_dates_naive r d (Hall r Hr) Hd). }
  destruct dates as [|d rest]; [now injection Hs as <-|].
  destruct (extreme_naive Z.ltb lt rest d lt_naive) as [lo [Hlo Elo]];
    [apply Hnaive; now left | intros x Hx; apply Hnaive; now right |].
  destruct (extreme_naive (fun a b => (b <? a)%Z) gt rest d gt_naive)
    as [hi [Hhi Ehi]];
    [apply Hnaive; now left | intros x Hx; apply Hnaive; now right |].
  rewrite Hlo, Hhi in Hs. cbn [mbind result_bind bind] in Hs.
  injection Hs as <-. cbn [earliest latest].
  destruct (scan_least rest d) as [Hlo_in Hlo_le].
  destruct (scan_greatest rest d) as [Hhi_in Hhi_le].
  rewrite <- Elo in Hlo_in, Hlo_le. rewrite <- Ehi in Hhi_in, Hhi_le.
  exists lo, hi. repeat split; auto.
Qed.

End Ranges.

Lemma summary_iff_dates_pass_example :
  (exists summary,
     analyze_date_ranges Examples.no_dateutil Examples.new_year Examples.four_dates
     = Ok summary)
  <-> forallb (date_passes Examples.no_dateutil) Examples.four_dates = true.
Proof.
  apply (summary_iff_dates_pass Examples.no_dateutil Examples.new_year eq_refl
           Examples.four_dates).
Defined.

Lemma anomalies_in_record_order_example :
  anomalies Examples.four_dates_summary
  = flat_map
      (fun r => entry_anomalies Examples.new_year
                  (date_entry Examples.no_dateutil r))
      Examples.four_dates.
Proof.
  apply (anomalies_in_record_order Examples.no_dateutil Examples.new_year eq_refl
           Examples.four_dates Examples.four_dates_summary).
  vm_compute. reflexivity.
Defined.

Lemma earliest_and_latest_example :
  let dates :=
    flat_map (fun r => entry_dates (date_entry Examples.no_dateutil r))
      Examples.four_dates in
  match dates with
  | [] => earliest Examples.four_dates_summary = None
          /\ latest Examples.four_dates_summary = None
  | _ =>
      exists lo hi,
        In lo dates /\ In hi dates
        /\ earliest Examples.four_dates_summary = Some (isoformat lo)
        /\ latest Examples.four_dates_summary = Some (isoformat hi)
        /\ forall d, In d dates ->
             (wall_us lo <= wall_us d <= wall_us hi)%Z
  end.
Proof.
  apply (earliest_and_latest Examples.no_dateutil Examples.new_year eq_refl
           Examples.four_dates Examples.four_dates_summary).
  vm_compute. reflexivity.
Defined.

End RangeFacts.

(* ===================================================================== *)
(** ** Facts about the doc types of a county *)
(* ===================================================================== *)

Module DocTypeFacts.
Import Py PatternAnalyzer Spec KeyFacts GroupingFacts InstrumentFacts.

(** *** Counters *)

Lemma Counter_cases (values : list pyval) (c : pydict nat) :
  Counter c values
  = if forallb (fun v => match to_key v with Some _ => true | None => false end)
         values
    then Ok (counted values c) else Raise unhashable.
Proof.
  revert c. induction values as [|v values IH]; intros c; [reflexivity|].
  cbn [Counter forallb counted fold_left].
  destruct (to_key v); cbn [andb]; [apply IH | reflexivity].
Qed.

Lemma counted_app (a b : list pyval) (c : pydict nat) :
  counted (a ++ b) c = counted b (counted a c).
Proof. unfold counted. apply fold_left_app. Qed.

Lemma count_of_update (v k : pyval) (c : pydict nat) :
  count_of (dict_update v (fun n => match n with Some n => S n | None => 1 end) c) k
  = count_of c k + (if same_key v k then 1 else 0).
Proof.
  unfold count_of. rewrite dict_get_update.
  destruct (same_key v k) eqn:E.
  - rewrite (dict_get_congr v k c E). destruct (dict_get k c); lia.
  - lia.
Qed.

Lemma counted_count (values : list pyval) (c : pydict nat) (k : pyval) :
  count_of (counted values c) k
  = count_of c k + length (List.filter (fun v => same_key v k) values).
Proof.
  revert c. induction values as [|v values IH]; intros c.
  - cbn. lia.
  - cbn [counted fold_left List.filter]. fold (counted values).
    rewrite IH, count_of_update. destruct (same_key v k); cbn [length]; lia.
Qed.

Lemma counted_distinct (values : list pyval) (c : pydict nat) :
  forallb (fun v => match to_key v with Some _ => true | None => false end)
    values = true ->
  distinct_keys c -> distinct_keys (counted values c).
Proof.
  revert c. induction values as [|v values IH]; intros c Hv Hc; [exact Hc|].
  cbn [forallb] in Hv. apply andb_prop in Hv as [Hv Hrest].
  cbn [counted fold_left]. fold (counted values). apply IH; [exact Hrest|].
  apply dict_update_distinct; [|exact Hc]. now destruct (to_key v).
Qed.

(** Every count held is at least 1. *)
Lemma counted_positive (values : list pyval) (c : pydict nat) (k : pyval) (n : nat) :
  (forall k n, dict_get k c = Some n -> 1 <= n) ->
  dict_get k (counted values c) = Some n -> 1 <= n.
Proof.
  revert c. induction values as [|v values IH]; intros c Hc; [apply Hc|].
  cbn [counted fold_left]. fold (counted values). apply IH.
  intros k' n'. rewrite dict_get_update.
  destruct (same_key v k'); [|apply Hc].
  intros [= <-]. destruct (dict_get v c); lia.
Qed.

Lemma count_type_truthy (records : list record) (k : pyval) :
  length (List.filter (fun v => same_key v k) (truthy_types records))
  = count_type records k.
Proof.
  unfold count_type, truthy_types.
  induction records as [|r records IH]; [reflexivity|].
  cbn [flat_map List.filter]. rewrite List.filter_app, length_app, IH.
  destruct (truthy (get "doc_type" r)); cbn [List.filter andb]; [|reflexivity].
  now destruct (same_key (get "doc_type" r) k).
Qed.

(** *** The first loop *)

Lemma doc_loop_cases (records : list record) (st : doc_state) :
  if forallb
       (fun r => negb (truthy (get "doc_type" r) && truthy (get "doc_category" r))
                 || match to_key (get "doc_type" r) with
                    | Some _ => true
                    | None => false
                    end)
       records
  then doc_loop st records
       = Ok (fst (fst st) ++ truthy_types records,
             snd (fst st) ++ truthy_categories records,
             category_dict records (snd st))
  else doc_loop st records = Raise unhashable.
Proof.
  revert st. induction records as [|r records IH]; intros [[types cats] d].
  - cbn. now rewrite !app_nil_r.
  - cbn [forallb doc_loop doc_step truthy_types truthy_categories category_dict
           flat_map fold_left fst snd].
    fold (truthy_types records) (truthy_categories records).
    destruct (truthy (get "doc_type" r)) eqn:Ht; cbn [andb negb orb].
    + destruct (truthy (get "doc_category" r)) eqn:Hc; cbn [andb negb orb].
      * destruct (to_key (get "doc_type" r)); cbn [mbind result_bind bind];
          [|reflexivity].
        specialize (IH (types ++ [get "doc_type" r], cats ++ [get "doc_category" r],
                        dict_update (get "doc_type" r)
                          (fun _ => get "doc_category" r) d)).
        destruct (forallb _ records); rewrite IH; [|reflexivity].
        cbn [fst snd]. now rewrite <- !app_assoc.
      * cbn [mbind result_bind bind].
        specialize (IH (types ++ [get "doc_type" r], cats, d)).
        destruct (forallb _ records); rewrite IH; [|reflexivity].
        cbn [fst snd app]. now rewrite <- !app_assoc.
    + cbn [mbind result_bind bind]. specialize (IH (types, cats, d)).
      destruct (forallb _ records); rewrite IH; reflexivity.
Qed.

Lemma category_dict_get (records : list record) (d : pydict pyval) (k : pyval) :
  dict_get k (category_dict records d)
  = fold_left
      (fun last r =>
         if truthy (get "doc_type" r) && same_key (get "doc_type" r) k
            && truthy (get "doc_category" r)
         then Some (get "doc_category" r) else last)
      records (dict_get k d).
Proof.
  revert d. induction records as [|r records IH]; intros d; [reflexivity|].
  cbn [category_dict fold_left]. fold (category_dict records). rewrite IH. f_equal.
  destruct (truthy (get "doc_type" r)); cbn [andb]; [|reflexivity].
  destruct (truthy (get "doc_category" r)); cbn [andb].
  - rewrite dict_get_update, andb_true_r.
    now destruct (same_key (get "doc_type" r) k).
  - now rewrite andb_false_r.
Qed.

(** The categories kept are truthy, and hashable when those of the records
    are. *)
Lemma category_dict_values (records : list record) (d : pydict pyval)
    (k c : pyval) :
  (forall k c, dict_get k d = Some c -> truthy c = true) ->
  dict_get k (category_dict records d) = Some c -> truthy c = true.
Proof.
  revert d. induction records as [|r records IH]; intros d Hd; [apply Hd|].
  cbn [category_dict fold_left]. fold (category_dict records). apply IH.
  destruct (truthy (get "doc_type" r)); cbn [andb]; [|exact Hd].
  destruct (truthy (get "doc_category" r)) eqn:E; [|exact Hd].
  intros k' c'. rewrite dict_get_update.
  destruct (same_key _ k'); [now intros [= <-] | apply Hd].
Qed.

Lemma category_dict_hashable (records : list record) (d : pydict pyval)
    (k c : pyval) :
  forallb hashable_types records = true ->
  (forall k c, dict_get k d = Some c -> to_key c <> None) ->
  dict_get k (category_dict records d) = Some c -> to_key c <> None.
Proof.
  revert d. induction records as [|r records IH]; intros d Hall Hd; [apply Hd|].
  cbn [forallb] in Hall. apply andb_prop in Hall as [Hr Hall].
  cbn [category_dict fold_left]. fold (category_dict records).
  apply IH; [exact Hall|].
  unfold hashable_types in Hr.
  destruct (truthy (get "doc_type" r)); cbn [andb]; [|exact Hd].
  destruct (truthy (get "doc_category" r)) eqn:E; [|exact Hd].
  intros k' c'. rewrite dict_get_update.
  destruct (same_key _ k'); [|apply Hd]. intros [= <-].
  destruct (to_key (get "doc_type" r)); [|discriminate Hr].
  destruct (to_key (get "doc_category" r)); [discriminate | discriminate Hr].
Qed.

(** *** The last loop *)

Lemma relate_loop_cases (d : pydict pyval) (items : pydict nat)
    (rel : pydict (pydict nat)) :
  (forall k c, dict_get k d = Some c -> to_key c <> None) ->
  relate_loop d rel items = Ok (related d items rel).
Proof.
  intros Hd. revert rel. induction items as [|[k n] items IH]; intros rel;
    [reflexivity|].
  cbn [relate_loop relate related fold_left fst snd]. fold (related d items).
  destruct (dict_get k d) as [c|] eqn:E; cbn [mbind result_bind bind]; [|apply IH].
  destruct (truthy c); cbn [mbind result_bind bind]; [|apply IH].
  specialize (Hd k c E). destruct (to_key c); [|now destruct Hd].
  cbn [mbind result_bind bind]. apply IH.
Qed.

Lemma rel_get_update (c k0 : pyval) (n0 : nat) (rel : pydict (pydict nat))
    (cat k : pyval) :
  rel_get
    (dict_update c
       (fun types =>
          dict_update k0 (fun _ => n0)
            (match types with Some types => types | None => [] end))
       rel)
    cat k
  = if same_key c cat && same_key k0 k then Some n0 else rel_get rel cat k.
Proof.
  unfold rel_get. rewrite dict_get_update.
  destruct (same_key c cat) eqn:Ec; cbn [andb]; [|reflexivity].
  rewrite dict_get_update, <- (dict_get_congr c cat rel Ec).
  destruct (same_key k0 k); [reflexivity|].
  now destruct (dict_get c rel).
Qed.

Lemma related_cons (d : pydict pyval) (k0 : pyval) (n0 : nat) (items : pydict nat)
    (rel : pydict (pydict nat)) :
  related d ((k0, n0) :: items) rel
  = related d items
      (match dict_get k0 d with
       | Some category =>
           if truthy category then
             dict_update category
               (fun types =>
                  dict_update k0 (fun _ => n0)
                    (match types with Some types => types | None => [] end))
               rel
           else rel
       | None => rel
       end).
Proof. reflexivity. Qed.

Lemma related_untouched (d : pydict pyval) (items : pydict nat)
    (rel : pydict (pydict nat)) (cat k : pyval) :
  dict_get k items = None ->
  rel_get (related d items rel) cat k = rel_get rel cat k.
Proof.
  revert rel. induction items as [|[k0 n0] items IH]; intros rel Hk; [reflexivity|].
  cbn [dict_get] in Hk. destruct (same_key k0 k) eqn:E; [discriminate Hk|].
  rewrite related_cons, (IH _ Hk).
  destruct (dict_get k0 d) as [c|]; [|reflexivity].
  destruct (truthy c); [|reflexivity].
  now rewrite rel_get_update, E, andb_false_r.
Qed.

Lemma related_get (d : pydict pyval) (items : pydict nat) (cat k : pyval) :
  distinct_keys items ->
  (forall k c, dict_get k d = Some c -> truthy c = true) ->
  rel_get (related d items []) cat k
  = match dict_get k items, dict_get k d with
    | Some n, Some c => if same_key c cat then Some n else None
    | _, _ => None
    end.
Proof.
  intros Hitems Hd.
  assert (H : forall rel,
             rel_get (related d items rel) cat k
             = match dict_get k items with
               | Some n =>
                   match dict_get k d with
                   | Some c => if same_key c cat then Some n else rel_get rel cat k
                   | None => rel_get rel cat k
                   end
               | None => rel_get rel cat k
               end).
  { induction items as [|[k0 n0] items IH]; intros rel; [reflexivity|].
    cbn [distinct_keys] in Hitems. destruct Hitems as [H0 [Hget Hrest]].
    cbn [dict_get]. destruct (same_key k0 k) eqn:E.
    - rewrite related_cons.
      rewrite related_untouched
        by (now rewrite <- (dict_get_congr k0 k items E)).
      rewrite <- (dict_get_congr k0 k d E).
      destruct (dict_get k0 d) as [c|] eqn:Ec; [|reflexivity].
      rewrite (Hd k0 c Ec), rel_get_update, E, andb_true_r. reflexivity.
    - rewrite related_cons, (IH Hrest).
      assert (Hsame :
                rel_get
                  (match dict_get k0 d with
                   | Some category =>
                       if truthy category
                       then dict_update category
                              (fun types =>
                                 dict_update k0 (fun _ => n0)
                                   (match types with
                                    | Some types => types
                                    | None => []
                                    end))
                              rel
                       else rel
                   | None => rel
                   end) cat k
                = rel_get rel cat k).
      { destruct (dict_get k0 d) as [c|]; [|reflexivity].
        destruct (truthy c); [|reflexivity].
        now rewrite rel_get_update, E, andb_false_r. }
      now rewrite Hsame. }
  rewrite H. unfold rel_get at 1 2. cbn [dict_get].
  destruct (dict_get k items); [|reflexivity].
  now destruct (dict_get k d).
Qed.

(** *** The summary *)

Lemma hashable_types_split (records : list record) :
  forallb hashable_types records
  = forallb
      (fun r => negb (truthy (get "doc_type" r) && truthy (get "doc_category" r))
                || match to_key (get "doc_type" r) with
                   | Some _ => true
                   | None => false
                   end)
      records
    && forallb (fun v => match to_key v with Some _ => true | None => false end)
         (truthy_types records)
    && forallb (fun v => match to_key v with Some _ => true | None => false end)
         (truthy_categories records).
Proof.
  induction records as [|r records IH]; [reflexivity|].
  cbn [forallb truthy_types truthy_categories flat_map].
  fold (truthy_types records) (truthy_categories records).
  rewrite !forallb_app, IH. unfold hashable_types.
  destruct (truthy (get "doc_type" r)); cbn [andb negb orb forallb];
    [|reflexivity].
  destruct (truthy (get "doc_category" r)); cbn [andb negb orb forallb];
    destruct (to_key (get "doc_type" r)); cbn [andb];
    try destruct (to_key (get "doc_category" r)); cbn [andb];
    repeat match goal with
           | |- context [forallb ?f ?l] => destruct (forallb f l)
           end; reflexivity.
Qed.

(** The function in closed form. *)
Lemma analyze_doc_type_cases (records : list record) :
  analyze_doc_type_distribution records
  = if forallb hashable_types records then
      let counter := counted (truthy_types records) [] in
      Ok (mk_doc_type_summary (most_common 10 counter) (length counter)
            (length (counted (truthy_categories records) []))
            (length records)
            (related (category_dict records []) counter []))
    else Raise unhashable.
Proof.
  unfold analyze_doc_type_distribution.
  pose proof (doc_loop_cases records ([], [], [])) as Hloop.
  rewrite hashable_types_split.
  destruct (forallb _ records) eqn:H1; cbn [andb];
    [|now rewrite Hloop].
  rewrite Hloop. cbn [mbind result_bind bind fst snd app].
  rewrite !Counter_cases.
  destruct (forallb _ (truthy_types records)) eqn:H2; cbn [andb];
    [|reflexivity].
  cbn [mbind result_bind bind].
  destruct (forallb _ (truthy_categories records)) eqn:H3; [|reflexivity].
  cbn [mbind result_bind bind].
  rewrite relate_loop_cases; [reflexivity|].
  intros k c. apply category_dict_hashable.
  - rewrite hashable_types_split, H1, H2, H3. reflexivity.
  - intros k' c' H. discriminate H.
Qed.

Lemma sorted_split {A : Type} (key : A -> nat) (n : nat) (l : list A) :
  StronglySorted (fun a b => key b <= key a) l ->
  forall x y, In x (firstn n l) -> In y (skipn n l) -> key y <= key x.
Proof.
  revert n. induction l as [|a l IH]; intros n Hs x y Hx Hy.
  - rewrite firstn_nil in Hx. destruct Hx.
  - apply StronglySorted_inv in Hs as [Hl Ha].
    destruct n as [|n]; [destruct Hx|].
    cbn [firstn skipn] in Hx, Hy. destruct Hx as [<- | Hx].
    + rewrite List.Forall_forall in Ha. apply Ha.
      rewrite <- (firstn_skipn n l). apply in_or_app. now right.
    + now apply (IH n Hl).
Qed.

(** X22.  In the summary of the doc types, doc_type_distribution holds the
    doc types with the largest counts, ten at most, in non-increasing
    order of count; the count of each is the number of records with that
    doc type, and no doc type left out has more records than one that is
    listed.  unique_doc_types is the number of different doc types, and
    total_records counts every record, with or without a doc type. *)
Theorem doc_type_top_ten (records : list record) (summary : doc_type_summary) :
  analyze_doc_type_distribution records = Ok summary ->
  total_records summary = length records
  /\ length (doc_type_distribution summary)
     = Nat.min 10 (unique_doc_types summary)
  /\ StronglySorted (fun a b => snd b <= snd a) (doc_type_distribution summary)
  /\ distinct_keys (doc_type_distribution summary)
  /\ (forall k n, In (k, n) (doc_type_distribution summary) ->
        n = count_type records k /\ 1 <= n)
  /\ (forall r, In r records -> truthy (get "doc_type" r) = true ->
        dict_get (get "doc_type" r) (doc_type_distribution summary) = None ->
        forall k n, In (k, n) (doc_type_distribution summary) ->
          count_type records (get "doc_type" r) <= n).
Proof.
  rewrite analyze_doc_type_cases.
  destruct (forallb hashable_types records) eqn:Hall; [|discriminate].
  cbv zeta. intros [= <-].
  cbn [total_records doc_type_distribution unique_doc_types].
  set (counter := counted (truthy_types records) []).
  assert (Hhash : forallb (fun v => match to_key v with Some _ => true | None => false end)
                    (truthy_types records) = true).
  { rewrite hashable_types_split in Hall.
    apply andb_prop in Hall as [Hall _]. now apply andb_prop in Hall as [_ Hall]. }
  assert (Hdist : distinct_keys counter)
    by (apply counted_distinct; [exact Hhash | exact I]).
  assert (Hcount : forall k n, In (k, n) counter ->
                     n = count_type records k /\ 1 <= n).
  { intros k n Hin. pose proof (In_dict_get k n counter Hdist Hin) as Hget.
    split.
    - pose proof (counted_count (truthy_types records) [] k) as Hc.
      fold counter in Hc. unfold count_of in Hc. rewrite Hget in Hc.
      cbn [dict_get] in Hc. now rewrite count_type_truthy in Hc.
    - apply (counted_positive (truthy_types records) [] k n); [|exact Hget].
      intros k' n' H. discriminate H. }
  assert (Hperm : Permutation (Num.sort_desc snd counter) counter)
    by apply sort_desc_Permutation.
  assert (Hsub : forall x, In x (most_common 10 counter) -> In x counter).
  { intros x Hx. apply (Permutation_in _ Hperm).
    unfold most_common in Hx. rewrite <- (firstn_skipn 10 (Num.sort_desc snd counter)).
    apply in_or_app. now left. }
  split; [reflexivity|]. split.
  { unfold most_common. rewrite length_firstn, (Permutation_length Hperm). lia. }
  split.
  { unfold most_common.
    pose proof (sort_desc_sorted snd counter) as Hs.
    rewrite <- (firstn_skipn 10 (Num.sort_desc snd counter)) in Hs.
    revert Hs. generalize (firstn 10 (Num.sort_desc snd counter)).
    intros l Hs. induction l as [|a l IH]; [constructor|].
    cbn [app] in Hs. apply StronglySorted_inv in Hs as [Hl Ha].
    constructor; [now apply IH|].
    rewrite List.Forall_forall in *. intros x Hx. apply Ha.
    apply in_or_app. now left. }
  assert (Hd10 : distinct_keys (most_common 10 counter)).
  { apply (distinct_sublist _ counter Hdist Hsub). unfold most_common.
    assert (Hnd : List.NoDup (Num.sort_desc snd counter))
      by (apply (Permutation_NoDup (Permutation_sym Hperm)), distinct_NoDup, Hdist).
    rewrite <- (firstn_skipn 10 (Num.sort_desc snd counter)) in Hnd.
    exact (NoDup_app_remove_r _ _ Hnd). }
  split; [exact Hd10|].
  split.
  { intros k n Hin. apply Hcount. now apply Hsub. }
  intros r Hr Ht Hnone k n Hin.
  set (dt := get "doc_type" r) in *.
  assert (Hdt : to_key dt <> None).
  { rewrite forallb_forall in Hhash.
    assert (Hd : In dt (truthy_types records)).
    { unfold truthy_types. apply in_flat_map. exists r. split; [exact Hr|].
      fold dt. rewrite Ht. now left. }
    specialize (Hhash dt Hd). now destruct (to_key dt). }
  assert (Hpos : 1 <= count_type records dt).
  { unfold count_type. 
    assert (Hin' : In r (List.filter
                           (fun r0 => truthy (get "doc_type" r0)
                                      && same_key (get "doc_type" r0) dt) records)).
    { apply filter_In. split; [exact Hr|]. fold dt.
      now rewrite Ht, same_key_refl. }
    destruct (List.filter _ records); [destruct Hin' | cbn [length]; lia]. }
  pose proof (counted_count (truthy_types records) [] dt) as Hc.
  fold counter in Hc. rewrite count_type_truthy in Hc.
  unfold count_of in Hc. cbn [dict_get] in Hc.
  destruct (dict_get dt counter) as [m|] eqn:Em; [|lia].
  cbn [Nat.add] in Hc. subst m.
  apply dict_get_In in Em as [k0 [Hk0 Hsame]].
  assert (Hskip : In (k0, count_type records dt)
                    (skipn 10 (Num.sort_desc snd counter))).
  { apply (Permutation_in _ (Permutation_sym Hperm)) in Hk0.
    rewrite <- (firstn_skipn 10 (Num.sort_desc snd counter)) in Hk0.
    apply in_app_or in Hk0 as [Hk0 | Hk0]; [|exact Hk0].
    exfalso. fold (most_common 10 counter) in Hk0.
    rewrite <- (dict_get_congr k0 dt _ Hsame),
      (In_dict_get k0 _ _ Hd10 Hk0) in Hnone. discriminate Hnone. }
  exact (sorted_split snd 10 (Num.sort_desc snd counter)
           (sort_desc_sorted snd counter) (k, n) _ Hin Hskip).
Qed.

Lemma last_category_count (records : list record) (k c : pyval) :
  last_category records k = Some c -> 1 <= count_type records k.
Proof.
  unfold last_category, count_type.
  assert (H : forall init,
             fold_left
               (fun last r =>
                  if truthy (get "doc_type" r) && same_key (get "doc_type" r) k
                     && truthy (get "doc_category" r)
                  then Some (get "doc_category" r) else last)
               records init = Some c ->
             init = Some c
             \/ 1 <= length
                       (List.filter
                          (fun r => truthy (get "doc_type" r)
                                    && same_key (get "doc_type" r) k) records)).
  { induction records as [|r records IH]; intros init; [now left|].
    cbn [fold_left List.filter]. intros Hf. apply IH in Hf as [Hf | Hf].
    - destruct (truthy (get "doc_type" r) && same_key (get "doc_type" r) k);
        cbn [andb] in *; [right; cbn [length]; lia | now left].
    - right. destruct (truthy (get "doc_type" r) && same_key (get "doc_type" r) k);
        cbn [length]; lia. }
  intros Hl. destruct (H None Hl) as [Hn | Hn]; [discriminate Hn | exact Hn].
Qed.

(** X23.  The analysis of the doc types raises a TypeError exactly when a
    record has a truthy doc type that is a list or a dictionary, or a
    truthy doc type with a truthy category that is one; otherwise it
    returns a summary. *)
Theorem doc_types_unhashable (records : list record) :
  ((exists summary, analyze_doc_type_distribution records = Ok summary)
   <-> forallb hashable_types records = true)
  /\ (analyze_doc_type_distribution records = Raise unhashable
      <-> forallb hashable_types records = false).
Proof.
  rewrite analyze_doc_type_cases.
  destruct (forallb hashable_types records); split; split; try discriminate;
    try reflexivity.
  - intros _. eexists. reflexivity.
  - intros [summary H]. discriminate H.
Qed.

(** X24.  In the summary, a doc type is listed under one category at most:
    the category of the last record that has this doc type and a truthy
    category.  The count listed there is the number of all the records
    with this doc type, whatever their category. *)
Theorem relationship_lookup (records : list record) (summary : doc_type_summary)
    (category doc_type : pyval) :
  analyze_doc_type_distribution records = Ok summary ->
  rel_get (type_category_relationship summary) category doc_type
  = match last_category records doc_type with
    | Some c =>
        if same_key c category then Some (count_type records doc_type) else None
    | None => None
    end.
Proof.
  rewrite analyze_doc_type_cases.
  destruct (forallb hashable_types records) eqn:Hall; [|discriminate].
  cbv zeta. intros [= <-]. cbn [type_category_relationship].
  set (counter := counted (truthy_types records) []).
  assert (Hhash : forallb (fun v => match to_key v with Some _ => true | None => false end)
                    (truthy_types records) = true).
  { rewrite hashable_types_split in Hall.
    apply andb_prop in Hall as [Hall _]. now apply andb_prop in Hall as [_ Hall]. }
  assert (Hdist : distinct_keys counter)
    by (apply counted_distinct; [exact Hhash | exact I]).
  rewrite related_get; [|exact Hdist|].
  2:{ intros k c. apply category_dict_values. intros k' c' H. discriminate H. }
  rewrite category_dict_get. cbn [dict_get]. fold (last_category records doc_type).
  pose proof (counted_count (truthy_types records) [] doc_type) as Hc.
  fold counter in Hc. rewrite count_type_truthy in Hc.
  unfold count_of in Hc. cbn [dict_get Nat.add] in Hc.
  destruct (last_category records doc_type) as [c|] eqn:El.
  - pose proof (last_category_count records doc_type c El) as Hpos.
    destruct (dict_get doc_type counter) as [n|]; [now subst n | lia].
  - now destruct (dict_get doc_type counter).
Qed.

Lemma doc_type_top_ten_example :
  total_records Examples.five_typed_summary = length Examples.five_typed
  /\ length (doc_type_distribution Examples.five_typed_summary)
     = Nat.min 10 (unique_doc_types Examples.five_typed_summary)
  /\ StronglySorted (fun a b => snd b <= snd a)
       (doc_type_distribution Examples.five_typed_summary)
  /\ distinct_keys (doc_type_distribution Examples.five_typed_summary)
  /\ (forall k n, In (k, n) (doc_type_distribution Examples.five_typed_summary) ->
        n = count_type Examples.five_typed k /\ 1 <= n)
  /\ (forall r, In r Examples.five_typed -> truthy (get "doc_type" r) = true ->
        dict_get (get "doc_type" r)
          (doc_type_distribution Examples.five_typed_summary) = None ->
        forall k n, In (k, n) (doc_type_distribution Examples.five_typed_summary) ->
          count_type Examples.five_typed (get "doc_type" r) <= n).
Proof.
  apply (doc_type_top_ten Examples.five_typed Examples.five_typed_summary).
  reflexivity.
Defined.

Lemma relationship_lookup_example :
  rel_get (type_category_relationship Examples.five_typed_summary)
    (PStr "misc") (PStr "DEED")
  = match last_category Examples.five_typed (PStr "DEED") with
    | Some c =>
        if same_key c (PStr "misc")
        then Some (count_type Examples.five_typed (PStr "DEED")) else None
    | None => None
    end.
Proof.
  apply (relationship_lookup Examples.five_typed Examples.five_typed_summary
           (PStr "misc") (PStr "DEED")).
  reflexivity.
Defined.

End DocTypeFacts.

(* ===================================================================== *)
(** ** Facts about the analysis county by county *)
(* ===================================================================== *)

Module CountyFacts.
Import Py Datetime Utils PatternAnalyzer Spec KeyFacts.

(** *** The first loop *)

Lemma county_loop_cases (values : list pyval) (g : pydict (list record)) :
  county_loop g values
  = match List.find (fun v => negb (county_passes v)) values with
    | None => Ok (grouped values g)
    | Some (PDict _) => Raise unhashable
    | Some _ => Raise no_get
    end.
Proof.
  revert g. induction values as [|v values IH]; intros g; [reflexivity|].
  cbn [List.find grouped fold_left]. fold (grouped values).
  destruct v as [| | | | |r]; try reflexivity.
  cbn [county_loop county_passes].
  destruct (truthy (get "county" r)); cbn [negb orb]; [|apply IH].
  destruct (to_key (get "county" r)); cbn [negb]; [apply IH | reflexivity].
Qed.

Lemma grouped_cons (v : pyval) (values : list pyval) (g : pydict (list record)) :
  grouped (v :: values) g
  = grouped values
      (match v with
       | PDict r =>
           if truthy (get "county" r) then
             dict_update (get "county" r)
               (fun records =>
                  match records with
                  | Some records => records ++ [r]
                  | None => [r]
                  end)
               g
           else g
       | _ => g
       end).
Proof. reflexivity. Qed.

Lemma members_of_update (c : pyval) (r : record) (g : pydict (list record))
    (k : pyval) :
  members_of
    (dict_update c
       (fun records =>
          match records with
          | Some records => records ++ [r]
          | None => [r]
          end) g) k
  = members_of g k ++ (if same_key c k then [r] else []).
Proof.
  unfold members_of. rewrite dict_get_update.
  destruct (same_key c k) eqn:E.
  - rewrite (dict_get_congr c k g E). now destruct (dict_get k g).
  - now rewrite app_nil_r.
Qed.

Lemma grouped_members (values : list pyval) (g : pydict (list record)) (k : pyval) :
  members_of (grouped values g) k = members_of g k ++ county_members values k.
Proof.
  revert g. induction values as [|v values IH]; intros g.
  - cbn. now rewrite app_nil_r.
  - rewrite grouped_cons, IH. cbn [county_members flat_map].
    fold (county_members values k).
    destruct v as [| | | | |r]; try reflexivity.
    destruct (truthy (get "county" r)); cbn [andb]; [|reflexivity].
    now rewrite members_of_update, <- app_assoc.
Qed.

(** The keys are hashable and different, and no group is empty. *)
Lemma grouped_distinct (values : list pyval) (g : pydict (list record)) :
  forallb county_passes values = true ->
  distinct_keys g -> (forall k rs, dict_get k g = Some rs -> rs <> []) ->
  distinct_keys (grouped values g)
  /\ forall k rs, dict_get k (grouped values g) = Some rs -> rs <> [].
Proof.
  revert g. induction values as [|v values IH]; intros g Hv Hd Hne;
    [now split|].
  cbn [forallb] in Hv. apply andb_prop in Hv as [Hv Hrest].
  rewrite grouped_cons. apply IH; [exact Hrest | |].
  - destruct v as [| | | | |r]; try exact Hd.
    destruct (truthy (get "county" r)) eqn:Ht; [|exact Hd].
    apply dict_update_distinct; [|exact Hd].
    cbn [county_passes] in Hv. rewrite Ht in Hv. cbn [negb orb] in Hv.
    now destruct (to_key (get "county" r)).
  - destruct v as [| | | | |r]; try exact Hne.
    destruct (truthy (get "county" r)); [|exact Hne].
    intros k rs. rewrite dict_get_update.
    destruct (same_key _ k); [|apply Hne].
    intros [= <-]. destruct (dict_get _ g) as [l|]; [|discriminate].
    now destruct l.
Qed.

Lemma grouped_total (values : list pyval) (g : pydict (list record)) :
  list_sum (map (fun item => length (snd item)) (grouped values g))
  = list_sum (map (fun item => length (snd item)) g)
    + length (with_county values).
Proof.
  assert (Hup : forall c r (g : pydict (list record)),
             list_sum
               (map (fun item => length (snd item))
                  (dict_update c
                     (fun records =>
                        match records with
                        | Some records => records ++ [r]
                        | None => [r]
                        end) g))
             = S (list_sum (map (fun item => length (snd item)) g))).
  { intros c r g'. induction g' as [|[k0 rs] g' IHg]; [reflexivity|].
    cbn [dict_update]. destruct (same_key k0 c);
      cbn [map snd list_sum fold_right] in *.
    - rewrite length_app. cbn [length]. lia.
    - fold (list_sum (map (fun item => length (snd item)) g')).
      fold (list_sum
              (map (fun item => length (snd item))
                 (dict_update c
                    (fun records =>
                       match records with
                       | Some records => records ++ [r]
                       | None => [r]
                       end) g'))).
      rewrite IHg. lia. }
  revert g. induction values as [|v values IH]; intros g.
  - cbn [grouped fold_left with_county flat_map length]. lia.
  - rewrite grouped_cons, IH. cbn [with_county flat_map]. fold (with_county values).
    destruct v as [| | | | |r]; cbn [app length]; try lia.
    destruct (truthy (get "county" r)); cbn [app length]; [|lia].
    rewrite Hup. lia.
Qed.

Section Counties.

Variable dateutil_parse : string -> result datetime.
Variable now : nat -> datetime.

(** *** The second loop *)

Lemma county_results_items (g : pydict (list record)) (number : nat)
    (results : pydict county_result) :
  county_results dateutil_parse now number g = Ok results ->
  map fst results = map fst g
  /\ forall k res, In (k, res) results ->
       exists rs i,
         In (k, rs) g /\ analyze_county dateutil_parse now i rs = Ok res.
Proof.
  revert number results. induction g as [|[k0 rs0] g IH]; intros number results.
  - intros [= <-]. split; [reflexivity | intros k res []].
  - cbn [county_results].
    destruct (analyze_county dateutil_parse now number rs0) as [r0|e] eqn:E0;
      cbn [mbind result_bind bind]; [|discriminate].
    destruct (county_results dateutil_parse now (S number) g) as [rest|e] eqn:Er;
      cbn [mbind result_bind bind]; [|discriminate].
    intros [= <-]. destruct (IH _ _ Er) as [Hkeys Hitems]. split.
    + cbn [map fst]. now rewrite Hkeys.
    + intros k res [[= <- <-] | Hin].
      * exists rs0, number. split; [now left | exact E0].
      * destruct (Hitems k res Hin) as [rs [i [Hg Ha]]].
        exists rs, i. split; [now right | exact Ha].
Qed.



Lemma keys_distinct_map {V W : Type} (d : pydict V) (d' : pydict W) :
  map fst d' = map fst d -> distinct_keys d -> distinct_keys d'.
Proof.
  revert d'. induction d as [|[k v] d IH]; intros [|[k' v'] d'] Hk Hd;
    try discriminate; [exact I|].
  cbn [map fst] in Hk. injection Hk as -> Hk.
  cbn [distinct_keys] in *. destruct Hd as [H0 [Hg Hd]].
  split; [exact H0|]. split; [|now apply IH].
  destruct (dict_get k d') as [w|] eqn:E; [|reflexivity].
  apply dict_get_In in E as [k1 [Hin Hsame]].
  assert (Hk1 : In k1 (map fst d)) by (rewrite <- Hk; now apply (in_map fst _ (k1, w))).
  apply in_map_iff in Hk1 as [[k2 v2] [Hk2 Hin2]]. cbn [fst] in Hk2. subst k2.
  rewrite <- (dict_get_congr k1 k d Hsame), (In_dict_get k1 v2 d Hd Hin2) in Hg.
  discriminate Hg.
Qed.

(** X25.  When the analysis of a stream returns, every value of the stream
    is a dictionary and no exception stopped the stream.  The counties of
    the result are different keys, every record with a truthy county is
    counted under its county, and the record counts add up to the number
    of records with a truthy county; records without one are in no
    county. *)
Theorem counties_partition (input : stream) (results : pydict county_result) :
  analyze_county_patterns dateutil_parse now input = Ok results ->
  stopped input = None
  /\ (forall v, In v (yielded input) -> is_dict v = true)
  /\ distinct_keys results
  /\ (forall r, In r (with_county (yielded input)) ->
        exists res, dict_get (get "county" r) results = Some res
                    /\ In r (county_members (yielded input) (get "county" r)))
  /\ (forall k res, In (k, res) results ->
        record_count res = length (county_members (yielded input) k)
        /\ 1 <= record_count res)
  /\ list_sum (map (fun item => record_count (snd item)) results)
     = length (with_county (yielded input)).
Proof.
  unfold analyze_county_patterns. rewrite county_loop_cases.
  destruct (List.find _ (yielded input)) as [bad|] eqn:Ef.
  { destruct bad; discriminate. }
  cbn [mbind result_bind bind].
  destruct (stopped input) as [e|]; [discriminate|]. intros Hres.
  assert (Hpass : forallb county_passes (yielded input) = true).
  { apply forallb_forall. intros v Hv.
    pose proof (find_none _ _ Ef v Hv) as H. now apply negb_false_iff in H. }
  set (g := grouped (yielded input) []) in *.
  destruct (grouped_distinct (yielded input) [] Hpass I) as [Hdist Hne];
    [intros k rs H; discriminate H|]. fold g in Hdist, Hne.
  destruct (county_results_items g 0 results Hres) as [Hkeys Hitems].
  assert (Hmem : forall k, members_of g k = county_members (yielded input) k)
    by (intros k; unfold g; now rewrite grouped_members).
  assert (Hcount : forall k res, In (k, res) results ->
                     exists rs, In (k, rs) g /\ record_count res = length rs).
  { intros k res Hin. destruct (Hitems k res Hin) as [rs [i [Hg Ha]]].
    exists rs. split; [exact Hg|]. unfold analyze_county in Ha.
    destruct (analyze_date_ranges _ _ rs); cbn [mbind result_bind bind] in Ha;
      [|discriminate Ha].
    destruct (analyze_doc_type_distribution rs);
      cbn [mbind result_bind bind] in Ha; [|discriminate Ha].
    now injection Ha as <-. }
  split; [reflexivity|]. split.
  { intros v Hv. rewrite forallb_forall in Hpass. specialize (Hpass v Hv).
    now destruct v. }
  split; [exact (keys_distinct_map g results Hkeys Hdist)|]. split.
  { intros r Hr. unfold with_county in Hr. apply in_flat_map in Hr as [v [Hv Hr]].
    destruct v as [| | | | |r']; try destruct Hr.
    destruct (truthy (get "county" r')) eqn:Ht; [|destruct Hr].
    destruct Hr as [-> | []].
    assert (Hk : to_key (get "county" r) <> None).
    { rewrite forallb_forall in Hpass. specialize (Hpass _ Hv).
      cbn [county_passes] in Hpass. rewrite Ht in Hpass. cbn [negb orb] in Hpass.
      now destruct (to_key (get "county" r)). }
    assert (Hin : In r (county_members (yielded input) (get "county" r))).
    { unfold county_members. apply in_flat_map. exists (PDict r).
      split; [exact Hv|]. rewrite Ht, same_key_refl by exact Hk. now left. }
    split with (x := match dict_get (get "county" r) results with
                     | Some res => res
                     | None => mk_county_result 0 [] [] []
                                 (mk_date_range None None []) [] 0
                     end).
    split; [|exact Hin].
    destruct (dict_get (get "county" r) results) as [res|] eqn:Eres; [reflexivity|].
    exfalso. rewrite <- Hmem in Hin. unfold members_of in Hin.
    destruct (dict_get (get "county" r) g) as [rs|] eqn:Eg; [|destruct Hin].
    apply dict_get_In in Eg as [k0 [Hk0 Hsame]].
    assert (Hk0' : In k0 (map fst results))
      by (rewrite Hkeys; now apply (in_map fst _ (k0, rs))).
    apply in_map_iff in Hk0' as [[k1 res1] [E1 Hin1]]. cbn [fst] in E1. subst k1.
    rewrite <- (dict_get_congr k0 _ results Hsame) in Eres.
    rewrite (In_dict_get k0 res1 results
               (keys_distinct_map g results Hkeys Hdist) Hin1) in Eres.
    discriminate Eres. }
  split.
  { intros k res Hin. destruct (Hcount k res Hin) as [rs [Hg Hc]].
    pose proof (In_dict_get k rs g Hdist Hg) as Hget.
    rewrite Hc, <- Hmem. unfold members_of. rewrite Hget. split; [reflexivity|].
    specialize (Hne k rs Hget). destruct rs; [now destruct Hne | cbn [length]; lia]. }
  pose proof (grouped_total (yielded input) []) as Htotal. fold g in Htotal.
  cbn [map] in Htotal. change (list_sum []) with 0 in Htotal.
  cbn [Nat.add] in Htotal. rewrite <- Htotal.
  clear - Hres. revert results Hres. generalize 0.
  induction g as [|[k0 rs0] g IH]; intros number results Hres.
  - now injection Hres as <-.
  - cbn [county_results] in Hres.
    destruct (analyze_county dateutil_parse now number rs0) as [r0|e] eqn:E0;
      cbn [mbind result_bind bind] in Hres; [|discriminate Hres].
    destruct (county_results dateutil_parse now (S number) g) as [rest|e] eqn:Er;
      cbn [mbind result_bind bind] in Hres; [|discriminate Hres].
    injection Hres as <-. cbn [map snd].
    change (list_sum (?x :: ?l)) with (x + list_sum l).
    change (list_sum (?x :: ?l)) with (x + list_sum l).
    rewrite (IH _ _ Er). f_equal.
    unfold analyze_county in E0.
    destruct (analyze_date_ranges _ _ rs0); cbn [mbind result_bind bind] in E0;
      [|discriminate E0].
    destruct (analyze_doc_type_distribution rs0);
      cbn [mbind result_bind bind] in E0; [|discriminate E0].
    now injection E0 as <-.
Qed.


(** X27.  The analysis stops at the first value of the stream that is no
    dictionary, with an AttributeError, or that is a dictionary whose
    truthy county is a list or a dictionary, with a TypeError; whatever
    follows in the stream is not looked at and no county is analysed. *)
Theorem county_first_failure (input : stream) (bad : pyval) :
  List.find (fun v => negb (county_passes v)) (yielded input) = Some bad ->
  analyze_county_patterns dateutil_parse now input
  = Raise (if is_dict bad then unhashable else no_get).
Proof.
  intros Hbad. unfold analyze_county_patterns.
  rewrite county_loop_cases, Hbad. now destruct bad.
Qed.

End Counties.

Lemma counties_partition_example :
  stopped Examples.county_stream = None
  /\ (forall v, In v (yielded Examples.county_stream) -> is_dict v = true)
  /\ distinct_keys Examples.county_summary
  /\ (forall r, In r (with_county (yielded Examples.county_stream)) ->
        exists res, dict_get (get "county" r) Examples.county_summary = Some res
                    /\ In r (county_members (yielded Examples.county_stream)
                               (get "county" r)))
  /\ (forall k res, In (k, res) Examples.county_summary ->
        record_count res = length (county_members (yielded Examples.county_stream) k)
        /\ 1 <= record_count res)
  /\ list_sum (map (fun item => record_count (snd item)) Examples.county_summary)
     = length (with_county (yielded Examples.county_stream)).
Proof.
  apply (counties_partition Examples.no_dateutil (fun _ => Examples.new_year)).
  reflexivity.
Defined.

Lemma county_first_failure_example :
  analyze_county_patterns Examples.no_dateutil (fun _ => Examples.new_year)
    (mk_stream (Examples.county_values ++ [PInt 42; PDict []]) [] None)
  = Raise (if is_dict (PInt 42) then unhashable else no_get).
Proof.
  apply (county_first_failure Examples.no_dateutil (fun _ => Examples.new_year)).
  reflexivity.
Defined.


End CountyFacts.

(* ===================================================================== *)
(** ** Facts about the records of the API *)
(* ===================================================================== *)

Module ScraperFacts.
Import Py Datetime Utils SeminoleScraper Spec StringFacts.

(** *** Names and directions *)

Lemma normalize_name_fixed (name : string) :
  normalize_name (normalize_name name) = normalize_name name.
Proof.
  unfold normalize_name. destruct (String.eqb name "") eqn:E; [reflexivity|].
  destruct (String.eqb (upper (strip name)) "") eqn:E'.
  - now apply String.eqb_eq in E'.
  - now rewrite strip_upper, strip_idem, upper_idem.
Qed.

Lemma add_party_names (party : pyval) (direction : string)
    (lists : list string * list string) :
  add_party party direction lists
  = if String.eqb direction "FROM"
    then (fst lists ++ party_names party, snd lists)
    else (fst lists, snd lists ++ party_names party).
Proof.
  unfold add_party, party_names. destruct lists as [a b]. cbn [fst snd].
  destruct (truthy party);
    [|destruct (String.eqb direction "FROM"); now rewrite app_nil_r].
  destruct (String.eqb (normalize_name (str party)) ""); cbn [negb];
    destruct (String.eqb direction "FROM"); now rewrite ?app_nil_r.
Qed.

Lemma add_cross_party_names (party : pyval) (direction : string)
    (lists : list string * list string) :
  add_cross_party party direction lists
  = if String.eqb direction "FROM"
    then (fst lists, snd lists ++ party_names party)
    else (fst lists ++ party_names party, snd lists).
Proof.
  unfold add_cross_party, party_names. destruct lists as [a b]. cbn [fst snd].
  destruct (truthy party);
    [|destruct (String.eqb direction "FROM"); now rewrite app_nil_r].
  destruct (String.eqb (normalize_name (str party)) ""); cbn [negb];
    destruct (String.eqb direction "FROM"); now rewrite ?app_nil_r.
Qed.

Lemma party_names_normal (party : pyval) (name : string) :
  In name (party_names party) -> name <> "" /\ normalize_name name = name.
Proof.
  unfold party_names. destruct (truthy party); [|intros []].
  destruct (String.eqb (normalize_name (str party)) "") eqn:E; [intros []|].
  intros [<- | []]. split; [now apply String.eqb_neq | apply normalize_name_fixed].
Qed.

Lemma party_names_length (party : pyval) : length (party_names party) <= 1.
Proof.
  unfold party_names. destruct (truthy party); [|cbn; lia].
  destruct (String.eqb _ ""); cbn; lia.
Qed.

(** The capital of a character is one of the four letters exactly when
    its small letter is. *)
Lemma char_upper_letter (c x : ascii) :
  In x ["F"; "R"; "O"; "M"]%char ->
  char_upper c = String x "" <-> char_lower c = char_lower x.
Proof.
  intros [<- | [<- | [<- | [<- | []]]]];
    destruct c as [[] [] [] [] [] [] [] []]; vm_compute;
    split; intros H; try reflexivity; discriminate H.
Qed.

Lemma char_upper_cases (c : ascii) :
  char_upper c = "SS" \/ exists x, char_upper c = String x "".
Proof.
  unfold char_upper. destruct (_ || _); [right; eauto|].
  destruct (is_code 223 c); [now left | right; eauto].
Qed.

Lemma upper_letters (letters : list ascii) (s : string) :
  Forall (fun x => In x ["F"; "R"; "O"; "M"]%char) letters ->
  upper s = string_of_list_ascii letters
  <-> lower s = string_of_list_ascii (map char_lower letters).
Proof.
  intros Hl. revert s. induction Hl as [|x letters Hx Hl IH]; intros s.
  - cbn. rewrite RuleFacts.upper_empty_iff. destruct s; [tauto|].
    split; discriminate.
  - destruct s as [|c s]; [split; discriminate|].
    rewrite upper_cons. cbn [lower str_map map string_of_list_ascii].
    fold (lower s). specialize (IH s).
    destruct (char_upper_cases c) as [E | [y E]]; rewrite E.
    + split.
      * intros [= <- _]. destruct Hx as [H | [H | [H | [H | []]]]]; discriminate H.
      * intros [= Hc _]. apply (char_upper_letter c x Hx) in Hc.
        rewrite E in Hc. discriminate Hc.
    + rewrite append_cons, append_nil_l. split.
      * intros [= -> Hs]. f_equal; [now apply char_upper_letter|now apply IH].
      * intros [= Hc Hs]. apply (char_upper_letter c x Hx) in Hc.
        rewrite E in Hc. injection Hc as ->. f_equal. now apply IH.
Qed.

Lemma upper_from (s : string) :
  String.eqb (upper s) "FROM" = String.eqb (lower s) "from".
Proof.
  pose proof (upper_letters ["F"; "R"; "O"; "M"]%char s) as H.
  cbn [string_of_list_ascii map] in H.
  change (char_lower "F") with "f"%char in H.
  change (char_lower "R") with "r"%char in H.
  change (char_lower "O") with "o"%char in H.
  change (char_lower "M") with "m"%char in H.
  destruct (String.eqb (upper s) "FROM") eqn:E1,
           (String.eqb (lower s) "from") eqn:E2; try reflexivity.
  - apply String.eqb_eq in E1. apply String.eqb_neq in E2. exfalso. apply E2.
    apply H; [|exact E1]. repeat constructor; cbn; tauto.
  - apply String.eqb_eq in E2. apply String.eqb_neq in E1. exfalso. apply E1.
    apply H; [|exact E2]. repeat constructor; cbn; tauto.
Qed.

(** *** Dates *)

Lemma isoformat_nonempty (dt : datetime) : isoformat dt <> "".
Proof.
  intros H. apply (f_equal len) in H. unfold isoformat in H.
  rewrite len_append, len_append, len_cons in H. cbn [len String.length] in H.
  lia.
Qed.

Section Api.

Variable dateutil_parse : string -> result datetime.

Lemma try_formats_nonempty (date_str : string) (fmts : list string) (iso : string) :
  try_formats date_str fmts = Ok (Some iso) -> iso <> "".
Proof.
  induction fmts as [|fmt rest IH]; cbn [try_formats]; [discriminate|].
  destruct (strptime date_str fmt) as [dt|e].
  - intros [= <-]. apply isoformat_nonempty.
  - destruct (is_ValueError e); [exact IH | discriminate].
Qed.

Lemma parse_date_nonempty (date_str iso : string) :
  parse_date dateutil_parse date_str = Ok (Some iso) -> iso <> "".
Proof.
  unfold parse_date. destruct (String.eqb date_str ""); [discriminate|].
  destruct (try_formats date_str formats) as [[iso'|]|e] eqn:E;
    cbn [mbind result_bind bind]; try discriminate.
  - intros [= <-]. exact (try_formats_nonempty _ _ _ E).
  - destruct (dateutil_parse date_str) as [dt|e].
    + intros [= <-]. apply isoformat_nonempty.
    + destruct (_ || _); discriminate.
Qed.

(** *** One item *)

(** What a parsed item is made of. *)
Lemma parse_api_record_cases (item : record) (r : api_record) :
  _parse_api_record dateutil_parse item = Ok (Some r) ->
  ill_typed item = false
  /\ county r = "seminole" /\ state r = "FL"
  /\ instrument_number r = py_or (get "inst_num" item) (get "instrument_number" item)
  /\ original_doc_type r
     = py_or (get "instrument_type" item) (get "instrument_description" item)
  /\ match original_doc_type r with
     | PStr s =>
         if String.eqb s "" then doc_type r = None /\ doc_category r = None
         else doc_type r = Some (upper s)
              /\ doc_category r = Some (category_of (lower s))
     | _ => doc_type r = None /\ doc_category r = None
     end
  /\ (if truthy (get "file_date" item)
      then parse_date dateutil_parse (str (get "file_date" item)) = Ok (date r)
      else date r = None)
  /\ grantors r
     = party_names (get (if is_from item then "party_name" else "cross_party_name") item)
  /\ grantees r
     = party_names (get (if is_from item then "cross_party_name" else "party_name") item)
  /\ truthy (instrument_number r) || (truthy_str (doc_type r) && truthy_str (date r))
     = true.
Proof.
  unfold _parse_api_record, ill_typed, is_from, get_default.
  set (original := py_or (get "instrument_type" item)
                     (get "instrument_description" item)).
  intros H.
  assert (Ht : exists types,
             (if truthy original then
                match original with
                | PStr s => Ok (Some (upper s), Some (category_of (lower s)))
                | _ => Raise no_upper
                end
              else Ok (None, None)) = Ok types
             /\ truthy original
                && match original with PStr _ => false | _ => true end = false
             /\ match original with
                | PStr s =>
                    if String.eqb s "" then fst types = None /\ snd types = None
                    else fst types = Some (upper s)
                         /\ snd types = Some (category_of (lower s))
                | _ => fst types = None /\ snd types = None
                end).
  { destruct original as [|b|z|s|l|d]; cbn [truthy andb] in *.
    - eexists; repeat split.
    - destruct b; [discriminate H | eexists; repeat split].
    - destruct (negb (z =? 0)%Z); [discriminate H | eexists; repeat split].
    - destruct (String.eqb s ""); cbn [negb]; eexists; repeat split.
    - destruct l; [eexists; repeat split | discriminate H].
    - destruct d; [eexists; repeat split | discriminate H]. }
  destruct Ht as [types [Et [Hill Htypes]]]. rewrite Et in H.
  cbn [mbind result_bind bind] in H.
  set (date_result := if truthy (get "file_date" item)
                      then parse_date dateutil_parse (str (get "file_date" item))
                      else Ok None) in *.
  destruct date_result as [parsed|e] eqn:Ed; cbn [mbind result_bind bind] in H;
    [|discriminate H].
  assert (Hdir : exists direction,
             match (if has_key "direction" item then get "direction" item
                    else PStr "") with
             | PStr s => Ok (upper s)
             | _ => Raise no_upper
             end = Ok direction
             /\ has_key "direction" item
                && match get "direction" item with PStr _ => false | _ => true end
                = false
             /\ String.eqb direction "FROM"
                = match get "direction" item with
                  | PStr s => String.eqb (lower s) "from"
                  | _ => false
                  end).
  { destruct (has_key "direction" item) eqn:Ek; cbn [andb].
    - destruct (get "direction" item) as [|b|z|s|l|d]; try discriminate H.
      eexists. repeat split. apply upper_from.
    - eexists. repeat split.
      assert (Hg : get "direction" item = PNone).
      { clear - Ek. unfold has_key in Ek. induction item as [|[k v] item IH];
          [reflexivity|]. cbn [existsb fst] in Ek. apply orb_false_elim in Ek as [E1 E2].
        cbn [get]. rewrite E1. now apply IH. }
      now rewrite Hg. }
  destruct Hdir as [direction [Edir [Hkey Hfrom]]]. rewrite Edir in H.
  cbn [mbind result_bind bind] in H.
  rewrite add_party_names, add_cross_party_names in H.
  destruct (truthy (py_or (get "inst_num" item) (get "instrument_number" item))
            || truthy_str (fst types) && truthy_str parsed) eqn:Ekeep;
    [|discriminate H].
  injection H as <-.
  cbn [county state instrument_number original_doc_type doc_type doc_category
         date grantors grantees].
  fold original. rewrite Hill, Hkey. cbn [orb].
  split; [reflexivity|]. split; [reflexivity|]. split; [reflexivity|].
  split; [reflexivity|]. split; [reflexivity|]. split; [exact Htypes|].
  split.
  { subst date_result. destruct (truthy (get "file_date" item));
      [exact Ed | now injection Ed as <-]. }
  rewrite Hfrom.
  destruct (match get "direction" item with
            | PStr s => String.eqb (lower s) "from"
            | _ => false
            end); cbn [fst snd app]; repeat split; exact Ekeep.
Qed.

(** X28.  In a parsed item the party named by the search is the grantor
    and the other party the grantee when the direction of the item reads
    [from] in whatever case; with any other direction, or none, it is the
    other way round.  Either list holds at most one name, which is not
    empty and is its own normal form. *)
Theorem parties_by_direction (item : record) (r : api_record) :
  _parse_api_record dateutil_parse item = Ok (Some r) ->
  grantors r
  = party_names (get (if is_from item then "party_name" else "cross_party_name") item)
  /\ grantees r
     = party_names (get (if is_from item then "cross_party_name" else "party_name") item)
  /\ length (grantors r) <= 1 /\ length (grantees r) <= 1
  /\ forall name, In name (grantors r ++ grantees r) ->
       name <> "" /\ normalize_name name = name.
Proof.
  intros H. apply parse_api_record_cases in H
    as (_ & _ & _ & _ & _ & _ & _ & Hg & He & _).
  rewrite Hg, He. repeat split; try apply party_names_length.
  - apply in_app_or in H as [H | H]; now apply party_names_normal in H.
  - apply in_app_or in H as [H | H]; now apply party_names_normal in H.
Qed.

(** *** The response *)

Lemma parse_items_In (items : list pyval) (records : list api_record)
    (r : api_record) :
  parse_items dateutil_parse items = Ok records -> In r records ->
  exists item, In (PDict item) items
               /\ _parse_api_record dateutil_parse item = Ok (Some r).
Proof.
  revert records. induction items as [|v items IH]; intros records.
  - intros [= <-] [].
  - assert (Hskip : parse_items dateutil_parse items = Ok records -> In r records ->
                    exists item, In (PDict item) (v :: items)
                                 /\ _parse_api_record dateutil_parse item = Ok (Some r)).
    { intros H Hin. destruct (IH _ H Hin) as [item [Hi Hp]].
      exists item. split; [now right | exact Hp]. }
    destruct v as [| | | | |item]; try exact Hskip. cbn [parse_items].
    destruct (_parse_api_record dateutil_parse item) as [record|e] eqn:E;
      cbn [mbind result_bind bind]; [|discriminate].
    destruct (parse_items dateutil_parse items) as [rest|e] eqn:Er;
      cbn [mbind result_bind bind]; [|discriminate].
    intros [= <-] Hin. destruct record as [record|].
    + destruct Hin as [<- | Hin].
      * exists item. split; [now left | exact E].
      * destruct (IH _ eq_refl Hin) as [item' [Hi Hp]].
        exists item'. split; [now right | exact Hp].
    + destruct (IH _ eq_refl Hin) as [item' [Hi Hp]].
      exists item'. split; [now right | exact Hp].
Qed.

Lemma parse_items_raises (items : list pyval) (item : record) (e : exn) :
  In (PDict item) items -> _parse_api_record dateutil_parse item = Raise e ->
  exists e', parse_items dateutil_parse items = Raise e'.
Proof.
  intros Hin He. induction items as [|v items IH]; [destruct Hin|].
  destruct Hin as [-> | Hin].
  - cbn [parse_items]. rewrite He. now exists e.
  - specialize (IH Hin). destruct IH as [e' IH].
    destruct v as [| | | | |item']; cbn [parse_items]; try (now exists e').
    destruct (_parse_api_record dateutil_parse item') as [record|e0];
      cbn [mbind result_bind bind]; [|now exists e0].
    rewrite IH. now exists e'.
Qed.

Lemma parse_items_length (items : list pyval) (records : list api_record) :
  parse_items dateutil_parse items = Ok records ->
  length records <= length (List.filter is_dict items).
Proof.
  revert records. induction items as [|v items IH]; intros records.
  - intros [= <-]. cbn. lia.
  - destruct v as [| | | | |item]; cbn [parse_items List.filter is_dict]; try apply IH.
    destruct (_parse_api_record dateutil_parse item) as [record|e];
      cbn [mbind result_bind bind]; [|discriminate].
    destruct (parse_items dateutil_parse items) as [rest|e];
      cbn [mbind result_bind bind]; [|discriminate].
    intros [= <-]. specialize (IH _ eq_refl).
    destruct record; cbn [length]; lia.
Qed.

(** X29.  Every record that the parsing of a response returns is a
    Seminole record of Florida and can be told from the others: it has a
    truthy instrument number, or a doc type and a date that are not
    empty.  Its doc type is the capitals of the original doc type, with
    one of the seven categories, or both are missing when the original doc
    type is falsy. *)
Theorem api_records_identified (data : pyval) (records : list api_record)
    (r : api_record) :
  _parse_api_response dateutil_parse data = Ok records ->
  In r records ->
  county r = "seminole" /\ state r = "FL"
  /\ (truthy (instrument_number r) = true
      \/ exists t d, doc_type r = Some t /\ t <> "" /\ date r = Some d /\ d <> "")
  /\ (truthy (original_doc_type r) = false
      -> doc_type r = None /\ doc_category r = None)
  /\ (truthy (original_doc_type r) = true
      -> exists s, original_doc_type r = PStr s
                   /\ doc_type r = Some (upper s)
                   /\ exists c, doc_category r = Some c
                                /\ In c ["deed"; "mortgage"; "trust"; "judgment";
                                         "order"; "notice"; "misc"]).
Proof.
  intros Hresp Hin. unfold _parse_api_response in Hresp.
  destruct (response_items data) as [items|]; [|injection Hresp as <-; destruct Hin].
  destruct (iterate items) as [l|e]; cbn [mbind result_bind bind] in Hresp;
    [|discriminate Hresp].
  destruct (parse_items_In l records r Hresp Hin) as [item [_ Hitem]].
  pose proof (parse_api_record_cases item r Hitem)
    as (Hill & Hc & Hs & _ & Ho & Htypes & Hdate & _ & _ & Hkeep).
  unfold ill_typed in Hill. rewrite <- Ho in Hill.
  apply orb_false_elim in Hill as [Hill _].
  split; [exact Hc|]. split; [exact Hs|]. split; [|split].
  - destruct (truthy (instrument_number r)); [now left | right].
    cbn [orb] in Hkeep. apply andb_prop in Hkeep as [Ht Hd].
    destruct (doc_type r) as [t|]; [|discriminate Ht].
    destruct (date r) as [d|]; [|discriminate Hd].
    exists t, d. cbn [truthy_str] in Ht, Hd.
    apply negb_true_iff in Ht, Hd. apply String.eqb_neq in Ht, Hd. tauto.
  - intros Hf. destruct (original_doc_type r) as [|b|z|s|l'|d]; try exact Htypes.
    cbn [truthy] in Hf. apply negb_false_iff in Hf. now rewrite Hf in Htypes.
  - intros Ht. rewrite Ht in Hill. cbn [andb] in Hill.
    destruct (original_doc_type r) as [|b|z|s|l'|d]; try discriminate Hill.
    cbn [truthy] in Ht. apply negb_true_iff in Ht. rewrite Ht in Htypes.
    destruct Htypes as [Hd Hcat]. exists s. split; [reflexivity|].
    split; [exact Hd|]. exists (category_of (lower s)). split; [exact Hcat|].
    unfold category_of.
    repeat match goal with
           | |- context [if ?b then _ else _] => destruct b
           end; cbn; tauto.
Qed.

Lemma ill_typed_raises (item : record) :
  ill_typed item = true ->
  exists e, _parse_api_record dateutil_parse item = Raise e.
Proof.
  intros Hill.
  destruct (_parse_api_record dateutil_parse item) as [[r|]|e] eqn:E;
    [| |now exists e].
  - apply parse_api_record_cases in E as (Hok & _). congruence.
  - exfalso. revert E. unfold _parse_api_record, ill_typed, get_default in *.
    set (original := py_or (get "instrument_type" item)
                       (get "instrument_description" item)) in *.
    apply orb_prop in Hill as [Hill | Hill].
    + apply andb_prop in Hill as [Ht Hs]. rewrite Ht.
      destruct original; try discriminate Hs; discriminate.
    + apply andb_prop in Hill as [Hk Hs]. rewrite Hk.
      destruct (if truthy original then _ else _) as [types|];
        cbn [mbind result_bind bind]; [|discriminate].
      destruct (if truthy (get "file_date" item) then _ else _) as [date|];
        cbn [mbind result_bind bind]; [|discriminate].
      destruct (get "direction" item); try discriminate Hs; discriminate.
Qed.

(** X30.  One item of a response is enough to lose the response: when the
    original doc type of an item is truthy and no string, or the item has
    a direction that is no string, as the JSON null is, the parsing of a
    response that is the list of the items raises and returns no record
    of the other items. *)
Theorem ill_typed_item_loses_response (items : list pyval) (item : record) :
  In (PDict item) items -> ill_typed item = true ->
  exists e, _parse_api_response dateutil_parse (PList items) = Raise e.
Proof.
  intros Hin Hill. destruct (ill_typed_raises item Hill) as [e He].
  unfold _parse_api_response. cbn [response_items iterate mbind result_bind bind].
  exact (parse_items_raises items item e Hin He).
Qed.

End Api.

Lemma parties_by_direction_example :
  grantors Examples.api_item_record
  = party_names
      (get (if is_from Examples.api_item then "party_name" else "cross_party_name")
         Examples.api_item)
  /\ grantees Examples.api_item_record
     = party_names
         (get (if is_from Examples.api_item then "cross_party_name" else "party_name")
            Examples.api_item)
  /\ length (grantors Examples.api_item_record) <= 1
  /\ length (grantees Examples.api_item_record) <= 1
  /\ forall name,
       In name (grantors Examples.api_item_record
                ++ grantees Examples.api_item_record) ->
       name <> "" /\ normalize_name name = name.
Proof.
  apply (parties_by_direction Examples.no_dateutil). reflexivity.
Defined.

Lemma api_records_identified_example :
  let r := Examples.api_item_record in
  county r = "seminole" /\ state r = "FL"
  /\ (truthy (instrument_number r) = true
      \/ exists t d, doc_type r = Some t /\ t <> "" /\ date r = Some d /\ d <> "")
  /\ (truthy (original_doc_type r) = false
      -> doc_type r = None /\ doc_category r = None)
  /\ (truthy (original_doc_type r) = true
      -> exists s, original_doc_type r = PStr s
                   /\ doc_type r = Some (upper s)
                   /\ exists c, doc_category r = Some c
                                /\ In c ["deed"; "mortgage"; "trust"; "judgment";
                                         "order"; "notice"; "misc"]).
Proof.
  apply (api_records_identified Examples.no_dateutil
           (PDict [("data", PList [PDict Examples.api_item; PInt 3;
                                   PDict [("page", PStr "4")]])])
           [Examples.api_item_record]).
  - reflexivity.
  - left. reflexivity.
Defined.

Lemma ill_typed_item_loses_response_example :
  exists e,
    _parse_api_response Examples.no_dateutil
      (PList [PDict Examples.api_item; PDict Examples.null_direction_item])
    = Raise e.
Proof.
  apply (ill_typed_item_loses_response Examples.no_dateutil _
           Examples.null_direction_item).
  - right. left. reflexivity.
  - reflexivity.
Defined.

End ScraperFacts.

(* ===================================================================== *)
(** ** Facts about the mapping of the doc types of a dataset *)
(* ===================================================================== *)

Module MappingFacts.
Import Py Utils LlmClassifier Spec StringFacts KeyFacts ClassifierFacts
  InstrumentFacts DocTypeFacts.

(** *** Keys that are strings *)


Lemma same_key_str_refl (s : string) : same_key (PStr s) (PStr s) = true.
Proof. apply same_key_refl. discriminate. Qed.


Lemma rule_category_same (a b : pyval) :
  same_key a b = true -> rule_or_misc a = rule_or_misc b.
Proof.
  intros H. destruct b as [|x|z|s|l|d];
    try (destruct a as [|x'|z'|s'|l'|d']; try reflexivity;
         apply same_key_iff in H as [k [Ha Hb]]; cbn [to_key] in Ha, Hb;
         congruence).
Qed.

(** *** Assignments in order *)


Lemma assigned_cons (item : pyval * string) (items : list (pyval * string))
    (m : pydict string) :
  assigned (item :: items) m
  = assigned items (dict_update (fst item) (fun _ => snd item) m).
Proof. reflexivity. Qed.

Lemma assigned_app (a b : list (pyval * string)) (m : pydict string) :
  assigned (a ++ b) m = assigned b (assigned a m).
Proof. unfold assigned. apply fold_left_app. Qed.

Lemma assigned_other (items : list (pyval * string)) (m : pydict string)
    (k : pyval) :
  value_in k (map fst items) = false ->
  dict_get k (assigned items m) = dict_get k m.
Proof.
  revert m. induction items as [|[k0 c0] items IH]; intros m Hk; [reflexivity|].
  cbn [map fst value_in existsb] in Hk. apply orb_false_elim in Hk as [Hk0 Hk].
  rewrite assigned_cons, (IH _ Hk). cbn [fst snd].
  now rewrite dict_get_update, same_key_sym, Hk0.
Qed.

Lemma assigned_lookup (items : list (pyval * string)) (m : pydict string)
    (k : pyval) (c : string) :
  distinct_values (map fst items) -> In (k, c) items ->
  dict_get k (assigned items m) = Some c.
Proof.
  revert m. induction items as [|[k0 c0] items IH]; intros m Hd Hin;
    [destruct Hin|].
  cbn [map fst distinct_values] in Hd. destruct Hd as [Hk0 [Hout Hd]].
  rewrite assigned_cons. cbn [fst snd]. destruct Hin as [[= -> ->] | Hin].
  - rewrite (assigned_other _ _ _ Hout), dict_get_update.
    now rewrite (same_key_refl k Hk0).
  - now apply IH.
Qed.

Lemma assigned_domain (items : list (pyval * string)) (m : pydict string)
    (k : pyval) :
  dict_get k (assigned items m) <> None
  <-> dict_get k m <> None \/ value_in k (map fst items) = true.
Proof.
  revert m. induction items as [|[k0 c0] items IH]; intros m.
  - cbn. split; [now left | intros [H | H]; [exact H | discriminate H]].
  - rewrite assigned_cons, IH. cbn [fst snd map value_in existsb].
    rewrite dict_get_update, (same_key_sym k k0).
    destruct (same_key k0 k); cbn [orb].
    + split; intros _; [now right | left; discriminate].
    + reflexivity.
Qed.







(** *** The loops of the rules *)

Lemma fallback_loop_cases (keys : list pyval) (m : pydict string) :
  fallback_loop m keys
  = if forallb is_str keys
    then Ok (assigned (map (fun k => (k, rule_or_misc k)) keys) m)
    else Raise no_lower.
Proof.
  revert m. induction keys as [|k keys IH]; intros m; [reflexivity|].
  destruct k as [| | |s| |]; try reflexivity.
  cbn [fallback_loop forallb is_str andb map]. rewrite IH, assigned_cons.
  reflexivity.
Qed.

Lemma assign_fallback_cases (m : pydict string) (k : pyval) :
  assign_fallback m k
  = if is_str k then Ok (dict_update k (fun _ => rule_or_misc k) m)
    else Raise no_lower.
Proof.
  destruct k as [| | |s| |]; try reflexivity.
  unfold assign_fallback, fallback_classification_values.
  cbn [fallback_loop dict_update mbind result_bind bind dict_get is_str].
  now rewrite same_key_str_refl.
Qed.

Lemma fallback_each_loop (batch : list pyval) (m : pydict string) :
  fallback_each m batch = fallback_loop m batch.
Proof.
  revert m. induction batch as [|k batch IH]; intros m; [reflexivity|].
  cbn [fallback_each]. rewrite assign_fallback_cases.
  destruct k as [| | |s| |]; try reflexivity.
  cbn [is_str mbind result_bind bind fallback_loop]. apply IH.
Qed.



(** *** The counter *)

Lemma present_cons (v : pyval) (values : list pyval) :
  present_doc_types (v :: values)
  = match v with
    | PDict r => if truthy (get "doc_type" r) then [get "doc_type" r] else []
    | _ => []
    end ++ present_doc_types values.
Proof. reflexivity. Qed.

Lemma count_loop_cases (values : list pyval) (c : pydict nat) :
  count_loop c values
  = match List.find (fun v => negb (countable v)) values with
    | None => Ok (counted (present_doc_types values) c)
    | Some (PDict _) => Raise unhashable
    | Some _ => Raise no_get
    end.
Proof.
  revert c. induction values as [|v values IH]; intros c; [reflexivity|].
  rewrite present_cons. cbn [List.find].
  destruct v as [| | | | |r]; try reflexivity.
  cbn [count_loop countable]. unfold hashable.
  destruct (truthy (get "doc_type" r)); cbn [negb orb app]; [|apply IH].
  destruct (to_key (get "doc_type" r)); cbn [negb]; [|reflexivity].
  rewrite IH. reflexivity.
Qed.

Lemma present_hashable (values : list pyval) :
  forallb countable values = true ->
  forallb (fun v => match to_key v with Some _ => true | None => false end)
    (present_doc_types values) = true.
Proof.
  induction values as [|v values IH]; intros H; [reflexivity|].
  cbn [forallb] in H. apply andb_prop in H as [Hv H].
  rewrite present_cons, forallb_app, (IH H), andb_true_r.
  destruct v as [| | | | |r]; try reflexivity. cbn [countable] in Hv.
  destruct (truthy (get "doc_type" r)); [|reflexivity].
  cbn [negb orb] in Hv. unfold hashable in Hv. cbn [forallb].
  now rewrite andb_true_r.
Qed.

(** The counter of a file that is read to its end. *)
Lemma doc_type_counter_cases (input : stream) (counter : pydict nat) :
  doc_type_counter input = Ok counter ->
  counter = counted (present_doc_types (yielded input)) []
  /\ forallb countable (yielded input) = true
  /\ stopped input = None
  /\ distinct_keys counter.
Proof.
  unfold doc_type_counter. rewrite count_loop_cases.
  destruct (List.find _ (yielded input)) as [bad|] eqn:Ef.
  { destruct bad; discriminate. }
  cbn [mbind result_bind bind]. destruct (stopped input); [discriminate|].
  intros [= <-].
  assert (Hall : forallb countable (yielded input) = true).
  { apply forallb_forall. intros v Hv.
    pose proof (find_none _ _ Ef v Hv) as H. now apply negb_false_iff in H. }
  repeat split; [exact Hall|].
  apply counted_distinct; [now apply present_hashable | exact I].
Qed.


Lemma value_in_app (k : pyval) (a b : list pyval) :
  value_in k (a ++ b) = value_in k a || value_in k b.
Proof. unfold value_in. apply existsb_app. Qed.







(** *** The sample *)

Lemma distinct_keys_NoDup {V : Type} (d : pydict V) :
  distinct_keys d -> List.NoDup (map fst d).
Proof.
  induction d as [|[k v] d IH]; [constructor|].
  cbn [distinct_keys map fst]. intros [H0 [Hg Hd]]. constructor; [|now apply IH].
  intros Hin. apply in_map_iff in Hin as [[k' v'] [E Hin]]. cbn [fst] in E.
  subst k'. rewrite (In_dict_get k v' d Hd Hin) in Hg. discriminate Hg.
Qed.

(** Among the keys of a dictionary, to be the same key is to be equal. *)
Lemma value_in_keys {V : Type} (d : pydict V) (x : pyval) (l : list pyval) :
  distinct_keys d -> In x (map fst d) -> (forall y, In y l -> In y (map fst d)) ->
  value_in x l = true <-> In x l.
Proof.
  intros Hd Hx Hl. apply in_map_iff in Hx as [[x' vx] [E Hx]]. cbn [fst] in E.
  subst x'. unfold value_in. rewrite existsb_exists. split.
  - intros [y [Hy Hsame]]. pose proof (Hl y Hy) as Hyd.
    apply in_map_iff in Hyd as [[y' vy] [E Hyd]]. cbn [fst] in E. subst y'.
    rewrite same_key_sym in Hsame.
    now rewrite <- (distinct_same_item d x y vx vy Hd Hx Hyd Hsame).
  - intros Hin. exists x. split; [exact Hin|].
    apply same_key_refl. exact (In_key_hashable d x vx Hd Hx).
Qed.

Lemma sorted_keys_In {V : Type} (key : pyval * V -> nat) (n : nat)
    (d : pydict V) (k : pyval) :
  In k (map fst (firstn n (Num.sort_desc key d))) -> In k (map fst d).
Proof.
  intros H. apply (Permutation_in k (Permutation_map fst (sort_desc_Permutation key d))).
  rewrite <- (firstn_skipn n (Num.sort_desc key d)), map_app.
  apply in_or_app. now left.
Qed.

Section Members.

Variable random_sample : list pyval -> nat -> list pyval.
Variable openai_installed : bool.
Variable env_api_key : option string.
Variable client_created : bool.
Variable chat_completion : nat -> list pyval -> option string.

(** [random.sample] returns elements of the population. *)
Hypothesis random_sample_members :
  forall population k x, In x (random_sample population k) -> In x population.


(** *** The classification *)












End Members.

Lemma firstn_members (population : list pyval) (k : nat) (x : pyval) :
  In x (Examples.no_sample population k) -> In x population.
Proof.
  unfold Examples.no_sample. intros H. rewrite <- (firstn_skipn k population).
  apply in_or_app. now left.
Qed.



(** The rule-based mapping of the end-to-end example. *)
Example create_mapping_wake_value :
  create_mapping Examples.no_sample false None false Examples.no_reply
    Examples.wake_stream false None
  = Ok [(PStr "WARRANTY DEED", "SALE_DEED"); (PStr "DEED OF TRUST", "DEED_OF_TRUST");
        (PStr "MTG ASSIGNMENT", "MORTGAGE")].
Proof. reflexivity. Qed.


(** *** The size of the sample *)

Lemma NoDup_firstn_skipn {A : Type} (n : nat) (l : list A) :
  List.NoDup l ->
  List.NoDup (firstn n l) /\ List.NoDup (skipn n l)
  /\ forall x, In x (firstn n l) -> ~ In x (skipn n l).
Proof.
  intros Hnd. rewrite <- (firstn_skipn n l) in Hnd.
  split; [exact (NoDup_app_remove_r _ _ Hnd)|].
  split; [exact (NoDup_app_remove_l _ _ Hnd)|].
  revert Hnd. generalize (firstn n l) (skipn n l). intros a b.
  induction a as [|y a IH]; intros Hnd x Hx; [destruct Hx|].
  cbn [app] in Hnd. inversion Hnd as [|? ? Hy Ha]; subst.
  destruct Hx as [-> | Hx]; [|now apply IH].
  intros Hb. apply Hy, in_or_app. now right.
Qed.

Lemma filter_all {A : Type} (p : A -> bool) (l : list A) :
  (forall x, In x l -> p x = true) -> List.filter p l = l.
Proof.
  induction l as [|x l IH]; intros H; [reflexivity|].
  cbn [List.filter]. rewrite (H x (or_introl eq_refl)). f_equal.
  apply IH. intros y Hy. apply H. now right.
Qed.

Lemma filter_none {A : Type} (p : A -> bool) (l : list A) :
  (forall x, In x l -> p x = false) -> List.filter p l = [].
Proof.
  induction l as [|x l IH]; intros H; [reflexivity|].
  cbn [List.filter]. rewrite (H x (or_introl eq_refl)).
  apply IH. intros y Hy. apply H. now right.
Qed.

Lemma filter_Permutation {A : Type} (p : A -> bool) (l l' : list A) :
  Permutation l l' -> Permutation (List.filter p l) (List.filter p l').
Proof.
  induction 1 as [|x l l' _ IH|x y l|l l' l'' _ IH1 _ IH2].
  - constructor.
  - cbn [List.filter]. destruct (p x); [now constructor | exact IH].
  - cbn [List.filter]. destruct (p x), (p y);
      try apply Permutation_refl. constructor.
  - now transitivity (List.filter p l').
Qed.

Section Sample.

Variable random_sample : list pyval -> nat -> list pyval.

(** [random.sample(population, k)] returns [k] elements of the
    population, at different positions. *)
Hypothesis random_sample_spec :
  forall population k,
    k <= length population ->
    length (random_sample population k) = k
    /\ (forall x, In x (random_sample population k) -> In x population)
    /\ (List.NoDup population -> List.NoDup (random_sample population k)).

(** X18.  When the counting of the doc types of a file returns, its
    counter holds every truthy doc type of the file once, strings or not,
    with the number of the records that have it, and the sample is made
    of different keys of the counter, among them the 50 most frequent.
    The sample is all the keys when there are no more than the size
    asked; otherwise its length is the size asked, or the number of the
    most frequent taken first (50, or all when fewer) where that is
    larger. *)
Theorem sample_size_and_members (input : stream) (sample_size : nat)
    (counter : pydict nat) :
  doc_type_counter input = Ok counter ->
  distinct_keys counter
  /\ (forall k,
        count_of counter k
        = length (List.filter (fun v => same_key v k)
                    (present_doc_types (yielded input))))
  /\ exists sample,
       sample_doc_types_strategically random_sample input sample_size = Ok sample
       /\ List.NoDup sample
       /\ (forall d, In d sample -> In d (map fst counter))
       /\ (forall d, In d (map fst (firstn 50 (Num.sort_desc snd counter))) ->
             In d sample)
       /\ length sample
          = (if (length counter <=? sample_size)%nat then length counter
             else Nat.max sample_size (Nat.min 50 (length counter)))
       /\ ((length counter <= sample_size)%nat -> sample = map fst counter).
Proof.
  intros Hc. pose proof (doc_type_counter_cases input counter Hc)
    as (Hcounted & _ & _ & Hdist).
  split; [exact Hdist|]. split.
  { intros k. rewrite Hcounted, counted_count. reflexivity. }
  unfold sample_doc_types_strategically. rewrite Hc.
  cbn [mbind result_bind bind].
  set (keys := map fst counter).
  set (sorted := Num.sort_desc snd counter).
  assert (Hkeys : List.NoDup keys) by (now apply distinct_keys_NoDup).
  assert (Hperm : Permutation (map fst sorted) keys)
    by (apply Permutation_map, sort_desc_Permutation).
  assert (Hlen : length keys = length counter) by apply length_map.
  assert (Hslen : length sorted = length counter)
    by (apply Permutation_length, sort_desc_Permutation).
  assert (Htop : forall d, In d (map fst (firstn 50 sorted)) -> In d keys)
    by (intros d Hd; exact (sorted_keys_In _ _ _ _ Hd)).
  rewrite Hlen. destruct (length counter <=? sample_size)%nat eqn:Hle.
  { exists keys. repeat split; auto. }
  apply Nat.leb_gt in Hle.
  rewrite Hslen, length_map, length_firstn, Hslen.
  set (top_n := Nat.min 50 (length counter)).
  replace (Nat.min top_n (length counter)) with top_n by lia.
  set (sampled := map fst (firstn top_n sorted)).
  assert (Hs50 : forall d, In d (map fst (firstn 50 sorted)) -> In d sampled).
  { intros d Hd. subst sampled top_n.
    destruct (Nat.le_ge_cases 50 (length counter)) as [H | H].
    - now rewrite Nat.min_l by exact H.
    - rewrite Nat.min_r by exact H.
      rewrite firstn_all2 in Hd by lia. rewrite firstn_all2 by lia. exact Hd. }
  assert (Hsplit : map fst sorted
                   = sampled ++ skipn top_n (map fst sorted)).
  { subst sampled. now rewrite <- firstn_map, firstn_skipn. }
  assert (Hnd : List.NoDup (map fst sorted))
    by (apply (Permutation_NoDup (Permutation_sym Hperm)), Hkeys).
  destruct (NoDup_firstn_skipn top_n _ Hnd) as [Hnd1 [Hnd2 Hdisj]].
  rewrite firstn_map in Hnd1, Hdisj. fold sampled in Hnd1, Hdisj.
  assert (Hsin : forall d, In d sampled -> In d keys)
    by (intros d Hd; exact (sorted_keys_In _ _ _ _ Hd)).
  assert (Hval : forall x, In x keys ->
                   value_in x sampled = true <-> In x sampled)
    by (intros x Hx; exact (value_in_keys counter x sampled Hdist Hx Hsin)).
  set (remaining := List.filter (fun dt => negb (value_in dt sampled)) keys).
  assert (Hrem : Permutation remaining (skipn top_n (map fst sorted))).
  { subst remaining.
    rewrite (filter_Permutation _ _ _ (Permutation_sym Hperm)).
    rewrite Hsplit at 1. rewrite List.filter_app.
    rewrite filter_none, filter_all; [reflexivity | |].
    - intros x Hx. apply negb_true_iff.
      destruct (value_in x sampled) eqn:E; [|reflexivity].
      assert (Hxk : In x keys).
      { apply (Permutation_in x Hperm). rewrite Hsplit.
        apply in_or_app. now right. }
      apply (Hval x Hxk) in E. now destruct (Hdisj x E).
    - intros x Hx. apply negb_false_iff. apply (Hval x (Hsin x Hx)). exact Hx. }
  assert (Hrlen : length remaining = length counter - top_n).
  { rewrite (Permutation_length Hrem), length_skipn, length_map. lia. }
  assert (Hrnd : List.NoDup remaining) by (now apply List.NoDup_filter).
  destruct (top_n <? sample_size)%nat eqn:Hlt.
  - apply Nat.ltb_lt in Hlt.
    replace (Nat.min (sample_size - top_n) (length remaining))
      with (sample_size - top_n) by lia.
    destruct (random_sample_spec remaining (sample_size - top_n))
      as [Hl [Hin Hn]]; [lia|].
    eexists. split; [reflexivity|]. repeat split.
    + apply List.NoDup_app; [exact Hnd1 | now apply Hn |].
      intros d Hd Hd'. apply Hin in Hd'. apply filter_In in Hd' as [Hk Hd'].
      apply negb_true_iff in Hd'. apply (Hval d Hk) in Hd. congruence.
    + intros d Hd. apply in_app_or in Hd as [Hd | Hd]; [now apply Hsin|].
      apply Hin in Hd. now apply filter_In in Hd as [Hd _].
    + intros d Hd. apply in_or_app. left. now apply Hs50.
    + rewrite length_app, Hl. unfold sampled.
      rewrite length_map, length_firstn. lia.
    + lia.
  - apply Nat.ltb_ge in Hlt. eexists. split; [reflexivity|]. repeat split; auto.
    + unfold sampled. rewrite length_map, length_firstn. lia.
    + lia.
Qed.

End Sample.

Lemma firstn_sample_spec (population : list pyval) (k : nat) :
  k <= length population ->
  length (Examples.no_sample population k) = k
  /\ (forall x, In x (Examples.no_sample population k) -> In x population)
  /\ (List.NoDup population -> List.NoDup (Examples.no_sample population k)).
Proof.
  intros Hk. unfold Examples.no_sample. repeat split.
  - rewrite length_firstn. lia.
  - apply firstn_members.
  - intros Hnd. now destruct (NoDup_firstn_skipn k population Hnd).
Qed.

Lemma sample_size_and_members_example :
  let input := Examples.numbered_stream in
  let counter := [(PStr "DEED", 1); (PInt 5, 1)] in
  distinct_keys counter
  /\ (forall k,
        count_of counter k
        = length (List.filter (fun v => same_key v k)
                    (present_doc_types (yielded input))))
  /\ exists sample,
       sample_doc_types_strategically Examples.no_sample input 1 = Ok sample
       /\ List.NoDup sample
       /\ (forall d, In d sample -> In d (map fst counter))
       /\ (forall d, In d (map fst (firstn 50 (Num.sort_desc snd counter))) ->
             In d sample)
       /\ length sample
          = (if (length counter <=? 1)%nat then length counter
             else Nat.max 1 (Nat.min 50 (length counter)))
       /\ ((length counter <= 1)%nat -> sample = map fst counter).
Proof.
  apply (sample_size_and_members Examples.no_sample firstn_sample_spec
           Examples.numbered_stream 1).
  reflexivity.
Defined.

(** *** The replies *)

Lemma find_eqb (c : string) (l : list string) :
  match List.find (String.eqb c) l with
  | Some x => x = c /\ str_in c l = true
  | None => str_in c l = false
  end.
Proof.
  unfold str_in. induction l as [|x l IH]; [reflexivity|].
  cbn [List.find existsb]. destruct (String.eqb c x) eqn:E.
  - apply String.eqb_eq in E. now split.
  - exact IH.
Qed.

(** The category written for a line is the category that the line
    names. *)
Lemma reply_category_line (content : string) (j : nat) :
  reply_category (split newline (strip content)) j = line_category content j.
Proof.
  unfold reply_category, line_category, named_category.
  destruct (nth_error _ j) as [line|]; [|reflexivity].
  pose proof (find_eqb (upper (strip line)) STANDARD_CATEGORIES) as H.
  destruct (List.find _ STANDARD_CATEGORIES) as [x|].
  - destruct H as [-> ->]. reflexivity.
  - now rewrite H.
Qed.

Lemma fold_left_map {A B C : Type} (f : A -> C -> A) (g : B -> C) (l : list B)
    (a : A) :
  fold_left f (map g l) a = fold_left (fun a x => f a (g x)) l a.
Proof. revert a. induction l as [|x l IH]; intros a; [reflexivity|]. apply IH. Qed.

Lemma fold_left_ext {A B : Type} (f g : A -> B -> A) (l : list B) (a : A) :
  (forall a x, f a x = g a x) -> fold_left f l a = fold_left g l a.
Proof.
  intros H. revert a. induction l as [|x l IH]; intros a; [reflexivity|].
  cbn [fold_left]. now rewrite H, IH.
Qed.

Lemma enumerate_from {A : Type} (start : nat) (l : list A) :
  map snd (combine (seq start (length l)) l) = l
  /\ forall p x, nth_error l p = Some x ->
       In (start + p, x) (combine (seq start (length l)) l).
Proof.
  revert start. induction l as [|y l IH]; intros start.
  - split; [reflexivity | intros [|p] x H; discriminate H].
  - cbn [length seq combine map snd]. destruct (IH (S start)) as [IH1 IH2].
    split; [now rewrite IH1|].
    intros [|p] x H.
    + injection H as ->. left. f_equal. lia.
    + right. replace (start + S p) with (S start + p) by lia. now apply IH2.
Qed.

Lemma flat_map_map {A B C : Type} (f : B -> list C) (g : A -> B) (l : list A) :
  flat_map f (map g l) = flat_map (fun x => f (g x)) l.
Proof. induction l as [|x l IH]; [reflexivity|]. cbn [map flat_map]. now rewrite IH. Qed.

Lemma chunks_concat {A : Type} (count : nat) (l : list A) :
  length l <= count * 50 ->
  flat_map (fun k => firstn 50 (skipn (k * 50) l)) (seq 0 count) = l.
Proof.
  revert l. induction count as [|count IH]; intros l Hl.
  - destruct l; [reflexivity | cbn in Hl; lia].
  - cbn [seq flat_map]. rewrite <- seq_shift, flat_map_map.
    rewrite (flat_map_ext _ (fun k => firstn 50 (skipn (k * 50) (skipn 50 l)))).
    + rewrite IH by (rewrite length_skipn; lia).
      cbn [Nat.mul skipn]. apply firstn_skipn.
    + intros k. rewrite skipn_skipn. do 2 f_equal. lia.
Qed.

Lemma range_step_chunks {A : Type} (l : list A) :
  flat_map (fun i => firstn 50 (skipn i l)) (range_step (length l) 50) = l.
Proof.
  unfold range_step. rewrite flat_map_map. apply chunks_concat.
  pose proof (Nat.div_mod_eq (length l + 50 - 1) 50).
  pose proof (Nat.mod_upper_bound (length l + 50 - 1) 50). lia.
Qed.

Section Replies.

Variable openai_installed : bool.
Variable env_api_key : option string.
Variable client_created : bool.
Variable chat_completion : nat -> list pyval -> option string.

Lemma classify_batch_cases (m : pydict string) (i : nat)
    (doc_types : list pyval) :
  classify_batch chat_completion m i doc_types
  = if batch_passes chat_completion doc_types i
    then Ok (assigned (batch_assignments chat_completion doc_types i) m)
    else Raise no_lower.
Proof.
  unfold classify_batch, batch_passes, batch_assignments.
  destruct (chat_completion _ _) as [content|].
  - destruct (forallb hashable _); [|reflexivity]. f_equal.
    unfold assigned. rewrite fold_left_map. apply fold_left_ext.
    intros a jd. cbn [fst snd]. now rewrite reply_category_line.
  - now rewrite fallback_each_loop, fallback_loop_cases.
Qed.

Lemma classify_batches_cases (starts : list nat) (m : pydict string)
    (doc_types : list pyval) :
  classify_batches chat_completion m starts doc_types
  = if forallb (batch_passes chat_completion doc_types) starts
    then Ok (assigned
               (flat_map (batch_assignments chat_completion doc_types) starts) m)
    else Raise no_lower.
Proof.
  revert m. induction starts as [|i starts IH]; intros m; [reflexivity|].
  cbn [classify_batches forallb flat_map]. rewrite classify_batch_cases.
  destruct (batch_passes chat_completion doc_types i); [|reflexivity].
  cbn [mbind result_bind bind andb]. rewrite IH.
  destruct (forallb _ starts); [|reflexivity]. now rewrite assigned_app.
Qed.

Lemma batch_assignments_keys (doc_types : list pyval) (i : nat) :
  map fst (batch_assignments chat_completion doc_types i)
  = firstn 50 (skipn i doc_types).
Proof.
  unfold batch_assignments. destruct (chat_completion _ _) as [content|].
  - rewrite map_map. cbn [fst]. unfold enumerate.
    rewrite (map_ext _ snd) by reflexivity.
    now destruct (enumerate_from 0 (firstn 50 (skipn i doc_types))) as [-> _].
  - rewrite map_map. cbn [fst]. apply map_id.
Qed.

Lemma assignments_keys (doc_types : list pyval) (starts : list nat) :
  map fst (flat_map (batch_assignments chat_completion doc_types) starts)
  = flat_map (fun i => firstn 50 (skipn i doc_types)) starts.
Proof.
  induction starts as [|i starts IH]; [reflexivity|].
  cbn [flat_map]. now rewrite map_app, IH, batch_assignments_keys.
Qed.

(** X19.  When the service is used and [classify_with_llm] returns, the
    dictionary has exactly the doc types given as keys, strings or not,
    and a doc type at position [j] of a list of different keys has the
    category that the line at position [j mod 50] of the reply to batch
    [j / 50] names: the standard category that the line reads without the
    blanks around it and in capitals, MISC when it reads none or when the
    reply has no such line; when the request for the batch failed it has
    the category of the rules. *)
Theorem reply_lines_by_position (doc_types : list pyval)
    (api_key : option string) (m : pydict string) :
  classify_with_llm openai_installed env_api_key client_created chat_completion
    doc_types api_key = Ok m ->
  key_given (if key_given api_key then api_key else env_api_key) = true ->
  (forall k, dict_get k m <> None <-> value_in k doc_types = true)
  /\ (distinct_values doc_types ->
      forall j d, nth_error doc_types j = Some d ->
        dict_get d m
        = match chat_completion (j / 50)
                  (firstn 50 (skipn (j / 50 * 50) doc_types)) with
          | Some content => Some (line_category content (j mod 50))
          | None => rule_category d
          end).
Proof.
  unfold classify_with_llm. intros Hm Hkey.
  destruct openai_installed; cbn [negb] in Hm; [|discriminate Hm].
  rewrite Hkey in Hm. cbn [negb] in Hm.
  destruct client_created; cbn [negb] in Hm; [|discriminate Hm].
  rewrite classify_batches_cases in Hm.
  destruct (forallb _ (range_step (length doc_types) 50)) eqn:Hpass;
    [|discriminate Hm].
  injection Hm as <-.
  set (kvs := flat_map _ _).
  assert (Hkeys : map fst kvs = doc_types)
    by (unfold kvs; rewrite assignments_keys; apply range_step_chunks).
  split.
  - intros k. rewrite assigned_domain, Hkeys. cbn [dict_get]. split.
    + intros [H | H]; [now destruct H | exact H].
    + intros H. now right.
  - intros Hnd j d Hj.
    assert (Hlt : j < length doc_types)
      by (apply nth_error_Some; now rewrite Hj).
    assert (Hstart : In (j / 50 * 50) (range_step (length doc_types) 50)).
    { unfold range_step. apply in_map_iff. exists (j / 50). split; [reflexivity|].
      apply in_seq. split; [lia|]. cbn [Nat.add].
      pose proof (Nat.div_mod_eq j 50).
      pose proof (Nat.mod_upper_bound j 50).
      pose proof (Nat.div_mod_eq (length doc_types + 50 - 1) 50).
      pose proof (Nat.mod_upper_bound (length doc_types + 50 - 1) 50).
      nia. }
    assert (Hnth : nth_error (firstn 50 (skipn (j / 50 * 50) doc_types))
                     (j mod 50) = Some d).
    { rewrite nth_error_firstn.
      pose proof (Nat.mod_upper_bound j 50).
      replace (j mod 50 <? 50)%nat with true
        by (symmetry; apply Nat.ltb_lt; lia).
      rewrite nth_error_skipn. rewrite <- Hj. f_equal.
      pose proof (Nat.div_mod_eq j 50). lia. }
    rewrite forallb_forall in Hpass. specialize (Hpass _ Hstart).
    unfold batch_passes in Hpass. rewrite Nat.div_mul in Hpass by discriminate.
    destruct (chat_completion (j / 50) _) as [content|] eqn:Echat.
    + apply assigned_lookup; [now rewrite Hkeys|].
      unfold kvs. apply in_flat_map. exists (j / 50 * 50). split; [exact Hstart|].
      unfold batch_assignments. rewrite Nat.div_mul by discriminate.
      rewrite Echat. apply in_map_iff. exists (j mod 50, d).
      split; [reflexivity|]. unfold enumerate.
      destruct (enumerate_from 0 (firstn 50 (skipn (j / 50 * 50) doc_types)))
        as [_ H].
      exact (H _ _ Hnth).
    + assert (Hd : is_str d = true).
      { rewrite forallb_forall in Hpass. apply Hpass.
        exact (nth_error_In _ _ Hnth). }
      destruct d as [| | |s| |]; try discriminate Hd. cbn [rule_category].
      apply assigned_lookup; [now rewrite Hkeys|].
      unfold kvs. apply in_flat_map. exists (j / 50 * 50). split; [exact Hstart|].
      unfold batch_assignments. rewrite Nat.div_mul by discriminate.
      rewrite Echat. apply in_map_iff. exists (PStr s). split; [reflexivity|].
      exact (nth_error_In _ _ Hnth).
Qed.

End Replies.

(** The three lines of the reply: a category in small letters, one
    between blanks, and a word that is no category, for a doc type that
    is a number. *)
Lemma reply_lines_example :
  let doc_types := [PStr "WARRANTY DEED"; PStr "DEED OF TRUST"; PInt 5] in
  let m := [(PStr "WARRANTY DEED", "SALE_DEED");
            (PStr "DEED OF TRUST", "DEED_OF_TRUST"); (PInt 5, "MISC")] in
  (forall k, dict_get k m <> None <-> value_in k doc_types = true)
  /\ (distinct_values doc_types ->
      forall j d, nth_error doc_types j = Some d ->
        dict_get d m
        = match Examples.canned_reply (j / 50)
                  (firstn 50 (skipn (j / 50 * 50) doc_types)) with
          | Some content => Some (line_category content (j mod 50))
          | None => rule_category d
          end).
Proof.
  apply (reply_lines_by_position true None true Examples.canned_reply
           [PStr "WARRANTY DEED"; PStr "DEED OF TRUST"; PInt 5] (Some "key"));
    reflexivity.
Defined.

End MappingFacts.

(* ===================================================================== *)
(** ** Facts about [stream_jsonl] *)
(* ===================================================================== *)

Module StreamFacts.
Import Py Utils Examples.

Section Decoder.

Variable json_loads : string -> result pyval.

(** A line that decodes is yielded as decoded, whatever its type: the
    generator does not look at the value. *)
Lemma stream_yields_decoded (line_num : nat) (raw : string) (rest : list string)
    (v : pyval) :
  strip raw <> "" ->
  json_loads (strip raw) = Ok v ->
  yielded (stream_from json_loads line_num (raw :: rest))
  = v :: yielded (stream_from json_loads (S line_num) rest).
Proof.
  intros Hne Hv. simpl. apply String.eqb_neq in Hne. now rewrite Hne, Hv.
Qed.

(** A blank line is passed over without a warning. *)
Lemma stream_skips_blank (line_num : nat) (raw : string) (rest : list string) :
  strip raw = "" ->
  stream_from json_loads line_num (raw :: rest)
  = stream_from json_loads (S line_num) rest.
Proof. intros H. simpl. now rewrite H. Qed.

(** A line on which the decoder raises [JSONDecodeError] is passed over
    with a warning that names its number. *)
Lemma stream_skips_malformed (line_num : nat) (raw : string) (rest : list string)
    (msg : string) :
  strip raw <> "" ->
  json_loads (strip raw) = Raise (JSONDecodeError msg) ->
  let s := stream_from json_loads (S line_num) rest in
  stream_from json_loads line_num (raw :: rest)
  = mk_stream (yielded s)
      (("Error parsing line " +:+ str_of_nat line_num +:+ ": " +:+ msg)
         :: warnings s)
      (stopped s).
Proof.
  intros Hne Hv. simpl. apply String.eqb_neq in Hne. now rewrite Hne, Hv.
Qed.

(** While the decoder raises nothing but [JSONDecodeError], no line
    stops the generator. *)
Lemma stream_not_stopped (lines : list string) (line_num : nat) :
  (forall line e, json_loads line = Raise e -> exists msg, e = JSONDecodeError msg) ->
  stopped (stream_from json_loads line_num lines) = None.
Proof.
  intros Hdec. revert line_num.
  induction lines as [|raw rest IH]; intros line_num; simpl; [reflexivity|].
  destruct (String.eqb (strip raw) ""); [apply IH|].
  destruct (json_loads (strip raw)) as [v|e] eqn:E; simpl; [apply IH|].
  destruct (Hdec _ _ E) as [msg ->]. simpl. apply IH.
Qed.

(** X3.  While the decoder raises nothing but [JSONDecodeError] on the
    lines of a file, the generator reaches the end of the file: it yields
    the decoded value of every line that is not blank and decodes, in the
    order of the lines, and logs one warning for every other line that is
    not blank, with the number of the line in the file counted from 1,
    blank lines included. *)
Theorem stream_contents (lines : list string) :
  (forall raw e, In raw lines -> json_loads (strip raw) = Raise e ->
                 exists msg, e = JSONDecodeError msg) ->
  stream_jsonl json_loads lines
  = mk_stream (Spec.stream_values json_loads lines)
      (Spec.stream_warnings json_loads 1 lines) None.
Proof.
  unfold stream_jsonl. generalize 1 as line_num.
  induction lines as [|raw rest IH]; intros line_num Hdec; [reflexivity|].
  assert (Hrest : forall raw e, In raw rest -> json_loads (strip raw) = Raise e ->
                    exists msg, e = JSONDecodeError msg)
    by (intros r e Hr; apply Hdec; now right).
  specialize (IH (S line_num) Hrest).
  cbn [stream_from Spec.stream_values Spec.stream_warnings flat_map length seq
         combine fst snd].
  fold (Spec.stream_values json_loads rest).
  fold (Spec.stream_warnings json_loads (S line_num) rest).
  destruct (String.eqb (strip raw) ""); [exact IH|].
  destruct (json_loads (strip raw)) as [v|e] eqn:E.
  - rewrite IH. reflexivity.
  - destruct (Hdec raw e (or_introl eq_refl) E) as [msg ->].
    rewrite IH. reflexivity.
Qed.

End Decoder.

Lemma stream_contents_example :
  stream_jsonl json_loads_fragment mixed_lines
  = mk_stream (Spec.stream_values json_loads_fragment mixed_lines)
      (Spec.stream_warnings json_loads_fragment 1 mixed_lines) None.
Proof.
  apply stream_contents.
  intros raw e [<- | [<- | [<- | [<- | [<- | []]]]]]; vm_compute;
    intros [= <-]; eexists; reflexivity.
Defined.

(** A file none of whose lines is JSON: every line is passed over. *)
Lemma stream_not_stopped_garbage :
  stopped (stream_from (fun _ => Raise (JSONDecodeError "Expecting value")) 1
             ["{oops"; "}"; "x"])
  = None.
Proof.
  apply stream_not_stopped. intros line e [= <-]. now exists "Expecting value".
Defined.

(** C6 at its failing input.  Of the five lines, the blank one is passed
    over silently and the one that is no JSON with a warning, and the
    generator reaches the end; but the array and the number are valid JSON
    and are yielded like the object, although they are no mappings. *)
Theorem stream_yields_non_mappings :
  let s := stream_jsonl json_loads_fragment mixed_lines in
  yielded s
  = [PDict [("county", PStr "wake"); ("book", PInt 12)];
     PList [PInt 1; PInt 2];
     PInt 42]
  /\ map is_dict (yielded s) = [true; false; false]
  /\ warnings s
     = ["Error parsing line 4: Expecting property name enclosed in double quotes"]
  /\ stopped s = None.
Proof. vm_compute. repeat split. Qed.

End StreamFacts.
